(** * MockService: a shallow embedding of [src/MockService.ts]

    The service places a configurable number of tracked assets on the
    paths of a set of polylines ([_initialize]), moves every asset one
    step along its path each time the first page of a cycle is requested
    ([_updatePositions]), and hands the observations out page by page
    ([next]).

    Modelling conventions.
    - JavaScript numbers that hold coordinates, distances and speeds are
      IEEE binary64 values: Rocq's primitive [float], whose [+ - * /],
      [sqrt] and comparisons are the same operations.
    - JavaScript numbers that hold counts and array indices
      ([trackedAssets], [pageSize], [_page], [_idCounter], path and vertex
      indices, ...) are taken to be integers below 2^53; they are modelled
      as [Z], on which [+], [*] and the comparisons agree with the double
      operations.  [Math.floor (a / b)] of two such integers with [b > 0]
      is [a / b] on [Z].  The two places where the source divides counts
      are also given in double precision and compared with the integer
      definitions on small counts.
    - An array is a [list]; reading an index that is absent gives
      [undefined], modelled as [None] by [get]; reading a property of
      [undefined] throws a [TypeError], modelled by [deref].
    - A method that can throw returns a [Result].
    - [Math.atan2], [Math.round] and the stream of values returned by
      [Math.random] belong to the host, not to the program: they are
      variables of the section. *)

From Stdlib Require Import ZArith List Lia Bool.
From Stdlib Require Import Floats.PrimFloat Floats.SpecFloat Floats.FloatOps.
From Stdlib Require Import Uint63.
Import ListNotations.

Set Warnings "-inexact-float".
Local Open Scope Z_scope.

(** ** Results of JavaScript evaluation *)

Inductive JsError : Type :=
| TypeError    (* a property of [undefined] was read *)
| RangeError.  (* [new Array n] with an invalid length *)

Inductive Result (A : Type) : Type :=
| Return (a : A)
| Throw (e : JsError).

Arguments Return {A} a.
Arguments Throw {A} e.

Definition bind {A B : Type} (r : Result A) (k : A -> Result B) : Result B :=
  match r with
  | Return a => k a
  | Throw e => Throw e
  end.

Notation "x <- r ;; k" := (bind r (fun x => k))
  (at level 61, r at next level, right associativity).
Notation "' p <- r ;; k" := (bind r (fun x => match x with p => k end))
  (at level 61, p pattern, r at next level, right associativity).

(** ** Arrays *)

Definition len {A : Type} (l : list A) : Z := Z.of_nat (length l).

(** [l[i]]: [None] stands for [undefined]. *)
Definition get {A : Type} (l : list A) (i : Z) : option A :=
  if i <? 0 then None else nth_error l (Z.to_nat i).

(** The value [o] is about to have a property read. *)
Definition deref {A : Type} (o : option A) : Result A :=
  match o with
  | Some a => Return a
  | None => Throw TypeError
  end.

Fixpoint replace {A : Type} (l : list A) (n : nat) (v : A) : list A :=
  match l, n with
  | [], _ => []
  | _ :: t, O => v :: t
  | h :: t, S n' => h :: replace t n' v
  end.

(** [l[i] = v] on an array whose slots may be empty: a write past the end
    extends the array, leaving holes.  The array indices are the integers
    from 0 to [2^32 - 2]; a negative [i], or one from [2^32 - 1] on, names
    a property of the object: the write adds no element and leaves the
    length alone, and [JSON.stringify] prints the elements only. *)
Definition arraySet {A : Type} (l : list (option A)) (i : Z) (v : option A)
  : list (option A) :=
  if i <? 0 then l
  else if 4294967294 <? i then l
  else if i <? len l then replace l (Z.to_nat i) v
  else l ++ repeat None (Z.to_nat (i - len l)) ++ [v].

(** [new Array(n)]: [n] empty slots. *)
Definition newArray {A : Type} (n : Z) : Result (list (option A)) :=
  if (n <? 0) || (4294967295 <? n) then Throw RangeError
  else Return (repeat None (Z.to_nat n)).

(** ** Data model *)

(** A vertex is an array [[x, y]]. *)
Definition Vertex : Type := (float * float)%type.

Definition Path : Type := list Vertex.

Record Polyline : Type := { paths : list Path }.

(** The attributes of the input features are never read. *)
Record Feature (T : Type) : Type := { geometry : T }.
Arguments geometry {T} f.

Record FeatureSet (T : Type) : Type := { features : list (Feature T) }.
Arguments features {T} f.

Record Attributes : Type := {
  OBJECTID : Z;
  TRACKID : Z;
  HEADING : float;
  TYPE : float;
  ACTIVE : Z
}.

Record PointFeature : Type := {
  attributes : Attributes;
  point : float * float      (* geometry: { x, y } *)
}.

Record MockServiceConfig : Type := {
  trackedAssets : Z;
  pageSize : Z;
  distStep : float
}.

(** The constructor's [Partial<MockServiceConfig>]. *)
Record PartialConfig : Type := {
  trackedAssets' : option Z;
  pageSize' : option Z;
  distStep' : option float
}.

(** One track of [_trackInfos].  The source packs the six numbers of a
    track into consecutive slots [i .. i+5] of one flat array and never
    reads or writes across tracks; a track is one record here, track
    [i / 6] of the source is element [i / 6] of the list. *)
Record TrackInfo : Type := {
  featureIndex : Z;
  pathIndex : Z;
  vertexIndex : Z;
  distanceToNextVertex : float;
  accumulatedDistance : float;
  speed : float
}.

Record MockService : Type := {
  _idCounter : Z;
  _page : Z;
  _config : MockServiceConfig;
  _lastObservations : list PointFeature;
  _trackInfos : list TrackInfo;
  _polylines : option (FeatureSet Polyline);
  _numCyclesSinceLastActiveUpdate : Z;
  randomCalls : nat   (* how many values [Math.random] has handed out *)
}.

Definition with_idCounter (s : MockService) (v : Z) : MockService :=
  {| _idCounter := v; _page := _page s; _config := _config s;
     _lastObservations := _lastObservations s; _trackInfos := _trackInfos s;
     _polylines := _polylines s;
     _numCyclesSinceLastActiveUpdate := _numCyclesSinceLastActiveUpdate s;
     randomCalls := randomCalls s |}.

Definition with_page (s : MockService) (v : Z) : MockService :=
  {| _idCounter := _idCounter s; _page := v; _config := _config s;
     _lastObservations := _lastObservations s; _trackInfos := _trackInfos s;
     _polylines := _polylines s;
     _numCyclesSinceLastActiveUpdate := _numCyclesSinceLastActiveUpdate s;
     randomCalls := randomCalls s |}.

Definition with_lastObservations (s : MockService) (v : list PointFeature)
  : MockService :=
  {| _idCounter := _idCounter s; _page := _page s; _config := _config s;
     _lastObservations := v; _trackInfos := _trackInfos s;
     _polylines := _polylines s;
     _numCyclesSinceLastActiveUpdate := _numCyclesSinceLastActiveUpdate s;
     randomCalls := randomCalls s |}.

Definition with_trackInfos (s : MockService) (v : list TrackInfo)
  : MockService :=
  {| _idCounter := _idCounter s; _page := _page s; _config := _config s;
     _lastObservations := _lastObservations s; _trackInfos := v;
     _polylines := _polylines s;
     _numCyclesSinceLastActiveUpdate := _numCyclesSinceLastActiveUpdate s;
     randomCalls := randomCalls s |}.

Definition with_polylines (s : MockService) (v : option (FeatureSet Polyline))
  : MockService :=
  {| _idCounter := _idCounter s; _page := _page s; _config := _config s;
     _lastObservations := _lastObservations s; _trackInfos := _trackInfos s;
     _polylines := v;
     _numCyclesSinceLastActiveUpdate := _numCyclesSinceLastActiveUpdate s;
     randomCalls := randomCalls s |}.

Definition with_numCycles (s : MockService) (v : Z) : MockService :=
  {| _idCounter := _idCounter s; _page := _page s; _config := _config s;
     _lastObservations := _lastObservations s; _trackInfos := _trackInfos s;
     _polylines := _polylines s;
     _numCyclesSinceLastActiveUpdate := v;
     randomCalls := randomCalls s |}.

Definition with_randomCalls (s : MockService) (v : nat) : MockService :=
  {| _idCounter := _idCounter s; _page := _page s; _config := _config s;
     _lastObservations := _lastObservations s; _trackInfos := _trackInfos s;
     _polylines := _polylines s;
     _numCyclesSinceLastActiveUpdate := _numCyclesSinceLastActiveUpdate s;
     randomCalls := v |}.

Definition NumCyclesBetweenActiveUpdate : Z := 400.

Definition MathPI : float := 3.141592653589793%float.

(** [MockService._defaults()]. *)
Definition _defaults : MockServiceConfig :=
  {| trackedAssets := 10000;
     pageSize := 10000;
     distStep := (0.01 * 2)%float |}.

(** [{...MockService._defaults(), ...config}]. *)
Definition mergeConfig (d : MockServiceConfig) (c : PartialConfig)
  : MockServiceConfig :=
  {| trackedAssets := match trackedAssets' c with Some v => v | None => trackedAssets d end;
     pageSize := match pageSize' c with Some v => v | None => pageSize d end;
     distStep := match distStep' c with Some v => v | None => distStep d end |}.

(** The constructor and the field initialisers. *)
Definition new (config : PartialConfig) : MockService :=
  {| _idCounter := 1;
     _page := 0;
     _config := mergeConfig _defaults config;
     _lastObservations := [];
     _trackInfos := [];
     _polylines := None;
     _numCyclesSinceLastActiveUpdate := 0;
     randomCalls := 0 |}.

(** ** The identifier generator *)

(** [_createId]: JavaScript's [%] truncates towards zero, as [Z.rem]. *)
Definition _createId (s : MockService) : Z * MockService :=
  let id := _idCounter s in
  (id, with_idCounter s (Z.rem (_idCounter s + 1) 4294967294)).

(** The service after [n] calls of [_createId]. *)
Definition createIds (n : N) (s : MockService) : MockService :=
  N.iter n (fun s => snd (_createId s)) s.

(** ** The pager's page counter *)

Definition _nextPage (s : MockService) : Z * MockService :=
  let trackedAssets := trackedAssets (_config s) in
  let pageSize := pageSize (_config s) in
  let page := _page s in
  (page,
   if trackedAssets <=? (page + 1) * pageSize
   then with_page s 0
   else with_page s (_page s + 1)).

(** ** Vertex counts *)

Definition _getNumberOfVertices (polyline : Polyline) : Z :=
  fold_left (fun sum path => sum + len path) (paths polyline) 0.

Definition _sumPolylineVertices (polylines : FeatureSet Polyline) : Z :=
  fold_left
    (fun sum feature =>
       fold_left (fun sum path => sum + len path)
                 (paths (geometry feature)) sum)
    (features polylines) 0.

(** ** Where the next track of a feature starts *)

Record TrackStart : Type := { pathIndex' : Z; vertexIndex' : Z }.

(** [_getNextTrackStart]; [None] is the source's [null]. *)
Definition _getNextTrackStart (polyline : Polyline)
    (vertexNumBetweenTracks currentPath currentVertex : Z)
  : Result (option TrackStart) :=
  path <- deref (get (paths polyline) currentPath) ;;
  if vertexNumBetweenTracks + currentVertex <? len path - 1 then
    Return (Some {| pathIndex' := currentPath;
                    vertexIndex' := vertexNumBetweenTracks + currentVertex |})
  else
    let currentPath := currentPath + 1 in
    if len (paths polyline) <=? currentPath then Return None
    else
      path' <- deref (get (paths polyline) currentPath) ;;
      if len path' <? 2 then Return None
      else Return (Some {| pathIndex' := currentPath; vertexIndex' := 0 |}).

(** ** Geometry of a segment *)

(** [Math.sqrt((x1 - x0) * (x1 - x0) + (y1 - y0) * (y1 - y0))]. *)
Definition segmentDist (vertex vertexNext : Vertex) : float :=
  let '(x0, y0) := vertex in
  let '(x1, y1) := vertexNext in
  PrimFloat.sqrt ((x1 - x0) * (x1 - x0) + (y1 - y0) * (y1 - y0))%float.

(** ** How many tracks a feature gets, and how far apart *)

(** [Math.max(Math.floor(numOfTrackedAssets * numberOfVertices / vertexSum), 1)].
    [vertexSum] counts the vertices of every feature, the one at hand
    among them, so [vertexSum = 0] forces [numberOfVertices = 0]: the
    quotient is then [0 / 0 = NaN], [Math.max(NaN, 1)] is [NaN], and the
    loop test [numTrack < NaN] fails at once.  [None] is that [NaN]. *)
Definition numOfTracksPerFeature
    (numOfTrackedAssets numberOfVertices vertexSum : Z) : option Z :=
  if vertexSum =? 0 then None
  else Some (Z.max (numOfTrackedAssets * numberOfVertices / vertexSum) 1).

(** [Math.floor(0.8 * numberOfVertices / numOfTracksPerFeature)], with
    the constant 0.8 read as the fraction 4/5.  The double nearest to 0.8
    lies above 4/5 by less than 2^-54 of it, which moves the quotient
    across an integer only for counts near 2^53. *)
Definition vertexNumBetweenTracks
    (numberOfVertices numOfTracksPerFeature : Z) : Z :=
  (4 * numberOfVertices) / (5 * numOfTracksPerFeature).

(** *** The same two quantities in double precision

    The two definitions above are what the proofs use.  The two below
    compute as the source does, on doubles; the properties section checks
    that they agree on a grid of small counts. *)

(** The double that holds the count [z], for [0 <= z < 2^63]. *)
Definition toDouble (z : Z) : float := PrimFloat.of_uint63 (Uint63.of_Z z).

(** [Math.floor] of a finite double.  [None] stands for [NaN] and the
    infinities, which [Math.floor] returns as they are. *)
Definition MathFloor (x : float) : option Z :=
  match Prim2SF x with
  | S754_zero _ => Some 0
  | S754_finite negative m e =>
    let whole := if 0 <=? e then Z.pos m * 2 ^ e else Z.pos m / 2 ^ (- e) in
    let exact := if 0 <=? e then true else Z.pos m mod 2 ^ (- e) =? 0 in
    Some (if negative
          then (if exact then - whole else - whole - 1)
          else whole)
  | S754_infinity _ | S754_nan => None
  end.

Definition numOfTracksPerFeatureDouble
    (numOfTrackedAssets numberOfVertices vertexSum : Z) : option Z :=
  match MathFloor (toDouble numOfTrackedAssets * toDouble numberOfVertices
                   / toDouble vertexSum)%float with
  | Some q => Some (Z.max q 1)
  | None => None
  end.

Definition vertexNumBetweenTracksDouble
    (numberOfVertices numOfTracksPerFeature : Z) : option Z :=
  MathFloor (0.8 * toDouble numberOfVertices
             / toDouble numOfTracksPerFeature)%float.

(** The integers [lo], [lo + 1], ..., [lo + n - 1]. *)
Definition range (lo : Z) (n : nat) : list Z :=
  map (fun i => lo + Z.of_nat i) (seq 0 n).

Definition sameCount (a b : option Z) : bool :=
  match a, b with
  | Some x, Some y => x =? y
  | None, None => true
  | _, _ => false
  end.

(** How often the body of [for (numTrack = 0; numTrack < n; numTrack++)]
    can run. *)
Definition loopCount (n : option Z) : nat :=
  match n with
  | Some k => Z.to_nat k
  | None => 0%nat
  end.

Section Service.

(** The host's [Math.atan2] and [Math.round], and the values that
    successive calls of [Math.random] return. *)
Variable atan2 : float -> float -> float.
Variable round : float -> float.
Variable random : nat -> float.

Definition getAzimuth (dx dy : float) : float :=
  (atan2 dy dx - MathPI / 2)%float.

Definition MathRandom (s : MockService) : float * MockService :=
  (random (randomCalls s), with_randomCalls s (S (randomCalls s))).

Definition getIsActive (s : MockService) : Z * MockService :=
  let '(r, s) := MathRandom s in
  (if (r <? 0.05)%float then 1 else 0, s).

(** ** The allocator *)

(** The body of the [for] loop of [_initialize], run at most [n] times.
    The result is the track index after the loop and the service. *)
Fixpoint placeTracks (n : nat) (polyline : Polyline)
    (featureIndex vertexNumBetweenTracks currentPath currentVertex : Z)
    (trackIndex : Z) (s : MockService) : Result (Z * MockService) :=
  match n with
  | O => Return (trackIndex, s)
  | S n' =>
    let config := _config s in
    path <- deref (get (paths polyline) currentPath) ;;
    vertex <- deref (get path currentVertex) ;;
    vertexNext <- deref (get path (currentVertex + 1)) ;;
    let '(x0, y0) := vertex in
    let '(x1, y1) := vertexNext in
    let dist := segmentDist vertex vertexNext in
    let speed := (dist * distStep config)%float in
    let s := with_trackInfos s
               (_trackInfos s ++
                [{| featureIndex := featureIndex;
                    pathIndex := currentPath;
                    vertexIndex := currentVertex;
                    distanceToNextVertex := dist;
                    accumulatedDistance := 0;
                    speed := speed |}]) in
    let '(id, s) := _createId s in
    let heading := getAzimuth (x1 - x0) (y1 - y0) in
    let '(r, s) := MathRandom s in
    let type := round (r * 5)%float in
    let '(active, s) := getIsActive s in
    let s := with_lastObservations s
               (_lastObservations s ++
                [{| attributes := {| OBJECTID := id;
                                     TRACKID := trackIndex;
                                     HEADING := heading;
                                     TYPE := type;
                                     ACTIVE := active |};
                    point := (x0, y0) |}]) in
    let trackIndex := trackIndex + 1 in
    nextStart <- _getNextTrackStart polyline vertexNumBetweenTracks
                                    currentPath currentVertex ;;
    match nextStart with
    | None => Return (trackIndex, s)
    | Some start =>
      placeTracks n' polyline featureIndex vertexNumBetweenTracks
                  (pathIndex' start) (vertexIndex' start) trackIndex s
    end
  end.

(** One turn of the [while] loop of [_initialize], for a feature that
    exists. *)
Definition placeFeature (vertexSum : Z) (feature : Feature Polyline)
    (featureIndex trackIndex : Z) (s : MockService)
  : Result (Z * MockService) :=
  let numOfTrackedAssets := trackedAssets (_config s) in
  let polyline := geometry feature in
  let numberOfVertices := _getNumberOfVertices polyline in
  let k := numOfTracksPerFeature numOfTrackedAssets numberOfVertices vertexSum in
  let between :=
    match k with
    | Some k => vertexNumBetweenTracks numberOfVertices k
    | None => 0      (* NaN; never read, the loop below does not run *)
    end in
  placeTracks (loopCount k) polyline featureIndex between 0 0 trackIndex s.

(** What [_initialize] prints when it runs out of features: the feature
    index and the number of tracks. *)
Definition LogLine : Type := (Z * Z)%type.

(** The [while] loop of [_initialize]; [rest] holds
    [polylines.features[featureIndex]] and the features after it, so an
    empty [rest] is the source's [!feature]. *)
Fixpoint initializeLoop (vertexSum : Z) (rest : list (Feature Polyline))
    (featureIndex trackIndex : Z) (s : MockService)
  : Result (MockService * option LogLine) :=
  if trackIndex <? trackedAssets (_config s) then
    match rest with
    | [] => Return (s, Some (featureIndex, trackIndex))
    | feature :: rest' =>
      '(trackIndex', s') <- placeFeature vertexSum feature featureIndex trackIndex s ;;
      initializeLoop vertexSum rest' (featureIndex + 1) trackIndex' s'
    end
  else Return (s, None).

Definition _initialize (polylines : FeatureSet Polyline) (s : MockService)
  : Result (MockService * option LogLine) :=
  let vertexSum := _sumPolylineVertices polylines in
  initializeLoop vertexSum (features polylines) 0 0 s.

Definition initialize (polylines : FeatureSet Polyline) (s : MockService)
  : Result (MockService * option LogLine) :=
  _initialize polylines (with_polylines s (Some polylines)).

(** ** The simulator *)

(** The body of the [for] loop of [_updatePositions] for the track
    [index = i / 6], whose six numbers are [info]. *)
Definition updateTrack (polylines : option (FeatureSet Polyline))
    (index : Z) (info : TrackInfo) (s : MockService)
  : Result (TrackInfo * MockService) :=
  let featureIndex := featureIndex info in
  let pathIndex := pathIndex info in
  let vertexIndex := vertexIndex info in
  let distanceToNextVertex := distanceToNextVertex info in
  let accumulatedDistance := accumulatedDistance info in
  let speed := speed info in
  polylines <- deref polylines ;;
  feature <- deref (get (features polylines) featureIndex) ;;
  let paths := paths (geometry feature) in
  path <- deref (get paths pathIndex) ;;
  vertex <- deref (get path vertexIndex) ;;
  vertexNext <- deref (get path (vertexIndex + 1)) ;;
  let '(x0, y0) := vertex in
  let '(x1, y1) := vertexNext in
  let nextDist := (accumulatedDistance + speed)%float in
  let distanceRatio := (nextDist / distanceToNextVertex)%float in
  let x := (x0 + (x1 - x0) * distanceRatio)%float in
  let y := (y0 + (y1 - y0) * distanceRatio)%float in
  observation <- deref (get (_lastObservations s) index) ;;
  let attributes := attributes observation in
  let '(id, s) := _createId s in
  let heading := getAzimuth (x1 - x0) (y1 - y0) in
  let '(active, s) :=
    if _numCyclesSinceLastActiveUpdate s =? NumCyclesBetweenActiveUpdate
    then getIsActive s
    else (ACTIVE attributes, s) in
  let s := with_lastObservations s
             (replace (_lastObservations s) (Z.to_nat index)
                {| attributes := {| OBJECTID := id;
                                    TRACKID := TRACKID attributes;
                                    HEADING := heading;
                                    TYPE := TYPE attributes;
                                    ACTIVE := active |};
                   point := (x, y) |}) in
  (* trackInfos[i + 4] = nextDist *)
  let info := {| featureIndex := featureIndex;
                 pathIndex := pathIndex;
                 vertexIndex := vertexIndex;
                 distanceToNextVertex := distanceToNextVertex;
                 accumulatedDistance := nextDist;
                 speed := speed |} in
  if (distanceToNextVertex <=? nextDist + speed)%float then
    let vertexIndex := vertexIndex + 1 in
    '(path, storedPath, vertexIndex) <-
      (if len path - 1 <=? vertexIndex then
         '(path, pathIndex) <-
           (if pathIndex <? len paths - 1 then
              (* path = paths[pathIndex++]: the element at the index as it
                 was, and then the index goes up *)
              path <- deref (get paths pathIndex) ;;
              Return (path, pathIndex + 1)
            else Return (path, 0)) ;;
         (* trackInfos[i + 1] = pathIndex; vertexIndex = 0 *)
         Return (path, pathIndex, 0)
       else Return (path, pathIndex, vertexIndex)) ;;
    vertex <- deref (get path vertexIndex) ;;
    vertexNext <- deref (get path (vertexIndex + 1)) ;;
    let dist := segmentDist vertex vertexNext in
    Return ({| featureIndex := featureIndex;
               pathIndex := storedPath;
               vertexIndex := vertexIndex;
               distanceToNextVertex := dist;
               accumulatedDistance := 0;
               speed := speed |}, s)
  else Return (info, s).

(** The [for] loop of [_updatePositions] over the tracks from [index] on. *)
Fixpoint updateLoop (polylines : option (FeatureSet Polyline))
    (infos : list TrackInfo) (index : Z) (s : MockService)
  : Result (list TrackInfo * MockService) :=
  match infos with
  | [] => Return ([], s)
  | info :: rest =>
    '(info', s') <- updateTrack polylines index info s ;;
    '(rest', s'') <- updateLoop polylines rest (index + 1) s' ;;
    Return (info' :: rest', s'')
  end.

Definition _updatePositions (polylines : option (FeatureSet Polyline))
    (s : MockService) : Result MockService :=
  let s := with_numCycles s (_numCyclesSinceLastActiveUpdate s + 1) in
  '(infos, s) <- updateLoop polylines (_trackInfos s) 0 s ;;
  let s := with_trackInfos s infos in
  Return (if NumCyclesBetweenActiveUpdate <=? _numCyclesSinceLastActiveUpdate s
          then with_numCycles s 0
          else s).

(** ** The pager *)

(** [for (let i = start; i < end; i++) outFeatures[i] = lastObservations[i]],
    with [n] turns left. *)
Fixpoint copyPage (n : nat) (i : Z) (lastObservations : list PointFeature)
    (outFeatures : list (option PointFeature)) : list (option PointFeature) :=
  match n with
  | O => outFeatures
  | S n' =>
    copyPage n' (i + 1) lastObservations
             (arraySet outFeatures i (get lastObservations i))
  end.

(** [next].  The result is the [features] array of the object handed to
    [JSON.stringify], which prints an empty slot and [undefined] alike as
    [null]: [None] here. *)
Definition next (s : MockService)
  : Result (list (option PointFeature) * MockService) :=
  let polylines := _polylines s in
  let pageSize := pageSize (_config s) in
  let trackedAssets := trackedAssets (_config s) in
  let '(page, s) := _nextPage s in
  let start := page * pageSize in
  let end_ := Z.min (start + pageSize) trackedAssets in
  outFeatures <- newArray (end_ - start) ;;
  s <- (if start =? 0 then _updatePositions polylines s else Return s) ;;
  Return (copyPage (Z.to_nat (end_ - start)) start (_lastObservations s)
                   outFeatures, s).

(** [n] calls of [next] in a row; the results come in the order of the
    calls. *)
Fixpoint nextN (n : nat) (s : MockService)
  : Result (list (list (option PointFeature)) * MockService) :=
  match n with
  | O => Return ([], s)
  | S n' =>
    '(out, s') <- next s ;;
    '(outs, s'') <- nextN n' s' ;;
    Return (out :: outs, s'')
  end.

(** [n] calls of [_updatePositions] in a row. *)
Fixpoint ticks (n : nat) (polylines : option (FeatureSet Polyline))
    (s : MockService) : Result MockService :=
  match n with
  | O => Return s
  | S n' => s' <- _updatePositions polylines s ;; ticks n' polylines s'
  end.

(** A fresh service is initialized with [polylines] and ticks [n] times. *)
Definition simulate (n : nat) (polylines : FeatureSet Polyline)
    (config : PartialConfig) : Result MockService :=
  '(s, _) <- initialize polylines (new config) ;;
  ticks n (Some polylines) s.

(** A fresh service is initialized with [polylines] and asked for [n]
    pages. *)
Definition serve (n : nat) (polylines : FeatureSet Polyline)
    (config : PartialConfig)
  : Result (list (list (option PointFeature)) * MockService) :=
  '(s, _) <- initialize polylines (new config) ;;
  nextN n s.

(** ** Inputs of the examples *)

(** A host for the examples.  No position, index or count depends on
    what the host returns. *)
Definition atan2_zero (dy dx : float) : float := 0%float.
Definition round_same (x : float) : float := x.
Definition random_half (n : nat) : float := 0.5%float.

Definition configOf (tracked page : Z) (step : float) : PartialConfig :=
  {| trackedAssets' := Some tracked;
     pageSize' := Some page;
     distStep' := Some step |}.

Definition defaultConfig : PartialConfig :=
  {| trackedAssets' := None; pageSize' := None; distStep' := None |}.

Definition featureOf (ps : list Path) : Feature Polyline :=
  {| geometry := {| paths := ps |} |}.

Definition featureSetOf (fs : list (list Path)) : FeatureSet Polyline :=
  {| features := map featureOf fs |}.

(** A path of two vertices, of three, and of eight. *)
Definition path2 : Path := [(0, 0); (1, 0)]%float.
Definition path3 : Path := [(0, 0); (1, 0); (2, 0)]%float.
Definition path8 : Path :=
  [(0, 0); (1, 0); (2, 0); (3, 0); (4, 0); (5, 0); (6, 0); (7, 0)]%float.

(** One feature, one path, the three vertices (0,0), (1,0), (1,1). *)
Definition cornerLine : FeatureSet Polyline :=
  featureSetOf [[[(0, 0); (1, 0); (1, 1)]%float]].

(** One feature, one path whose second segment is three times as long as
    its first. *)
Definition unevenLine : FeatureSet Polyline :=
  featureSetOf [[[(0, 0); (1, 0); (1, 3)]%float]].

(** One feature, one path: a segment of length 100 and then one of
    length 1. *)
Definition longThenShort : FeatureSet Polyline :=
  featureSetOf [[[(0, 0); (100, 0); (100, 1)]%float]].

(** One feature of two paths; the first segment of the first path has
    length 1, that of the second has length 3. *)
Definition twoPaths : FeatureSet Polyline :=
  featureSetOf [[[(0, 0); (1, 0)]%float; [(0, 0); (0, 3)]%float]].

(** One feature with a single segment. *)
Definition oneSegment : FeatureSet Polyline := featureSetOf [[path2]].

(** Two short features and a long one. *)
Definition shortShortLong : FeatureSet Polyline :=
  featureSetOf [[path2]; [path2]; [path8]].

(** A feature of five paths of three vertices, and five features of one
    segment each. *)
Definition fivePathsThenFive : FeatureSet Polyline :=
  featureSetOf [[path3; path3; path3; path3; path3];
                [path2]; [path2]; [path2]; [path2]; [path2]].

(** A feature whose only path has a single vertex. *)
Definition loneVertex : FeatureSet Polyline :=
  featureSetOf [[[(0, 0)]%float]].

(** What the examples look at: the service, when the call returned. *)
Definition service {A : Type} (r : Result (MockService * A))
  : option MockService :=
  match r with
  | Return (s, _) => Some s
  | Throw _ => None
  end.

Definition positions (s : MockService) : list (float * float) :=
  map point (_lastObservations s).

Definition trackIds (out : list (option PointFeature)) : list (option Z) :=
  map (fun o => match o with
                | Some f => Some (TRACKID (attributes f))
                | None => None
                end) out.

(** The tracks of [s] that sit on feature [i]. *)
Definition tracksOn (i : Z) (s : MockService) : Z :=
  len (filter (fun t => featureIndex t =? i) (_trackInfos s)).

(** The tracks of [s] that sit on the features before feature [i]. *)
Definition tracksBefore (i : Z) (s : MockService) : Z :=
  len (filter (fun t => featureIndex t <? i) (_trackInfos s)).

(** The number of requests in a cycle: the ceiling of
    [trackedAssets / pageSize]. *)
Definition pagesPerCycle (config : MockServiceConfig) : Z :=
  (trackedAssets config + pageSize config - 1) / pageSize config.

(** The first path of a polyline has two vertices or more. *)
Definition firstPathUsable (polyline : Polyline) : bool :=
  match paths polyline with
  | [] => false
  | path :: _ => 2 <=? len path
  end.

(** What holds of a service on which [initialize] was never called,
    whatever the number of pages it was asked for. *)
Definition neverInitialized (config : MockServiceConfig) (s : MockService)
  : Prop :=
  _config s = config /\
  _trackInfos s = [] /\
  _lastObservations s = [] /\
  0 <= _page s /\
  (_page s = 0 \/ _page s * pageSize config < trackedAssets config).

(** A start at which the two vertices of a segment can be read. *)
Definition readable (polyline : Polyline) (currentPath currentVertex : Z)
  : Prop :=
  exists path,
    get (paths polyline) currentPath = Some path /\
    0 <= currentVertex /\
    currentVertex + 1 < len path.

(** The record [info] points at a segment of the geometry: its feature
    and its path exist, and the vertex after [vertexIndex] is in the
    path. *)
Definition onSegment (polylines : FeatureSet Polyline) (info : TrackInfo)
  : Prop :=
  exists feature,
    get (features polylines) (featureIndex info) = Some feature /\
    readable (geometry feature) (pathIndex info) (vertexIndex info).

(** The record points at a segment and the length it stores is the length
    of that segment. *)
Definition lengthIsCurrent (polylines : FeatureSet Polyline) (info : TrackInfo)
  : Prop :=
  exists feature path v v',
    get (features polylines) (featureIndex info) = Some feature /\
    get (paths (geometry feature)) (pathIndex info) = Some path /\
    get path (vertexIndex info) = Some v /\
    get path (vertexIndex info + 1) = Some v' /\
    distanceToNextVertex info = segmentDist v v'.

(** Every path of every feature has two vertices or more. *)
Definition everyPathUsable (polylines : FeatureSet Polyline) : Prop :=
  Forall (fun feature =>
            Forall (fun path => 2 <= len path) (paths (geometry feature)))
         (features polylines).

(** Every feature has exactly one path. *)
Definition singlePaths (polylines : FeatureSet Polyline) : Prop :=
  Forall (fun feature => len (paths (geometry feature)) = 1)
         (features polylines).

(** The track of record [info] and observation [o] sits at the start of
    the segment the record points at: no distance accumulated, the stored
    length that of the segment, the position its first vertex. *)
Definition startsAt (polylines : FeatureSet Polyline) (info : TrackInfo)
    (o : PointFeature) : Prop :=
  exists feature path v v',
    get (features polylines) (featureIndex info) = Some feature /\
    get (paths (geometry feature)) (pathIndex info) = Some path /\
    get path (vertexIndex info) = Some v /\
    get path (vertexIndex info + 1) = Some v' /\
    distanceToNextVertex info = segmentDist v v' /\
    accumulatedDistance info = 0%float /\
    point o = v.

(** What holds of a service that was initialized with [polylines] and
    then asked for pages: every track points at a segment and has an
    observation, and the page is inside the cycle. *)
Definition serving (polylines : FeatureSet Polyline)
    (config : MockServiceConfig) (s : MockService) : Prop :=
  _config s = config /\
  _polylines s = Some polylines /\
  Forall (onSegment polylines) (_trackInfos s) /\
  (length (_trackInfos s) <= length (_lastObservations s))%nat /\
  0 <= _page s /\
  (_page s = 0 \/ _page s * pageSize config < trackedAssets config).

(** The point at [distanceRatio] of the way from [v] to [v']. *)
Definition pointBetween (v v' : Vertex) (distanceRatio : float)
  : float * float :=
  let '(x0, y0) := v in
  let '(x1, y1) := v' in
  ((x0 + (x1 - x0) * distanceRatio)%float,
   (y0 + (y1 - y0) * distanceRatio)%float).

(** * Properties *)

(** ** Results and arrays *)

Lemma bind_Return {A B : Type} (r : Result A) (k : A -> Result B) (b : B) :
  bind r k = Return b -> exists a, r = Return a /\ k a = Return b.
Proof.
  destruct r as [a | e]; simpl; intros H; [ eauto | discriminate ].
Qed.

Lemma deref_Return {A : Type} (o : option A) (a : A) :
  deref o = Return a -> o = Some a.
Proof.
  destruct o; simpl; intros H; [ injection H as -> | discriminate ]; reflexivity.
Qed.

Lemma get_Some {A : Type} (l : list A) (i : Z) (a : A) :
  get l i = Some a -> 0 <= i < len l.
Proof.
  unfold get, len. destruct (Z.ltb_spec i 0) as [Hi | Hi]; [ discriminate | ].
  intros H. assert (Hn : nth_error l (Z.to_nat i) <> None) by congruence.
  apply nth_error_Some in Hn. lia.
Qed.

Lemma get_inside {A : Type} (l : list A) (i : Z) :
  0 <= i < len l -> exists a, get l i = Some a.
Proof.
  unfold get, len. intros Hi.
  destruct (Z.ltb_spec i 0) as [Hneg | _]; [ lia | ].
  destruct (nth_error l (Z.to_nat i)) as [a | ] eqn:E; [ eauto | ].
  apply nth_error_None in E. lia.
Qed.

Lemma get_head {A : Type} (a : A) (l : list A) : get (a :: l) 0 = Some a.
Proof. reflexivity. Qed.

Lemma len_app {A : Type} (l l' : list A) : len (l ++ l') = len l + len l'.
Proof. unfold len. rewrite length_app. lia. Qed.

Lemma len_nonneg {A : Type} (l : list A) : 0 <= len l.
Proof. unfold len. lia. Qed.

(** ** Counts in double precision *)

(** For up to 48 tracked assets on a feature of up to 12 vertices in a
    geometry of up to 23, and for every feature of up to 160 vertices with
    a share of 1 to 40 tracks, the double computations of the source give
    the integers of [numOfTracksPerFeature] and [vertexNumBetweenTracks]. *)
Lemma doubles_agree_on_small_counts :
  forallb
    (fun T =>
       forallb
         (fun n =>
            forallb
              (fun others =>
                 sameCount (numOfTracksPerFeatureDouble T n (n + others))
                           (numOfTracksPerFeature T n (n + others)))
              (range 0 12))
         (range 0 13))
    (range 0 49) = true /\
  forallb
    (fun n =>
       forallb
         (fun k =>
            sameCount (vertexNumBetweenTracksDouble n k)
                      (Some (vertexNumBetweenTracks n k)))
         (range 1 40))
    (range 0 161) = true.
Proof.
  split; vm_compute; reflexivity.
Qed.

(** ** The identifier generator *)

Lemma createId_id (s : MockService) : fst (_createId s) = _idCounter s.
Proof. reflexivity. Qed.

Lemma createIds_succ (n : N) (s : MockService) :
  createIds (N.succ n) s = snd (_createId (createIds n s)).
Proof. unfold createIds. apply N.iter_succ. Qed.

(** The counter after [n] calls, in closed form. *)
Lemma createIds_counter (n : N) (s : MockService) :
  0 <= _idCounter s < 4294967294 ->
  _idCounter (createIds n s) = (_idCounter s + Z.of_N n) mod 4294967294.
Proof.
  intros Hs. induction n as [ | n IH] using N.peano_ind.
  - unfold createIds. simpl. rewrite Z.add_0_r, Z.mod_small; lia.
  - rewrite createIds_succ. unfold _createId. cbn [snd with_idCounter _idCounter].
    rewrite IH, Z.rem_mod_nonneg.
    + rewrite N2Z.inj_succ, Zplus_mod_idemp_l. f_equal. lia.
    + pose proof (Z.mod_pos_bound (_idCounter s + Z.of_N n) 4294967294). lia.
    + lia.
Qed.

(** The first 4294967293 identifiers are 1, 2, 3, ... *)
Lemma createId_counts_up (n : N) (config : PartialConfig) :
  (n < 4294967293)%N ->
  fst (_createId (createIds n (new config))) = Z.of_N n + 1.
Proof.
  intros Hn. rewrite createId_id, createIds_counter.
  - cbn [new _idCounter]. rewrite Z.mod_small; lia.
  - cbn [new _idCounter]. lia.
Qed.

(** C5 (the code departs from it).  The identifier generator is meant to
    hand out nonzero values only; the counter is reduced modulo
    [0xfffffffe], so on a fresh service the call that follows 4294967293
    others returns 0. *)
Theorem createId_emits_zero (config : PartialConfig) :
  fst (_createId (createIds 4294967293 (new config))) = 0.
Proof.
  rewrite createId_id, createIds_counter.
  - cbn [new _idCounter]. reflexivity.
  - cbn [new _idCounter]. lia.
Qed.

(** ** Floats that differ *)

Lemma float_neq (a b : float) :
  PrimFloat.eqb a a = true -> PrimFloat.eqb b a = false -> a <> b.
Proof.
  intros Ha Hb E. rewrite <- E in Hb. congruence.
Qed.

(** ** The worked examples, for any host *)

(** C8 (amended).  One feature with the path (0,0), (1,0), (1,1), one
    tracked asset, [distStep = 0.5].  The first tick moves the track to
    (0.5, 0) and is the tick that makes the transition to the segment from
    (1,0) to (1,1), with the accumulated distance back at 0: the test looks
    one step ahead.  The second tick moves the track to (1, 0.5), half way
    along that segment, and takes it back to the first segment of the
    path. *)
Theorem corner_line_two_ticks :
  let config := {| trackedAssets' := Some 1;
                   pageSize' := None;
                   distStep' := Some 0.5%float |} in
  (exists s1,
      simulate 1 cornerLine config = Return s1 /\
      positions s1 = [(0.5, 0)%float] /\
      _trackInfos s1 =
        [{| featureIndex := 0; pathIndex := 0; vertexIndex := 1;
            distanceToNextVertex := 1; accumulatedDistance := 0;
            speed := 0.5 |}]) /\
  (exists s2,
      simulate 2 cornerLine config = Return s2 /\
      positions s2 = [(1, 0.5)%float] /\
      _trackInfos s2 =
        [{| featureIndex := 0; pathIndex := 0; vertexIndex := 0;
            distanceToNextVertex := 1; accumulatedDistance := 0;
            speed := 0.5 |}]).
Proof.
  split; eexists; (split; [ vm_compute; reflexivity | ]);
    split; reflexivity.
Qed.

(** C1 (the code departs from it).  One track on the path (0,0), (100,0),
    (100,1), with [distStep = 0.25], the speed as a share of the segment.
    The allocator stores the speed 25, the length 100 of the first
    segment times [distStep].  The third tick takes the track to the
    second segment and stores its length, 1, but leaves the speed at 25,
    where the length of the segment times [distStep] is 0.25:
    [_updatePositions] reads [trackInfos[i + 5]] and never writes it.
    With that speed the fourth tick reports the track at (100, 25), 24
    units past (100, 1), where its path ends. *)
Theorem speed_is_stale_after_a_transition :
  let config := configOf 1 10000 0.25 in
  (exists feature,
      features longThenShort = [feature] /\
      paths (geometry feature) = [[(0, 0); (100, 0); (100, 1)]%float]) /\
  (exists s0,
      initialize longThenShort (new config) = Return (s0, None) /\
      distStep (_config s0) = 0.25%float /\
      _trackInfos s0 =
        [{| featureIndex := 0; pathIndex := 0; vertexIndex := 0;
            distanceToNextVertex := 100; accumulatedDistance := 0;
            speed := 25 |}]) /\
  (exists s3 t,
      simulate 3 longThenShort config = Return s3 /\
      _trackInfos s3 = [t] /\
      t = {| featureIndex := 0; pathIndex := 0; vertexIndex := 1;
             distanceToNextVertex := 1; accumulatedDistance := 0;
             speed := 25 |} /\
      (distanceToNextVertex t * distStep (_config s3))%float = 0.25%float /\
      speed t <> (distanceToNextVertex t * distStep (_config s3))%float) /\
  (exists s4,
      simulate 4 longThenShort config = Return s4 /\
      positions s4 = [(100, 25)%float]).
Proof.
  split; [ | split; [ | split ] ].
  - eexists. split; reflexivity.
  - eexists. split; [ vm_compute; reflexivity | ]. split; reflexivity.
  - do 2 eexists. split; [ vm_compute; reflexivity | ].
    split; [ reflexivity | ]. split; [ reflexivity | ].
    split; [ reflexivity | ]. apply float_neq; reflexivity.
  - eexists. split; [ vm_compute; reflexivity | reflexivity ].
Qed.

(** C2 (the code departs from it).  A feature of two paths whose first
    segments have lengths 1 and 3; one track, which starts on the only
    segment of path 0.  The first tick takes the track to vertex 0 of
    path 1 and resets the accumulated distance, but the segment length it
    stores is 1, that of the first segment of the path it has left:
    [path = paths[pathIndex++]] reads the element before the index goes
    up.  The second tick wraps to path 0 and stores 3, again the length
    on the path just left: that branch does not assign [path] at all. *)
Theorem path_change_keeps_old_path :
  let config := configOf 1 10000 0.5 in
  (exists s1,
      simulate 1 twoPaths config = Return s1 /\
      _trackInfos s1 =
        [{| featureIndex := 0; pathIndex := 1; vertexIndex := 0;
            distanceToNextVertex := 1; accumulatedDistance := 0;
            speed := 0.5 |}]) /\
  (exists s2,
      simulate 2 twoPaths config = Return s2 /\
      _trackInfos s2 =
        [{| featureIndex := 0; pathIndex := 0; vertexIndex := 0;
            distanceToNextVertex := 3; accumulatedDistance := 0;
            speed := 0.5 |}]) /\
  (exists feature path0 path1 a0 b0 a1 b1,
      features twoPaths = [feature] /\
      paths (geometry feature) = [path0; path1] /\
      path0 = [a0; b0] /\ segmentDist a0 b0 = 1%float /\
      path1 = [a1; b1] /\ segmentDist a1 b1 = 3%float).
Proof.
  split; [ | split ].
  - eexists. split; [ vm_compute; reflexivity | reflexivity ].
  - eexists. split; [ vm_compute; reflexivity | reflexivity ].
  - do 7 eexists. repeat split; reflexivity.
Qed.

(** C3 (the code departs from it).  Twenty-five tracks, pages of ten.
    The first request returns the observations of tracks 0 to 9.  The
    second returns twenty entries: ten empty slots and then tracks 10 to
    19; the third returns twenty-five: twenty empty slots and then tracks
    20 to 24.  The array is created with [end - start] slots and then
    written at the indices [start .. end - 1]. *)
Theorem later_pages_start_with_empty_slots :
  exists outs s,
    serve 3 oneSegment (configOf 25 10 0.5) = Return (outs, s) /\
    map trackIds outs =
      [ map Some [0; 1; 2; 3; 4; 5; 6; 7; 8; 9];
        repeat None 10 ++ map Some [10; 11; 12; 13; 14; 15; 16; 17; 18; 19];
        repeat None 20 ++ map Some [20; 21; 22; 23; 24] ].
Proof.
  do 2 eexists. split; [ vm_compute; reflexivity | reflexivity ].
Qed.

(** C4 (the code departs from it).  Three tracks are asked for on two
    features of one segment and a feature of eight vertices.  Each short
    feature gets one track; the count, 2, is still below 3, so the long
    feature is processed, and it gets its full share of two: the inner
    loop does not look at the count.  Four tracks are created. *)
Theorem allocation_overshoots :
  exists s log,
    initialize shortShortLong (new (configOf 3 10000 0.5)) = Return (s, log) /\
    trackedAssets (_config s) = 3 /\
    len (_trackInfos s) = 4 /\
    len (_lastObservations s) = 4 /\
    map featureIndex (_trackInfos s) = [0; 1; 2; 2].
Proof.
  do 2 eexists. split; [ vm_compute; reflexivity | ].
  repeat split; reflexivity.
Qed.


(** ** Taking a successful run apart *)

(** One step of reading [H : ... = Return _] from the outside in. *)
Ltac bind_step H :=
  match type of H with
  | bind ?r _ = Return _ =>
      let E := fresh "E" in
      destruct r eqn:E; [ cbn [bind] in H | discriminate H ]
  | (let '(_, _) := ?p in _) = Return _ => destruct p eqn:?
  | (if ?c then _ else _) = Return _ => destruct c eqn:?
  | match ?o with Some _ => _ | None => _ end = Return _ => destruct o eqn:?
  | Throw _ = Return _ => discriminate H
  end.

(** The service after the calls of [_createId], [Math.random] and
    [getIsActive] that a hypothesis names. *)
Ltac host_calls :=
  repeat match goal with
    | H : _createId _ = (_, _) |- _ =>
        unfold _createId in H; injection H as <- <-
    | H : MathRandom _ = (_, _) |- _ =>
        unfold MathRandom in H; injection H as <- <-
    | H : getIsActive _ = (_, _) |- _ =>
        unfold getIsActive, MathRandom in H; injection H as <- <-
    end.

(** ** The simulator leaves the speed alone *)

Lemma getIsActive_service (s s' : MockService) (active : Z) :
  getIsActive s = (active, s') ->
  s' = with_randomCalls s (S (randomCalls s)).
Proof.
  unfold getIsActive, MathRandom. intros H.
  injection H as _ <-. reflexivity.
Qed.

(** What one track's update leaves as it was. *)
Lemma updateTrack_frame polylines index info s info' s' :
  updateTrack polylines index info s = Return (info', s') ->
  speed info' = speed info /\
  featureIndex info' = featureIndex info /\
  _config s' = _config s /\
  _page s' = _page s /\
  _polylines s' = _polylines s /\
  _trackInfos s' = _trackInfos s /\
  _numCyclesSinceLastActiveUpdate s' = _numCyclesSinceLastActiveUpdate s.
Proof.
  unfold updateTrack. intros H.
  repeat bind_step H.
  all: injection H as <- <-.
  all: unfold _createId in *.
  all: match goal with
       | Hid : (_, _) = (_, ?m) |- _ => injection Hid as _ <-
       end.
  all: match goal with
       | Hact : (if ?c then _ else _) = (_, _) |- _ =>
           destruct c;
           [ apply getIsActive_service in Hact; subst
           | injection Hact as _ <- ]
       end.
  all: repeat split; reflexivity.
Qed.

Lemma updateLoop_frame polylines infos :
  forall index s infos' s',
    updateLoop polylines infos index s = Return (infos', s') ->
    map speed infos' = map speed infos /\
    map featureIndex infos' = map featureIndex infos /\
    _config s' = _config s /\
    _page s' = _page s /\
    _polylines s' = _polylines s /\
    _numCyclesSinceLastActiveUpdate s' = _numCyclesSinceLastActiveUpdate s.
Proof.
  induction infos as [ | info rest IH]; intros index s infos' s' H.
  - injection H as <- <-. repeat split; reflexivity.
  - cbn [updateLoop] in H.
    apply bind_Return in H as [[info1 s1] [H1 H]].
    apply bind_Return in H as [[rest1 s2] [H2 H]].
    injection H as <- <-.
    apply updateTrack_frame in H1 as (Hs & Hf & Hc & Hp & Hl & _ & Hn).
    apply IH in H2 as (IHs & IHf & IHc & IHp & IHl & IHn).
    cbn [map]. repeat split; congruence.
Qed.

(** A tick changes neither the speed nor the feature of any track, nor
    the configuration, the page or the geometry. *)
Lemma updatePositions_frame polylines s s' :
  _updatePositions polylines s = Return s' ->
  map speed (_trackInfos s') = map speed (_trackInfos s) /\
  map featureIndex (_trackInfos s') = map featureIndex (_trackInfos s) /\
  _config s' = _config s /\
  _page s' = _page s /\
  _polylines s' = _polylines s.
Proof.
  unfold _updatePositions. intros H.
  apply bind_Return in H as [[infos s1] [H1 H]].
  apply updateLoop_frame in H1 as (Hs & Hf & Hc & Hp & Hl & _).
  injection H as <-.
  destruct (NumCyclesBetweenActiveUpdate <=? _);
    cbn in *; repeat split; assumption.
Qed.

Lemma ticks_frame polylines n :
  forall s s',
    ticks n polylines s = Return s' ->
    map speed (_trackInfos s') = map speed (_trackInfos s) /\
    map featureIndex (_trackInfos s') = map featureIndex (_trackInfos s) /\
    _config s' = _config s /\
    _page s' = _page s /\
    _polylines s' = _polylines s.
Proof.
  induction n as [ | n IH]; intros s s' H.
  - injection H as <-. repeat split; reflexivity.
  - cbn [ticks] in H.
    apply bind_Return in H as [s1 [H1 H]].
    apply updatePositions_frame in H1 as (Hs & Hf & Hc & Hp & Hl).
    apply IH in H as (IHs & IHf & IHc & IHp & IHl).
    repeat split; congruence.
Qed.

(** ** A tick at the end of a path *)

(** A track on [path] whose transition test fires with the next vertex
    being the last of the path: the record goes to vertex 0 of the next
    path of the feature, or of path 0 when there is none, with no
    accumulated distance; the length it stores is that of the first
    segment of [path] itself, the path the track was on. *)
Lemma updateTrack_at_path_end polylines index info s info' s' feature path :
  updateTrack (Some polylines) index info s = Return (info', s') ->
  get (features polylines) (featureIndex info) = Some feature ->
  get (paths (geometry feature)) (pathIndex info) = Some path ->
  (distanceToNextVertex info
   <=? accumulatedDistance info + speed info + speed info)%float = true ->
  len path - 1 <= vertexIndex info + 1 ->
  pathIndex info'
  = (if pathIndex info <? len (paths (geometry feature)) - 1
     then pathIndex info + 1 else 0) /\
  vertexIndex info' = 0 /\
  accumulatedDistance info' = 0%float /\
  exists a b,
    get path 0 = Some a /\ get path 1 = Some b /\
    distanceToNextVertex info' = segmentDist a b.
Proof.
  intros H Hf Hp Hfire Hend. unfold updateTrack in H.
  cbn [deref bind] in H. rewrite Hf in H. cbn [deref bind] in H.
  rewrite Hp in H. cbn [deref bind] in H.
  repeat bind_step H.
  all: try congruence.
  all: injection H as <- <-;
    cbn [pathIndex vertexIndex accumulatedDistance distanceToNextVertex].
  match goal with
  | E : (if _ <=? _ then _ else _) = Return _ |- _ =>
      destruct (Z.leb_spec (len path - 1) (vertexIndex info + 1)) as [_ | Hlt];
      [ | lia ];
      destruct (pathIndex info <? len (paths (geometry feature)) - 1);
      cbn [bind] in E; injection E as <- <- <-
  end.
  all: repeat match goal with
         | E : deref _ = Return _ |- _ => apply deref_Return in E
         end.
  all: split; [ reflexivity | ]; split; [ reflexivity | ];
    split; [ reflexivity | ].
  all: match goal with
       | Ea : get _ 0 = Some ?a, Eb : get _ (0 + 1) = Some ?b |- _ =>
           exists a, b; repeat split; assumption
       end.
Qed.

(** ** What the allocator appends *)

(** A run of the placement loop appends one track record and one
    observation per turn, in step; the records are on the feature at hand,
    start with no accumulated distance and carry the speed of the segment
    they start on; the loop stops short of [n] turns only when
    [_getNextTrackStart] answers [null] for the last record placed. *)
Lemma placeTracks_spec n polyline fi between :
  forall cp cv ti s ti' s',
    placeTracks n polyline fi between cp cv ti s = Return (ti', s') ->
    exists infos obs,
      _trackInfos s' = _trackInfos s ++ infos /\
      _lastObservations s' = _lastObservations s ++ obs /\
      len infos = ti' - ti /\
      len obs = ti' - ti /\
      Forall (fun t =>
                featureIndex t = fi /\
                accumulatedDistance t = 0%float /\
                speed t = (distanceToNextVertex t * distStep (_config s))%float)
             infos /\
      _config s' = _config s /\
      _page s' = _page s /\
      _polylines s' = _polylines s /\
      ti' - ti <= Z.of_nat n /\
      (n <> 0%nat -> 1 <= ti' - ti) /\
      (ti' - ti < Z.of_nat n ->
       exists front t,
         infos = front ++ [t] /\
         _getNextTrackStart polyline between (pathIndex t) (vertexIndex t)
         = Return None).
Proof.
  induction n as [ | n IH]; intros cp cv ti s ti' s' H.
  - injection H as <- <-. exists [], [].
    rewrite !app_nil_r. cbn. repeat split; try lia. constructor.
  - cbn [placeTracks] in H.
    repeat bind_step H; host_calls.
    + apply IH in H
        as (infos & obs & Hi & Ho & Hli & Hlo & Hall & Hc & Hp & Hg & Hle & _ & Hex).
      cbn in Hi, Ho, Hall, Hc, Hp, Hg.
      rewrite <- app_assoc in Hi, Ho.
      eexists (_ :: infos), (_ :: obs).
      split; [ exact Hi | ]. split; [ exact Ho | ].
      unfold len in *. cbn [length].
      repeat split; try lia; try assumption.
      * constructor; [ cbn; repeat split; reflexivity | exact Hall ].
      * intros Hlt. destruct Hex as (front & t' & -> & Hnone); [ lia | ].
        eexists (_ :: front), t'. split; [ reflexivity | exact Hnone ].
    + injection H as <- <-.
      eexists [_], [_]. cbn. unfold len. cbn [length].
      repeat split; try lia.
      * constructor; [ cbn; repeat split; reflexivity | constructor ].
      * intros _. eexists [], _. split; [ reflexivity | cbn; assumption ].
Qed.

(** The allocator keeps the invariant that every record carries the speed
    of the segment it was placed on. *)
Lemma initializeLoop_speed vertexSum rest :
  forall fi ti s s' log,
    initializeLoop vertexSum rest fi ti s = Return (s', log) ->
    Forall (fun t => speed t = (distanceToNextVertex t * distStep (_config s))%float)
           (_trackInfos s) ->
    _config s' = _config s /\
    Forall (fun t => speed t = (distanceToNextVertex t * distStep (_config s))%float)
           (_trackInfos s').
Proof.
  induction rest as [ | feature rest IH]; intros fi ti s s' log H Hs;
    cbn [initializeLoop] in H;
    destruct (ti <? trackedAssets (_config s)).
  - injection H as <- <-. split; [ reflexivity | assumption ].
  - injection H as <- <-. split; [ reflexivity | assumption ].
  - apply bind_Return in H as [[ti1 s1] [H1 H]].
    apply placeTracks_spec in H1
      as (infos & _ & Hi & _ & _ & _ & Hall & Hc & _).
    apply IH in H as [Hc' Hall'].
    + rewrite Hc in *. split; [ assumption | assumption ].
    + rewrite Hc, Hi. apply Forall_app. split; [ assumption | ].
      eapply Forall_impl; [ | exact Hall ]. cbn. intros t (_ & _ & Ht). exact Ht.
  - injection H as <- <-. split; [ reflexivity | assumption ].
Qed.

(** The allocator keeps the track records and the observations in step,
    and leaves the page and the geometry as they are. *)
Lemma initializeLoop_frame vertexSum rest :
  forall fi ti s s' log,
    initializeLoop vertexSum rest fi ti s = Return (s', log) ->
    _config s' = _config s /\
    _page s' = _page s /\
    _polylines s' = _polylines s /\
    len (_trackInfos s') - len (_trackInfos s)
    = len (_lastObservations s') - len (_lastObservations s).
Proof.
  induction rest as [ | feature rest IH]; intros fi ti s s' log H;
    cbn [initializeLoop] in H;
    destruct (ti <? trackedAssets (_config s));
    try (injection H as <- <-; repeat split; lia).
  apply bind_Return in H as [[ti1 s1] [H1 H]].
  apply placeTracks_spec in H1
    as (infos & obs & Hi & Ho & Hli & Hlo & _ & Hc & Hp & Hg & _).
  apply IH in H as (Hc' & Hp' & Hg' & Hstep).
  rewrite Hi, Ho, !len_app in Hstep.
  repeat split; try congruence. lia.
Qed.

(** A service that has just been initialized is at the start of a cycle,
    and has as many observations as track records. *)
Lemma initialize_fresh polylines config s log :
  initialize polylines (new config) = Return (s, log) ->
  _config s = mergeConfig _defaults config /\
  _page s = 0 /\
  _polylines s = Some polylines /\
  len (_trackInfos s) = len (_lastObservations s).
Proof.
  unfold initialize, _initialize. intros H.
  apply initializeLoop_frame in H as (Hc & Hp & Hg & Hstep).
  cbn in Hc, Hp, Hg, Hstep. repeat split; try assumption. lia.
Qed.

(** The allocator stops with [trackedAssets] tracks or more, or else for
    want of features, with fewer; in that case it prints the count. *)
Lemma initializeLoop_count vertexSum rest :
  forall fi ti s s' log,
    initializeLoop vertexSum rest fi ti s = Return (s', log) ->
    exists ti',
      len (_trackInfos s') = len (_trackInfos s) + (ti' - ti) /\
      match log with
      | None => trackedAssets (_config s) <= ti'
      | Some (_, printed) => printed = ti' /\ ti' < trackedAssets (_config s)
      end.
Proof.
  induction rest as [ | feature rest IH]; intros fi ti s s' log H;
    cbn [initializeLoop] in H;
    destruct (Z.ltb_spec ti (trackedAssets (_config s))) as [Hlt | Hge];
    try (injection H as <- <-; exists ti; split; [ lia | ];
         first [ split; [ reflexivity | assumption ] | assumption ]).
  apply bind_Return in H as [[ti1 s1] [H1 H]].
  apply placeTracks_spec in H1
    as (infos & _ & Hi & _ & Hli & _ & _ & Hc & _).
  apply IH in H as (ti' & Hlen & Hlog).
  exists ti'. rewrite Hc in Hlog. split; [ | exact Hlog ].
  rewrite Hlen, Hi, len_app. lia.
Qed.

Lemma initialize_count polylines config s log :
  initialize polylines (new config) = Return (s, log) ->
  match log with
  | None => trackedAssets (_config s) <= len (_trackInfos s)
  | Some (_, printed) =>
    printed = len (_trackInfos s) /\
    len (_trackInfos s) < trackedAssets (_config s)
  end.
Proof.
  intros H. pose proof (initialize_fresh _ _ _ _ H) as (Hc & _).
  unfold initialize, _initialize in H.
  apply initializeLoop_count in H as (ti' & Hlen & Hlog).
  cbn in Hlen, Hlog. change (len (@nil TrackInfo)) with 0 in Hlen.
  replace ti' with (len (_trackInfos s)) in Hlog by lia.
  rewrite Hc. exact Hlog.
Qed.

(** X23 (the speed is written once).  After [initialize] on a fresh
    service the speed in every track record is the segment length in that
    record times [distStep]; and no number of ticks changes the speed of
    any track, whether or not a tick moves the track to another
    segment. *)
Theorem speed_is_fixed_at_allocation :
  (forall polylines config s log,
      initialize polylines (new config) = Return (s, log) ->
      Forall (fun t => speed t
                       = (distanceToNextVertex t * distStep (_config s))%float)
             (_trackInfos s)) /\
  (forall polylines n s s',
      ticks n polylines s = Return s' ->
      map speed (_trackInfos s') = map speed (_trackInfos s)).
Proof.
  split.
  - intros polylines config s log H.
    unfold initialize, _initialize in H.
    apply initializeLoop_speed in H as [Hc Hall].
    + rewrite Hc. exact Hall.
    + constructor.
  - intros polylines n s s' H.
    apply ticks_frame in H as [Hs _]. exact Hs.
Qed.

(** ** The pager *)

Lemma nextPage_spec (s : MockService) :
  _nextPage s =
  (_page s,
   with_page s (if trackedAssets (_config s) <=? (_page s + 1) * pageSize (_config s)
                then 0 else _page s + 1)).
Proof.
  unfold _nextPage. destruct (_ <=? _); reflexivity.
Qed.

Lemma with_page_same (s : MockService) : with_page s (_page s) = s.
Proof. destruct s; reflexivity. Qed.

(** The last page of a cycle is page [c - 1]. *)
Lemma cycle_bounds (config : MockServiceConfig) :
  0 < trackedAssets config ->
  0 < pageSize config ->
  1 <= pagesPerCycle config /\
  (pagesPerCycle config - 1) * pageSize config < trackedAssets config /\
  trackedAssets config <= pagesPerCycle config * pageSize config.
Proof.
  unfold pagesPerCycle. intros HT Hp.
  set (a := trackedAssets config + pageSize config - 1).
  pose proof (Z.mul_div_le a (pageSize config) Hp) as Hle.
  pose proof (Z.mul_succ_div_gt a (pageSize config) Hp) as Hgt.
  assert (1 <= a / pageSize config)
    by (apply Z.div_le_lower_bound; unfold a; lia).
  unfold a in *. nia.
Qed.

(** A request for a page other than the first: no tick, only the page
    moves on. *)
Lemma next_inside_cycle (s : MockService) :
  0 < pageSize (_config s) ->
  1 <= _page s ->
  _page s * pageSize (_config s) < trackedAssets (_config s) ->
  Z.min (pageSize (_config s)) (trackedAssets (_config s)) <= 4294967295 ->
  exists out,
    next s =
    Return (out,
            with_page s
              (if trackedAssets (_config s) <=? (_page s + 1) * pageSize (_config s)
               then 0 else _page s + 1)).
Proof.
  intros Hp Hpage Hin Hmin. unfold next. rewrite nextPage_spec.
  cbn [with_page _config _polylines _lastObservations].
  set (start := _page s * pageSize (_config s)).
  set (end_ := Z.min (start + pageSize (_config s)) (trackedAssets (_config s))).
  assert (Hsize : 0 <= end_ - start <= 4294967295) by (unfold end_, start; lia).
  unfold newArray.
  destruct (Z.ltb_spec (end_ - start) 0) as [ | _]; [ lia | ].
  destruct (Z.ltb_spec 4294967295 (end_ - start)) as [ | _]; [ lia | ].
  cbn [orb bind].
  destruct (Z.eqb_spec start 0) as [H0 | _]; [ unfold start in H0; nia | ].
  cbn [bind]. eexists. reflexivity.
Qed.

(** The requests that follow within the cycle. *)
Lemma nextN_inside_cycle (j : nat) :
  forall s,
    0 < trackedAssets (_config s) ->
    0 < pageSize (_config s) ->
    Z.min (pageSize (_config s)) (trackedAssets (_config s)) <= 4294967295 ->
    1 <= _page s < pagesPerCycle (_config s) ->
    _page s + Z.of_nat j <= pagesPerCycle (_config s) ->
    exists outs,
      nextN j s =
      Return (outs,
              with_page s ((_page s + Z.of_nat j) mod pagesPerCycle (_config s))).
Proof.
  induction j as [ | j IH]; intros s HT Hp Hmin Hpage Hj.
  - exists []. cbn [nextN]. rewrite Z.add_0_r, Z.mod_small by lia.
    rewrite with_page_same. reflexivity.
  - destruct (cycle_bounds (_config s) HT Hp) as (Hc1 & Hlast & Hall).
    destruct (next_inside_cycle s) as [out Hnext]; try assumption; try lia.
    { nia. }
    cbn [nextN]. rewrite Hnext. cbn [bind].
    destruct (Z.leb_spec (trackedAssets (_config s))
                         ((_page s + 1) * pageSize (_config s))) as [Hend | Hmore].
    + (* that was the last page of the cycle *)
      assert (Hc : _page s + 1 = pagesPerCycle (_config s)) by nia.
      assert (j = 0%nat) by lia. subst j.
      exists [out]. cbn [nextN bind].
      replace (_page s + Z.of_nat 1) with (pagesPerCycle (_config s)) by lia.
      rewrite Z_mod_same_full. reflexivity.
    + assert (Hc : _page s + 1 < pagesPerCycle (_config s)) by nia.
      destruct (IH (with_page s (_page s + 1))) as [outs Houts];
        cbn [with_page _config _page]; try assumption; try lia.
      rewrite Houts. cbn [bind with_page _config _page].
      exists (out :: outs).
      replace (_page s + Z.of_nat (S j)) with (_page s + 1 + Z.of_nat j) by lia.
      reflexivity.
Qed.

(** C6.  Take a service at the start of a cycle, with [trackedAssets] and
    [pageSize] positive, whose request for the first page returns.  That
    request runs the simulator, once: its outcome is the outcome of
    [_updatePositions] on the service with the page moved on.  Write [c]
    for the number of pages in a cycle, the ceiling of
    [trackedAssets / pageSize].  Each of the [c - 1] requests that follow
    returns and changes nothing but the page: no other request of the cycle
    runs the simulator.  After them the page is 0 again. *)
Theorem one_tick_per_cycle (s s1 : MockService) (out : list (option PointFeature)) :
  0 < trackedAssets (_config s) ->
  0 < pageSize (_config s) ->
  _page s = 0 ->
  next s = Return (out, s1) ->
  let c := pagesPerCycle (_config s) in
  _updatePositions (_polylines s) (with_page s (1 mod c)) = Return s1 /\
  forall j : nat,
    Z.of_nat j < c ->
    exists outs,
      nextN j s1 = Return (outs, with_page s1 ((1 + Z.of_nat j) mod c)).
Proof.
  intros HT Hp Hpage Hnext c.
  destruct (cycle_bounds (_config s) HT Hp) as (Hc1 & Hlast & Hall).
  fold c in Hc1, Hlast, Hall.
  unfold next in Hnext. rewrite nextPage_spec, Hpage in Hnext.
  cbn [with_page _config _polylines] in Hnext.
  rewrite Z.mul_0_l, Z.add_0_l, Z.sub_0_r, Z.mul_1_l in Hnext.
  apply bind_Return in Hnext as [array [Harray Hnext]].
  apply bind_Return in Hnext as [s' [Htick Hnext]].
  injection Hnext as _ <-.
  cbn [Z.eqb] in Htick.
  assert (Hmin : Z.min (pageSize (_config s)) (trackedAssets (_config s))
                 <= 4294967295).
  { unfold newArray in Harray.
    destruct (Z.ltb_spec 4294967295
                (Z.min (pageSize (_config s)) (trackedAssets (_config s))));
      [ rewrite orb_true_r in Harray; discriminate | lia ]. }
  assert (Hfirst : (if trackedAssets (_config s) <=? pageSize (_config s)
                    then 0 else 0 + 1) = 1 mod c).
  { destruct (Z.leb_spec (trackedAssets (_config s)) (pageSize (_config s))).
    - assert (c = 1) by nia. subst c. replace (pagesPerCycle (_config s)) with 1.
      reflexivity.
    - assert (1 < c) by nia. rewrite Z.mod_small; lia. }
  rewrite Hfirst in Htick. split; [ exact Htick | ].
  apply updatePositions_frame in Htick as (_ & _ & Hconfig & Hpage' & _).
  cbn [with_page _config _page] in Hconfig, Hpage'.
  intros j Hj.
  destruct (Z.eq_dec c 1) as [Hone | Hmany].
  - assert (j = 0%nat) by lia. subst j. exists [].
    cbn [nextN]. rewrite Hone in *. cbn in Hpage' |- *.
    rewrite <- Hpage', with_page_same. reflexivity.
  - rewrite Z.mod_small in Hpage' by lia.
    destruct (nextN_inside_cycle j s') as [outs Houts];
      rewrite ?Hconfig, ?Hpage'; try assumption; try (fold c; lia).
    exists outs. rewrite Houts, Hconfig, Hpage'. reflexivity.
Qed.

(** ** Paging a service that was never initialized *)

Lemma get_nil {A : Type} (i : Z) : get (@nil A) i = None.
Proof.
  unfold get. destruct (i <? 0); [ reflexivity | ].
  destruct (Z.to_nat i); reflexivity.
Qed.

Lemma replace_Forall {A : Type} (P : A -> Prop) (v : A) (l : list A) :
  forall n, Forall P l -> P v -> Forall P (replace l n v).
Proof.
  induction l as [ | a l IH]; intros n Hl Hv; [ constructor | ].
  inversion Hl; subst. destruct n; cbn; constructor; auto.
Qed.

Lemma repeat_Forall {A : Type} (P : A -> Prop) (v : A) (n : nat) :
  P v -> Forall P (repeat v n).
Proof.
  intros Hv. induction n; cbn; constructor; assumption.
Qed.

Lemma arraySet_empty {A : Type} (l : list (option A)) (i : Z) :
  Forall (eq None) l -> Forall (eq None) (arraySet l i None).
Proof.
  intros Hl. unfold arraySet.
  destruct (i <? 0); [ assumption | ].
  destruct (4294967294 <? i); [ assumption | ].
  destruct (i <? len l).
  - apply replace_Forall; [ assumption | reflexivity ].
  - apply Forall_app. split; [ assumption | ].
    apply Forall_app. split; [ apply repeat_Forall; reflexivity | ].
    constructor; [ reflexivity | constructor ].
Qed.

(** With no observation to copy, a page holds empty slots only. *)
Lemma copyPage_empty (n : nat) :
  forall i out,
    Forall (eq None) out ->
    Forall (eq None) (copyPage n i [] out).
Proof.
  induction n as [ | n IH]; intros i out Hout; cbn [copyPage];
    [ assumption | ].
  apply IH. rewrite get_nil. apply arraySet_empty. assumption.
Qed.

Lemma next_neverInitialized (config : MockServiceConfig) (s : MockService) :
  0 <= trackedAssets config ->
  0 <= pageSize config ->
  Z.min (pageSize config) (trackedAssets config) <= 4294967295 ->
  neverInitialized config s ->
  exists out s',
    next s = Return (out, s') /\
    Forall (eq None) out /\
    neverInitialized config s'.
Proof.
  intros HT Hp Hmin (Hc & Hinfos & Hobs & Hpage & Hin).
  unfold next. rewrite nextPage_spec, Hc.
  cbn [with_page _config _polylines].
  set (start := _page s * pageSize config).
  set (end_ := Z.min (start + pageSize config) (trackedAssets config)).
  set (page' := if trackedAssets config <=? (_page s + 1) * pageSize config
                then 0 else _page s + 1).
  assert (Hstart : 0 <= start) by (unfold start; nia).
  assert (Hsize : 0 <= end_ - start <= 4294967295)
    by (unfold end_; fold start in Hin; lia).
  assert (Hpage' : 0 <= page' /\
                   (page' = 0 \/ page' * pageSize config < trackedAssets config)).
  { unfold page'. destruct (Z.leb_spec (trackedAssets config)
                                       ((_page s + 1) * pageSize config)); lia. }
  unfold newArray.
  destruct (Z.ltb_spec (end_ - start) 0) as [ | _]; [ lia | ].
  destruct (Z.ltb_spec 4294967295 (end_ - start)) as [ | _]; [ lia | ].
  cbn [orb bind].
  destruct (start =? 0).
  - unfold _updatePositions.
    cbn [with_numCycles with_page _trackInfos _numCyclesSinceLastActiveUpdate].
    rewrite Hinfos. cbn [updateLoop bind].
    destruct (NumCyclesBetweenActiveUpdate <=? _);
      cbn [with_numCycles with_trackInfos with_page _lastObservations];
      rewrite Hobs; do 2 eexists;
      (split; [ reflexivity | ]);
      (split; [ apply copyPage_empty, repeat_Forall; reflexivity | ]);
      unfold neverInitialized; cbn; repeat split; try assumption; apply Hpage'.
  - cbn [bind with_page _lastObservations]. rewrite Hobs.
    do 2 eexists. split; [ reflexivity | ].
    split; [ apply copyPage_empty, repeat_Forall; reflexivity | ].
    unfold neverInitialized; cbn; repeat split; try assumption; apply Hpage'.
Qed.

Lemma nextN_neverInitialized (config : MockServiceConfig) (n : nat) :
  0 <= trackedAssets config ->
  0 <= pageSize config ->
  Z.min (pageSize config) (trackedAssets config) <= 4294967295 ->
  forall s,
    neverInitialized config s ->
    exists outs s',
      nextN n s = Return (outs, s') /\
      length outs = n /\
      Forall (Forall (eq None)) outs.
Proof.
  intros HT Hp Hmin. induction n as [ | n IH]; intros s Hs.
  - exists [], s. repeat split. constructor.
  - destruct (next_neverInitialized config s HT Hp Hmin Hs)
      as (out & s1 & Hnext & Hout & Hs1).
    destruct (IH s1 Hs1) as (outs & s2 & Hrest & Hlen & Houts).
    exists (out :: outs), s2. cbn [nextN]. rewrite Hnext. cbn [bind].
    rewrite Hrest. cbn [bind length].
    repeat split; [ congruence | constructor; assumption ].
Qed.

(** C9 (amended).  Paging before [initialize] is not rejected.  Whenever
    [trackedAssets] and [pageSize] are not negative and the smaller of the
    two is a valid array length (at most 2^32 - 1), every call of [next]
    on a service that was never initialized returns, however many such
    calls are made, and every entry of every page returned is an empty
    slot ([null] once serialized). *)
Theorem next_before_initialize_returns (config : PartialConfig) (n : nat) :
  0 <= trackedAssets (mergeConfig _defaults config) ->
  0 <= pageSize (mergeConfig _defaults config) ->
  Z.min (pageSize (mergeConfig _defaults config))
        (trackedAssets (mergeConfig _defaults config)) <= 4294967295 ->
  exists outs s,
    nextN n (new config) = Return (outs, s) /\
    length outs = n /\
    Forall (Forall (eq None)) outs.
Proof.
  intros HT Hp Hmin.
  apply (nextN_neverInitialized (mergeConfig _defaults config)); try assumption.
  unfold neverInitialized, new. cbn. repeat split; lia.
Qed.

(** ** Reads of the allocator *)

Lemma fold_lengths_nonneg (ps : list Path) :
  forall sum, 0 <= sum -> 0 <= fold_left (fun sum path => sum + len path) ps sum.
Proof.
  induction ps as [ | p ps IH]; intros sum Hsum; cbn [fold_left];
    [ assumption | ].
  apply IH. pose proof (len_nonneg p). lia.
Qed.

Lemma getNumberOfVertices_nonneg (polyline : Polyline) :
  0 <= _getNumberOfVertices polyline.
Proof. apply fold_lengths_nonneg. lia. Qed.

Lemma vertexNumBetweenTracks_nonneg (n k : Z) :
  0 <= n -> 1 <= k -> 0 <= vertexNumBetweenTracks n k.
Proof.
  intros Hn Hk. unfold vertexNumBetweenTracks.
  apply Z.div_pos; lia.
Qed.

(** From a readable start, [_getNextTrackStart] returns, and what it
    returns is [null] or a readable start; a start on another path is the
    first vertex of a path of two vertices or more. *)
Lemma getNextTrackStart_readable polyline between cp cv :
  0 <= between ->
  readable polyline cp cv ->
  exists r,
    _getNextTrackStart polyline between cp cv = Return r /\
    match r with
    | None => True
    | Some start =>
      readable polyline (pathIndex' start) (vertexIndex' start) /\
      (pathIndex' start <> cp ->
       vertexIndex' start = 0 /\
       exists path,
         get (paths polyline) (pathIndex' start) = Some path /\ 2 <= len path)
    end.
Proof.
  intros Hb (path & Hpath & Hcv & Hnext).
  unfold _getNextTrackStart. rewrite Hpath. cbn [deref bind].
  destruct (Z.ltb_spec (between + cv) (len path - 1)) as [Hin | Hout].
  - eexists. split; [ reflexivity | ]. cbn. split.
    + exists path. repeat split; [ assumption | lia | lia ].
    + intros Hne. contradiction.
  - destruct (Z.leb_spec (len (paths polyline)) (cp + 1)) as [Hlast | Hmore].
    + eexists. split; [ reflexivity | exact I ].
    + apply get_Some in Hpath as Hcp.
      destruct (get_inside (paths polyline) (cp + 1)) as [path' Hpath'];
        [ lia | ].
      rewrite Hpath'. cbn [deref bind].
      destruct (Z.ltb_spec (len path') 2) as [Hshort | Hlong].
      * eexists. split; [ reflexivity | exact I ].
      * eexists. split; [ reflexivity | ]. cbn. split.
        -- exists path'. repeat split; [ assumption | lia | lia ].
        -- intros _. split; [ reflexivity | ]. exists path'. split; [ assumption | lia ].
Qed.

(** From a readable start every read of the placement loop is in bounds. *)
Lemma placeTracks_returns n polyline fi between :
  0 <= between ->
  forall cp cv ti s,
    readable polyline cp cv ->
    exists r, placeTracks n polyline fi between cp cv ti s = Return r.
Proof.
  intros Hb. induction n as [ | n IH]; intros cp cv ti s Hread.
  - eexists. reflexivity.
  - destruct (getNextTrackStart_readable polyline between cp cv Hb Hread)
      as (r & Hr & Hstart).
    destruct Hread as (path & Hpath & Hcv & Hnext).
    destruct (get_inside path cv) as [[x0 y0] Hv]; [ lia | ].
    destruct (get_inside path (cv + 1)) as [[x1 y1] Hv']; [ lia | ].
    cbn [placeTracks]. rewrite Hpath. cbn [deref bind].
    rewrite Hv. cbn [deref bind]. rewrite Hv'. cbn [deref bind].
    unfold _createId, getIsActive, MathRandom. cbn [fst snd].
    rewrite Hr. cbn [bind].
    destruct r as [start | ].
    + apply IH. apply Hstart.
    + eexists. reflexivity.
Qed.

Lemma firstPathUsable_readable (polyline : Polyline) :
  firstPathUsable polyline = true -> readable polyline 0 0.
Proof.
  unfold firstPathUsable, readable.
  destruct (paths polyline) as [ | path rest]; [ discriminate | ].
  intros H. apply Z.leb_le in H.
  exists path. repeat split; [ lia | lia ].
Qed.

(** A feature whose first path can be used is placed without a fault. *)
Lemma placeFeature_returns vertexSum feature fi ti s :
  firstPathUsable (geometry feature) = true ->
  exists r, placeFeature vertexSum feature fi ti s = Return r.
Proof.
  intros Huse. unfold placeFeature.
  apply placeTracks_returns.
  - unfold numOfTracksPerFeature. destruct (vertexSum =? 0); [ lia | ].
    apply vertexNumBetweenTracks_nonneg;
      [ apply getNumberOfVertices_nonneg | lia ].
  - apply firstPathUsable_readable. assumption.
Qed.

(** A feature whose first path is missing or has fewer than two vertices
    faults on its first placement. *)
Lemma placeFeature_throws vertexSum feature fi ti s :
  firstPathUsable (geometry feature) = false ->
  vertexSum <> 0 ->
  placeFeature vertexSum feature fi ti s = Throw TypeError.
Proof.
  intros Huse Hsum. unfold placeFeature, numOfTracksPerFeature.
  destruct (Z.eqb_spec vertexSum 0) as [ | _]; [ contradiction | ].
  cbn [loopCount].
  destruct (Z.to_nat (Z.max _ 1)) as [ | n] eqn:Hn; [ lia | ].
  cbn [placeTracks]. unfold firstPathUsable in Huse.
  destruct (paths (geometry feature)) as [ | path rest]; [ reflexivity | ].
  rewrite get_head. cbn [deref bind].
  apply Z.leb_gt in Huse. unfold len in Huse.
  destruct path as [ | v [ | v' path]]; cbn [length] in Huse;
    [ reflexivity | reflexivity | lia ].
Qed.

Lemma initializeLoop_returns vertexSum rest :
  Forall (fun feature => firstPathUsable (geometry feature) = true) rest ->
  forall fi ti s, exists r, initializeLoop vertexSum rest fi ti s = Return r.
Proof.
  induction 1 as [ | feature rest Huse _ IH]; intros fi ti s;
    cbn [initializeLoop]; destruct (ti <? trackedAssets (_config s));
    try (eexists; reflexivity).
  destruct (placeFeature_returns vertexSum feature fi ti s Huse)
    as [[ti' s'] Hplace].
  rewrite Hplace. cbn [bind]. apply IH.
Qed.

(** The features that come after the one on which the count of tracks
    reaches [trackedAssets] are not read. *)
Lemma initializeLoop_stops vertexSum before after :
  forall fi ti s s',
    initializeLoop vertexSum before fi ti s = Return (s', None) ->
    initializeLoop vertexSum (before ++ after) fi ti s = Return (s', None).
Proof.
  induction before as [ | feature before IH]; intros fi ti s s' H;
    cbn [initializeLoop app] in *.
  - destruct (ti <? trackedAssets (_config s)) eqn:Hti; [ discriminate | ].
    destruct after; cbn [initializeLoop]; rewrite Hti; assumption.
  - destruct (ti <? trackedAssets (_config s)); [ | assumption ].
    apply bind_Return in H as [[ti1 s1] [H1 H]].
    rewrite H1. cbn [bind]. apply IH. assumption.
Qed.

(** A fault of the allocator happens on a feature whose first path cannot
    be used, and the allocator had run through the features before it
    and still asked for more. *)
Lemma initializeLoop_fault vertexSum rest :
  forall fi ti s e,
    initializeLoop vertexSum rest fi ti s = Throw e ->
    exists before feature after s' line,
      rest = before ++ feature :: after /\
      firstPathUsable (geometry feature) = false /\
      initializeLoop vertexSum before fi ti s = Return (s', Some line).
Proof.
  induction rest as [ | feature rest IH]; intros fi ti s e H;
    cbn [initializeLoop] in H;
    destruct (ti <? trackedAssets (_config s)) eqn:Hti; try discriminate.
  destruct (placeFeature vertexSum feature fi ti s) as [[ti1 s1] | e1] eqn:Hplace;
    cbn [bind] in H.
  - apply IH in H as (before & bad & after & s' & line & -> & Hbad & Hrun).
    exists (feature :: before), bad, after, s', line.
    split; [ reflexivity | ]. split; [ assumption | ].
    cbn [initializeLoop]. rewrite Hti, Hplace. cbn [bind]. assumption.
  - exists [], feature, rest, s, (fi, ti).
    split; [ reflexivity | ]. split.
    + destruct (firstPathUsable (geometry feature)) eqn:Huse; [ | reflexivity ].
      destruct (placeFeature_returns vertexSum feature fi ti s Huse) as [r Hr].
      congruence.
    + cbn [initializeLoop]. rewrite Hti. reflexivity.
Qed.

(** On a geometry without any vertex no placement is attempted. *)
Lemma placeFeature_no_vertex feature fi ti s :
  placeFeature 0 feature fi ti s = Return (ti, s).
Proof. reflexivity. Qed.

(** C10.  The test for a path of fewer than two vertices is made only
    when the allocator moves on to a later path of a feature: a start that
    [_getNextTrackStart] returns on another path is the first vertex of a
    path of two vertices or more.  The first path of a feature is not
    tested: whenever a feature whose first path is missing or has fewer
    than two vertices is processed (and the geometry has a vertex at all,
    so that a placement is attempted), its first placement reads out of
    bounds and faults, and [initialize] itself faults when that feature is
    the first one.  Conversely a feature whose first path has two vertices
    or more is processed with every read in bounds; [initialize] returns
    when that holds of every feature, the features after the point at
    which the allocator stops do not matter, and a fault of [initialize]
    is always the fault of a processed feature whose first path is missing
    or has fewer than two vertices. *)
Theorem first_path_is_not_checked :
  (forall polyline between cp cv start,
      _getNextTrackStart polyline between cp cv = Return (Some start) ->
      pathIndex' start <> cp ->
      vertexIndex' start = 0 /\
      exists path,
        get (paths polyline) (pathIndex' start) = Some path /\ 2 <= len path) /\
  (forall vertexSum feature fi ti s,
      firstPathUsable (geometry feature) = false ->
      vertexSum <> 0 ->
      placeFeature vertexSum feature fi ti s = Throw TypeError) /\
  (forall polylines feature rest s,
      features polylines = feature :: rest ->
      firstPathUsable (geometry feature) = false ->
      _sumPolylineVertices polylines <> 0 ->
      0 < trackedAssets (_config s) ->
      initialize polylines s = Throw TypeError) /\
  (forall vertexSum feature fi ti s,
      firstPathUsable (geometry feature) = true ->
      exists r, placeFeature vertexSum feature fi ti s = Return r) /\
  (forall polylines s,
      Forall (fun feature => firstPathUsable (geometry feature) = true)
             (features polylines) ->
      exists r, initialize polylines s = Return r) /\
  (forall polylines before after s s',
      features polylines = before ++ after ->
      initializeLoop (_sumPolylineVertices polylines) before 0 0
                     (with_polylines s (Some polylines)) = Return (s', None) ->
      initialize polylines s = Return (s', None)) /\
  (forall polylines s e,
      initialize polylines s = Throw e ->
      exists before feature after s' line,
        features polylines = before ++ feature :: after /\
        firstPathUsable (geometry feature) = false /\
        initializeLoop (_sumPolylineVertices polylines) before 0 0
                       (with_polylines s (Some polylines))
        = Return (s', Some line)).
Proof.
  repeat apply conj.
  - intros polyline between cp cv start H Hne.
    unfold _getNextTrackStart in H.
    repeat bind_step H; try discriminate H;
      injection H as <-; cbn in *; try contradiction.
    split; [ reflexivity | ].
    match goal with
    | E : deref (get _ (cp + 1)) = Return ?p |- _ =>
        exists p; split; [ apply deref_Return; exact E | ]
    end.
    match goal with
    | E : (_ <? 2) = false |- _ => apply Z.ltb_ge in E; exact E
    end.
  - apply placeFeature_throws.
  - intros polylines feature rest s Hf Huse Hsum HT.
    unfold initialize, _initialize. rewrite Hf. cbn [initializeLoop].
    cbn [with_polylines _config].
    destruct (Z.ltb_spec 0 (trackedAssets (_config s))) as [_ | ]; [ | lia ].
    rewrite placeFeature_throws by assumption. reflexivity.
  - apply placeFeature_returns.
  - intros polylines s Hall. unfold initialize, _initialize.
    apply initializeLoop_returns. assumption.
  - intros polylines before after s s' Hf H.
    unfold initialize, _initialize. rewrite Hf.
    apply initializeLoop_stops. assumption.
  - intros polylines s e H. unfold initialize, _initialize in H.
    apply initializeLoop_fault in H. exact H.
Qed.

(** ** How many tracks a feature gets *)

Lemma filter_all {A : Type} (f : A -> bool) (l : list A) :
  Forall (fun a => f a = true) l -> filter f l = l.
Proof.
  induction 1 as [ | a l Ha _ IH]; cbn; [ reflexivity | ].
  rewrite Ha, IH. reflexivity.
Qed.

Lemma filter_none {A : Type} (f : A -> bool) (l : list A) :
  Forall (fun a => f a = false) l -> filter f l = [].
Proof.
  induction 1 as [ | a l Ha _ IH]; cbn; [ reflexivity | ].
  rewrite Ha, IH. reflexivity.
Qed.

(** One turn of the [while] loop: the feature gets at least one track and
    at most its share, and less than its share only when
    [_getNextTrackStart] answers [null] for the last track placed. *)
Lemma placeFeature_spec vertexSum feature fi ti s ti' s' :
  vertexSum <> 0 ->
  placeFeature vertexSum feature fi ti s = Return (ti', s') ->
  let n := _getNumberOfVertices (geometry feature) in
  let share := Z.max (trackedAssets (_config s) * n / vertexSum) 1 in
  exists infos,
    _trackInfos s' = _trackInfos s ++ infos /\
    _config s' = _config s /\
    len infos = ti' - ti /\
    Forall (fun t => featureIndex t = fi) infos /\
    1 <= len infos <= share /\
    (len infos < share ->
     exists front t,
       infos = front ++ [t] /\
       _getNextTrackStart (geometry feature) (vertexNumBetweenTracks n share)
                          (pathIndex t) (vertexIndex t)
       = Return None).
Proof.
  intros Hsum H n share. unfold placeFeature, numOfTracksPerFeature in H.
  destruct (Z.eqb_spec vertexSum 0) as [ | _]; [ contradiction | ].
  fold n in H. fold share in H. cbn [loopCount] in H.
  apply placeTracks_spec in H
    as (infos & _ & Hi & _ & Hlen & _ & Hall & Hc & _ & _ & Hle & Hge & Hex).
  assert (Hshare : 1 <= share) by (unfold share; lia).
  rewrite Z2Nat.id in Hle, Hex by lia.
  assert (Hone : 1 <= ti' - ti) by (apply Hge; lia).
  exists infos.
  split; [ exact Hi | ]. split; [ exact Hc | ]. split; [ exact Hlen | ].
  split; [ | split; [ lia | ] ].
  - eapply Forall_impl; [ | exact Hall ]. cbn. intros t (Ht & _). exact Ht.
  - intros Hlt. apply Hex. lia.
Qed.

(** The whole loop, feature by feature.  [added] are the records the loop
    appends; for the feature at position [j] of [rest], whose index is
    [fi + j], the records on earlier features say whether it is reached. *)
Lemma initializeLoop_spec vertexSum rest :
  vertexSum <> 0 ->
  forall fi ti s s' log,
    initializeLoop vertexSum rest fi ti s = Return (s', log) ->
    exists added,
      _trackInfos s' = _trackInfos s ++ added /\
      _config s' = _config s /\
      Forall (fun t => fi <= featureIndex t) added /\
      forall (j : nat) feature,
        nth_error rest j = Some feature ->
        let i := fi + Z.of_nat j in
        let n := _getNumberOfVertices (geometry feature) in
        let share := Z.max (trackedAssets (_config s) * n / vertexSum) 1 in
        let on := filter (fun t => featureIndex t =? i) added in
        let before := len (filter (fun t => featureIndex t <? i) added) in
        (trackedAssets (_config s) <= ti + before -> on = []) /\
        (ti + before < trackedAssets (_config s) ->
         1 <= len on <= share /\
         (len on < share ->
          exists front t,
            on = front ++ [t] /\
            _getNextTrackStart (geometry feature)
                               (vertexNumBetweenTracks n share)
                               (pathIndex t) (vertexIndex t)
            = Return None)).
Proof.
  intros Hsum.
  induction rest as [ | feature0 rest IH]; intros fi ti s s' log H;
    cbn [initializeLoop] in H;
    destruct (Z.ltb_spec ti (trackedAssets (_config s))) as [Hlt | Hge].
  - injection H as <- <-. exists []. rewrite app_nil_r.
    split; [ reflexivity | ]. split; [ reflexivity | ].
    split; [ constructor | ]. intros [ | j] feature Hj; discriminate Hj.
  - injection H as <- <-. exists []. rewrite app_nil_r.
    split; [ reflexivity | ]. split; [ reflexivity | ].
    split; [ constructor | ]. intros [ | j] feature Hj; discriminate Hj.
  - apply bind_Return in H as [[ti1 s1] [H0 H]].
    apply (placeFeature_spec _ _ _ _ _ _ _ Hsum) in H0
      as (infos & Hi & Hc & Hlen & Hon & Hcount & Hex).
    apply IH in H as (added & Hi' & Hc' & Hlater & Hrest).
    assert (Heq : Forall (fun t => (featureIndex t =? fi) = true) infos)
      by (eapply Forall_impl; [ | exact Hon ]; cbn; intros; lia).
    assert (Hnot : Forall (fun t => (featureIndex t =? fi) = false) added)
      by (eapply Forall_impl; [ | exact Hlater ]; cbn; intros; lia).
    assert (Hlow : Forall (fun t => (featureIndex t <? fi) = false) (infos ++ added)).
    { apply Forall_app. split.
      - eapply Forall_impl; [ | exact Hon ]; cbn; intros; lia.
      - eapply Forall_impl; [ | exact Hlater ]; cbn; intros; lia. }
    exists (infos ++ added).
    split; [ rewrite Hi', Hi, app_assoc; reflexivity | ].
    split; [ congruence | ].
    split.
    { apply Forall_app. split.
      - eapply Forall_impl; [ | exact Hon ]; cbn; intros; lia.
      - eapply Forall_impl; [ | exact Hlater ]; cbn; intros; lia. }
    intros [ | j] feature Hj; cbn [nth_error] in Hj.
    + injection Hj as <-. cbn zeta.
      replace (fi + Z.of_nat 0) with fi by lia.
      rewrite (filter_none _ _ Hlow), filter_app, (filter_all _ infos Heq),
        (filter_none _ added Hnot), app_nil_r.
      unfold len at 1 3. cbn [length]. split; [ lia | ].
      intros _. split; [ exact Hcount | exact Hex ].
    + specialize (Hrest j feature Hj). cbn zeta in Hrest |- *.
      replace (fi + Z.of_nat (S j)) with (fi + 1 + Z.of_nat j) by lia.
      set (i := fi + 1 + Z.of_nat j) in *.
      assert (Hout : Forall (fun t => (featureIndex t =? i) = false) infos)
        by (eapply Forall_impl; [ | exact Hon ]; cbn; intros; lia).
      assert (Hin : Forall (fun t => (featureIndex t <? i) = true) infos)
        by (eapply Forall_impl; [ | exact Hon ]; cbn; intros; lia).
      rewrite !filter_app, (filter_none _ infos Hout), (filter_all _ infos Hin),
        len_app.
      cbn [app]. rewrite Hc in Hrest.
      replace (ti + (len infos + len (filter (fun t => featureIndex t <? i) added)))
        with (ti1 + len (filter (fun t => featureIndex t <? i) added)) by lia.
      exact Hrest.
  - injection H as <- <-. exists []. rewrite app_nil_r.
    split; [ reflexivity | ]. split; [ reflexivity | ].
    split; [ constructor | ].
    intros j feature _. cbn. split; [ reflexivity | ].
    unfold len. cbn [length]. lia.
Qed.

(** C7 (amended).  A fresh service is initialized on a geometry that has
    a vertex.  A feature is reached when the tracks placed on the features
    before it are fewer than [trackedAssets]; a feature that is not
    reached gets no track.  A feature that is reached gets at least one
    track and at most [max(1, floor(T * featureVertices / totalVertices))];
    it gets exactly that many unless [_getNextTrackStart] finds no further
    usable path of the feature after the last track placed on it. *)
Theorem tracks_per_feature polylines config s log i feature :
  initialize polylines (new config) = Return (s, log) ->
  get (features polylines) i = Some feature ->
  _sumPolylineVertices polylines <> 0 ->
  let n := _getNumberOfVertices (geometry feature) in
  let share :=
    Z.max (trackedAssets (_config s) * n / _sumPolylineVertices polylines) 1 in
  (trackedAssets (_config s) <= tracksBefore i s -> tracksOn i s = 0) /\
  (tracksBefore i s < trackedAssets (_config s) ->
   1 <= tracksOn i s <= share /\
   (tracksOn i s < share ->
    exists front t,
      filter (fun t => featureIndex t =? i) (_trackInfos s) = front ++ [t] /\
      _getNextTrackStart (geometry feature) (vertexNumBetweenTracks n share)
                         (pathIndex t) (vertexIndex t)
      = Return None)).
Proof.
  intros H Hf Hsum n share.
  unfold initialize, _initialize in H.
  apply (initializeLoop_spec _ _ Hsum) in H as (added & Hi & Hc & _ & Hrest).
  cbn [with_polylines new _trackInfos _config app] in Hi, Hc, Hrest.
  apply get_Some in Hf as Hrange.
  unfold get in Hf. destruct (Z.ltb_spec i 0) as [ | _]; [ lia | ].
  specialize (Hrest (Z.to_nat i) feature Hf). cbn zeta in Hrest.
  rewrite Z2Nat.id, Z.add_0_l in Hrest by lia.
  rewrite !Z.add_0_l in Hrest.
  unfold tracksOn, tracksBefore, share, n. rewrite Hi, Hc.
  destruct Hrest as [Hnone Hsome]. split.
  - intros Hge. rewrite (Hnone Hge). reflexivity.
  - exact Hsome.
Qed.

(** * Further properties of the code *)

(** ** The identifier generator, over its whole period *)

(** X1 (the identifiers in closed form).  On a fresh service the call
    of [_createId] that follows [n] others returns [1 + n] modulo
    [0xfffffffe]: the identifiers count up from 1 and start again at 0
    after [0xfffffffd].  Every identifier fits 32 bits without sign, and
    the two largest 32-bit values are never handed out. *)
Theorem createId_sequence (n : N) (config : PartialConfig) :
  fst (_createId (createIds n (new config))) = (1 + Z.of_N n) mod 4294967294 /\
  0 <= fst (_createId (createIds n (new config))) < 4294967294.
Proof.
  rewrite createId_id, createIds_counter by (cbn [new _idCounter]; lia).
  cbn [new _idCounter]. split; [ reflexivity | ].
  apply Z.mod_pos_bound. lia.
Qed.

(** X2 (no identifier twice within a period).  On a fresh service two
    calls of [_createId] fewer than 4294967294 calls apart never return
    the same identifier. *)
Theorem createId_distinct_within_period (i j : N) (config : PartialConfig) :
  (i < j)%N ->
  (j < i + 4294967294)%N ->
  fst (_createId (createIds i (new config)))
  <> fst (_createId (createIds j (new config))).
Proof.
  intros Hij Hnear. rewrite !createId_id.
  rewrite !createIds_counter by (cbn [new _idCounter]; lia).
  cbn [new _idCounter]. intros Heq.
  assert (Hdiff : (Z.of_N j - Z.of_N i) mod 4294967294 = 0).
  { replace (Z.of_N j - Z.of_N i) with ((1 + Z.of_N j) - (1 + Z.of_N i)) by lia.
    rewrite Zminus_mod, Heq, Z.sub_diag. reflexivity. }
  rewrite Z.mod_small in Hdiff by lia. lia.
Qed.

(** ** Writing an array element *)

Lemma replace_length {A : Type} (v : A) (l : list A) :
  forall n, length (replace l n v) = length l.
Proof.
  induction l as [ | a l IH]; intros [ | n]; cbn; congruence.
Qed.

Lemma replace_same {A : Type} (v : A) (l : list A) :
  forall n, (n < length l)%nat -> nth_error (replace l n v) n = Some v.
Proof.
  induction l as [ | a l IH]; intros [ | n] Hn; cbn in *; try lia;
    [ reflexivity | apply IH; lia ].
Qed.

Lemma replace_other {A : Type} (v : A) (l : list A) :
  forall n m, n <> m -> nth_error (replace l n v) m = nth_error l m.
Proof.
  induction l as [ | a l IH]; intros [ | n] [ | m] Hnm; cbn;
    try reflexivity; try contradiction.
  apply IH. congruence.
Qed.

Lemma replace_map {A B : Type} (f : A -> B) (v a : A) (l : list A) :
  forall n,
    nth_error l n = Some a -> f v = f a ->
    map f (replace l n v) = map f l.
Proof.
  induction l as [ | b l IH]; intros [ | n] Hn Hf; cbn in *;
    try discriminate.
  - injection Hn as ->. rewrite Hf. reflexivity.
  - rewrite (IH n Hn Hf). reflexivity.
Qed.

Lemma get_replace_same {A : Type} (v : A) (l : list A) (i : Z) :
  0 <= i < len l -> get (replace l (Z.to_nat i) v) i = Some v.
Proof.
  unfold get, len. intros Hi.
  destruct (Z.ltb_spec i 0); [ lia | ]. apply replace_same. lia.
Qed.

Lemma get_replace_other {A : Type} (v : A) (l : list A) (i j : Z) :
  0 <= i -> i <> j -> get (replace l (Z.to_nat i) v) j = get l j.
Proof.
  unfold get. intros Hi Hij.
  destruct (Z.ltb_spec j 0); [ reflexivity | ].
  apply replace_other. lia.
Qed.

Lemma get_nth_error {A : Type} (l : list A) (i : Z) (a : A) :
  get l i = Some a -> nth_error l (Z.to_nat i) = Some a.
Proof.
  unfold get. destruct (i <? 0); [ discriminate | trivial ].
Qed.

(** ** What a tick does to the observations *)

(** One track's update rewrites its own observation: a fresh identifier,
    the same [TRACKID] and [TYPE], and an [ACTIVE] flag that is drawn
    again only when the tick counter stands at 400. *)
Lemma updateTrack_observation polylines index info s info' s' :
  updateTrack polylines index info s = Return (info', s') ->
  exists old new,
    get (_lastObservations s) index = Some old /\
    _lastObservations s'
    = replace (_lastObservations s) (Z.to_nat index) new /\
    OBJECTID (attributes new) = _idCounter s /\
    TRACKID (attributes new) = TRACKID (attributes old) /\
    TYPE (attributes new) = TYPE (attributes old) /\
    _idCounter s' = Z.rem (_idCounter s + 1) 4294967294 /\
    (if _numCyclesSinceLastActiveUpdate s =? NumCyclesBetweenActiveUpdate
     then randomCalls s' = S (randomCalls s) /\
          ACTIVE (attributes new)
          = (if (random (randomCalls s) <? 0.05)%float then 1 else 0)
     else randomCalls s' = randomCalls s /\
          ACTIVE (attributes new) = ACTIVE (attributes old)).
Proof.
  unfold updateTrack. intros H.
  repeat bind_step H.
  all: injection H as <- <-.
  all: unfold _createId in *.
  all: match goal with
       | Hid : (_, _) = (_, ?m) |- _ => injection Hid as <- <-
       end.
  all: match goal with
       | E : deref (get (_lastObservations _) _) = Return ?o |- _ =>
           apply deref_Return in E; exists o
       end.
  all: cbn [with_idCounter _numCyclesSinceLastActiveUpdate] in *.
  all: match goal with
       | Hact : (if ?c then _ else _) = (_, _) |- _ =>
           destruct c;
           [ unfold getIsActive, MathRandom in Hact; injection Hact as <- <-
           | injection Hact as <- <- ]
       end.
  all: eexists; cbn; repeat split; try reflexivity; try assumption.
Qed.

(** The loop over the tracks from [index] on: every track has an
    observation, and the observations keep their number, their [TRACKID]
    and their [TYPE]; those of other tracks are not touched. *)
Lemma updateLoop_observations polylines infos :
  forall index s infos' s',
    0 <= index ->
    updateLoop polylines infos index s = Return (infos', s') ->
    length infos' = length infos /\
    length (_lastObservations s') = length (_lastObservations s) /\
    (infos = [] \/ index + len infos <= len (_lastObservations s)) /\
    map (fun o => TRACKID (attributes o)) (_lastObservations s')
    = map (fun o => TRACKID (attributes o)) (_lastObservations s) /\
    map (fun o => TYPE (attributes o)) (_lastObservations s')
    = map (fun o => TYPE (attributes o)) (_lastObservations s) /\
    (forall j, j < index ->
               get (_lastObservations s') j = get (_lastObservations s) j).
Proof.
  induction infos as [ | info rest IH]; intros index s infos' s' Hindex H.
  - injection H as <- <-. repeat split; try reflexivity. left. reflexivity.
  - cbn [updateLoop] in H.
    apply bind_Return in H as [[info1 s1] [H1 H]].
    apply bind_Return in H as [[rest1 s2] [H2 H]].
    injection H as <- <-.
    apply updateTrack_observation in H1
      as (old & new & Hold & Hobs & _ & Htrack & Htype & _).
    apply IH in H2 as (Hlen & Hlen' & Hroom & Htracks & Htypes & Hbelow);
      [ | lia ].
    apply get_Some in Hold as Hrange. apply get_nth_error in Hold as Hnth.
    rewrite Hobs in *. rewrite replace_length in *.
    unfold len in *. cbn [length].
    split; [ congruence | ]. split; [ assumption | ].
    split.
    { right. destruct Hroom as [-> | Hroom]; cbn [length];
        rewrite ?replace_length in *; lia. }
    split; [ rewrite Htracks; apply (replace_map _ _ old); assumption | ].
    split; [ rewrite Htypes; apply (replace_map _ _ old); assumption | ].
    intros j Hj. rewrite Hbelow by lia.
    apply get_replace_other; lia.
Qed.

(** The identifiers the loop hands out are consecutive values of the
    counter, in the order of the tracks. *)
Lemma updateLoop_identifiers polylines infos :
  forall index s infos' s',
    0 <= index ->
    0 <= _idCounter s < 4294967294 ->
    updateLoop polylines infos index s = Return (infos', s') ->
    _idCounter s' = (_idCounter s + len infos) mod 4294967294 /\
    forall k,
      0 <= k < len infos ->
      exists o,
        get (_lastObservations s') (index + k) = Some o /\
        OBJECTID (attributes o) = (_idCounter s + k) mod 4294967294.
Proof.
  induction infos as [ | info rest IH]; intros index s infos' s' Hindex Hc H.
  - injection H as <- <-. unfold len. cbn [length].
    split; [ rewrite Z.add_0_r, Z.mod_small; lia | intros k Hk; lia ].
  - cbn [updateLoop] in H.
    apply bind_Return in H as [[info1 s1] [H1 H]].
    apply bind_Return in H as [[rest1 s2] [H2 H]].
    injection H as <- <-.
    apply updateTrack_observation in H1
      as (old & new & Hold & Hobs & Hid & _ & _ & Hnext & _).
    rewrite Z.rem_mod_nonneg in Hnext by lia.
    pose proof (Z.mod_pos_bound (_idCounter s + 1) 4294967294) as Hb.
    pose proof (updateLoop_observations _ _ _ _ _ _ (ltac:(lia) : 0 <= index + 1) H2)
      as (_ & _ & _ & _ & _ & Hbelow).
    apply IH in H2 as [Hcount Hids]; [ | lia | lia ].
    apply get_Some in Hold as Hrange.
    unfold len in *. cbn [length]. split.
    + rewrite Hcount, Hnext, Zplus_mod_idemp_l. f_equal. lia.
    + intros k Hk. destruct (Z.eq_dec k 0) as [-> | Hpos].
      * exists new. rewrite Z.add_0_r, Hbelow, Hobs by lia.
        split; [ apply get_replace_same; assumption | ].
        rewrite Hid, Z.add_0_r, Z.mod_small; lia.
      * destruct (Hids (k - 1)) as (o & Ho & Hoid); [ lia | ].
        exists o. replace (index + k) with (index + 1 + (k - 1)) by lia.
        split; [ assumption | ].
        rewrite Hoid, Hnext, Zplus_mod_idemp_l. f_equal. lia.
Qed.

(** The [ACTIVE] flags: left alone unless the counter stands at 400, and
    then drawn again, one call of [Math.random] per track. *)
Lemma updateLoop_active polylines infos :
  forall index s infos' s',
    0 <= index ->
    updateLoop polylines infos index s = Return (infos', s') ->
    (_numCyclesSinceLastActiveUpdate s <> NumCyclesBetweenActiveUpdate ->
     randomCalls s' = randomCalls s /\
     map (fun o => ACTIVE (attributes o)) (_lastObservations s')
     = map (fun o => ACTIVE (attributes o)) (_lastObservations s)) /\
    (_numCyclesSinceLastActiveUpdate s = NumCyclesBetweenActiveUpdate ->
     randomCalls s' = (randomCalls s + length infos)%nat /\
     forall k : nat,
       (k < length infos)%nat ->
       exists o,
         get (_lastObservations s') (index + Z.of_nat k) = Some o /\
         ACTIVE (attributes o)
         = (if (random (randomCalls s + k) <? 0.05)%float then 1 else 0)).
Proof.
  induction infos as [ | info rest IH]; intros index s infos' s' Hindex H.
  - injection H as <- <-. cbn [length]. split; intros _.
    + split; reflexivity.
    + split; [ lia | intros k Hk; lia ].
  - cbn [updateLoop] in H.
    apply bind_Return in H as [[info1 s1] [H1 H]].
    apply bind_Return in H as [[rest1 s2] [H2 H]].
    injection H as <- <-.
    pose proof (updateTrack_frame _ _ _ _ _ _ H1) as (_ & _ & _ & _ & _ & _ & Hn).
    apply updateTrack_observation in H1
      as (old & new & Hold & Hobs & _ & _ & _ & _ & Hact).
    pose proof (updateLoop_observations _ _ _ _ _ _ (ltac:(lia) : 0 <= index + 1) H2)
      as (_ & _ & _ & _ & _ & Hbelow).
    apply IH in H2 as [Hquiet Hdraw]; [ | lia ].
    rewrite Hn in Hquiet, Hdraw.
    apply get_Some in Hold as Hrange. apply get_nth_error in Hold as Hnth.
    split; intros Hcount.
    + destruct (Z.eqb_spec (_numCyclesSinceLastActiveUpdate s)
                           NumCyclesBetweenActiveUpdate) as [ | _];
        [ contradiction | ].
      destruct Hact as [Hcalls Hsame].
      destruct (Hquiet Hcount) as [Hcalls' Hflags].
      split; [ congruence | ].
      rewrite Hflags, Hobs. apply (replace_map _ _ old); assumption.
    + destruct (Z.eqb_spec (_numCyclesSinceLastActiveUpdate s)
                           NumCyclesBetweenActiveUpdate) as [_ | ];
        [ | contradiction ].
      destruct Hact as [Hcalls Hflag].
      destruct (Hdraw Hcount) as [Hcalls' Hflags].
      cbn [length]. split; [ lia | ].
      intros [ | k] Hk.
      * exists new. cbn [Z.of_nat]. rewrite Z.add_0_r, Nat.add_0_r.
        rewrite Hbelow, Hobs by lia.
        split; [ apply get_replace_same; assumption | assumption ].
      * destruct (Hflags k) as (o & Ho & Hoflag); [ lia | ].
        exists o.
        replace (index + Z.of_nat (S k)) with (index + 1 + Z.of_nat k) by lia.
        split; [ assumption | ].
        rewrite Hoflag, Hcalls.
        replace (randomCalls s + S k)%nat with (S (randomCalls s) + k)%nat by lia.
        reflexivity.
Qed.

(** X3 (a tick keeps the tracks).  A tick that returns neither adds nor
    removes a track: the track records and the observations keep their
    number, every record has an observation, and no record changes its
    feature and no observation its [TRACKID] or its [TYPE]. *)
Theorem tick_keeps_the_tracks polylines s s' :
  _updatePositions polylines s = Return s' ->
  length (_trackInfos s') = length (_trackInfos s) /\
  length (_lastObservations s') = length (_lastObservations s) /\
  (length (_trackInfos s) <= length (_lastObservations s))%nat /\
  map featureIndex (_trackInfos s') = map featureIndex (_trackInfos s) /\
  map (fun o => TRACKID (attributes o)) (_lastObservations s')
  = map (fun o => TRACKID (attributes o)) (_lastObservations s) /\
  map (fun o => TYPE (attributes o)) (_lastObservations s')
  = map (fun o => TYPE (attributes o)) (_lastObservations s).
Proof.
  intros H. pose proof (updatePositions_frame _ _ _ H) as (_ & Hf & _).
  unfold _updatePositions in H.
  apply bind_Return in H as [[infos s1] [H1 H]].
  apply updateLoop_observations in H1
    as (Hlen & Hlen' & Hroom & Htracks & Htypes & _); [ | lia ].
  cbn [with_numCycles _trackInfos _lastObservations] in *.
  assert (Hs' : _trackInfos s' = infos /\
                _lastObservations s' = _lastObservations s1).
  { injection H as <-.
    destruct (NumCyclesBetweenActiveUpdate <=? _); split; reflexivity. }
  destruct Hs' as [Hinfos Hobs]. rewrite Hinfos in Hf |- *. rewrite Hobs.
  repeat split; try assumption.
  destruct Hroom as [-> | Hroom]; [ cbn; lia | unfold len in Hroom; lia ].
Qed.

(** X4 (a tick renews the identifiers).  A tick gives the observations of
    the tracks 0, 1, 2, ... the next values of the identifier counter, in
    that order, and leaves the counter after the last of them. *)
Theorem tick_renews_the_identifiers polylines s s' :
  _updatePositions polylines s = Return s' ->
  0 <= _idCounter s < 4294967294 ->
  _idCounter s' = (_idCounter s + len (_trackInfos s)) mod 4294967294 /\
  forall k,
    0 <= k < len (_trackInfos s) ->
    exists o,
      get (_lastObservations s') k = Some o /\
      OBJECTID (attributes o) = (_idCounter s + k) mod 4294967294.
Proof.
  intros H Hc. unfold _updatePositions in H.
  apply bind_Return in H as [[infos s1] [H1 H]].
  apply updateLoop_identifiers in H1 as [Hcount Hids];
    [ | lia | exact Hc ].
  cbn [with_numCycles _trackInfos _idCounter] in *.
  assert (Hs' : _idCounter s' = _idCounter s1 /\
                _lastObservations s' = _lastObservations s1).
  { injection H as <-.
    destruct (NumCyclesBetweenActiveUpdate <=? _); split; reflexivity. }
  destruct Hs' as [-> ->].
  split; [ assumption | ]. intros k Hk.
  destruct (Hids k Hk) as (o & Ho & Hoid). exists o.
  rewrite Z.add_0_l in Ho. split; assumption.
Qed.

(** What a tick does to the tick counter and the [ACTIVE] flags. *)
Lemma updatePositions_active polylines s s' :
  _updatePositions polylines s = Return s' ->
  let count := _numCyclesSinceLastActiveUpdate s + 1 in
  _numCyclesSinceLastActiveUpdate s'
  = (if NumCyclesBetweenActiveUpdate <=? count then 0 else count) /\
  (count <> NumCyclesBetweenActiveUpdate ->
   randomCalls s' = randomCalls s /\
   map (fun o => ACTIVE (attributes o)) (_lastObservations s')
   = map (fun o => ACTIVE (attributes o)) (_lastObservations s)) /\
  (count = NumCyclesBetweenActiveUpdate ->
   randomCalls s' = (randomCalls s + length (_trackInfos s))%nat /\
   forall k : nat,
     (k < length (_trackInfos s))%nat ->
     exists o,
       get (_lastObservations s') (Z.of_nat k) = Some o /\
       ACTIVE (attributes o)
       = (if (random (randomCalls s + k) <? 0.05)%float then 1 else 0)).
Proof.
  intros H count. unfold _updatePositions in H.
  apply bind_Return in H as [[infos s1] [H1 H]].
  pose proof (updateLoop_frame _ _ _ _ _ _ H1) as (_ & _ & _ & _ & _ & Hn).
  apply updateLoop_active in H1 as [Hquiet Hdraw]; [ | lia ].
  cbn [with_numCycles _trackInfos _lastObservations randomCalls
       _numCyclesSinceLastActiveUpdate] in *.
  fold count in Hn, Hquiet, Hdraw.
  assert (Hs' : _numCyclesSinceLastActiveUpdate s'
                = (if NumCyclesBetweenActiveUpdate <=? count then 0 else count) /\
                randomCalls s' = randomCalls s1 /\
                _lastObservations s' = _lastObservations s1).
  { injection H as <-. cbn [with_trackInfos _numCyclesSinceLastActiveUpdate].
    rewrite Hn.
    destruct (NumCyclesBetweenActiveUpdate <=? count); cbn;
      repeat split; assumption. }
  destruct Hs' as (Hcount & -> & ->).
  split; [ exact Hcount | ]. split; assumption.
Qed.

(** X5 (the flags rest between redraws).  As long as the tick counter
    stays below 400, ticks change no [ACTIVE] flag and make no call of
    [Math.random]; the counter counts the ticks. *)
Theorem active_flags_rest_between_redraws (n : nat) :
  forall polylines s s',
    ticks n polylines s = Return s' ->
    0 <= _numCyclesSinceLastActiveUpdate s ->
    _numCyclesSinceLastActiveUpdate s + Z.of_nat n
    < NumCyclesBetweenActiveUpdate ->
    _numCyclesSinceLastActiveUpdate s'
    = _numCyclesSinceLastActiveUpdate s + Z.of_nat n /\
    randomCalls s' = randomCalls s /\
    map (fun o => ACTIVE (attributes o)) (_lastObservations s')
    = map (fun o => ACTIVE (attributes o)) (_lastObservations s).
Proof.
  unfold NumCyclesBetweenActiveUpdate.
  induction n as [ | n IH]; intros polylines s s' H Hpos Hlow.
  - injection H as <-. repeat split. lia.
  - cbn [ticks] in H. apply bind_Return in H as [s1 [H1 H]].
    apply updatePositions_active in H1 as (Hcount & Hquiet & _).
    unfold NumCyclesBetweenActiveUpdate in Hcount, Hquiet.
    destruct (Z.leb_spec 400 (_numCyclesSinceLastActiveUpdate s + 1));
      [ lia | ].
    destruct Hquiet as [Hcalls Hflags]; [ lia | ].
    apply IH in H as (Hcount' & Hcalls' & Hflags'); [ | lia | lia ].
    repeat split; [ lia | congruence | congruence ].
Qed.

(** X6 (the four-hundredth tick).  The tick that takes the counter to 400
    sets it back to 0 and gives every track a new [ACTIVE] flag, 1 when
    the value drawn is below 0.05 and 0 otherwise, with one call of
    [Math.random] per track, in the order of the tracks. *)
Theorem four_hundredth_tick_redraws polylines s s' :
  _updatePositions polylines s = Return s' ->
  _numCyclesSinceLastActiveUpdate s = NumCyclesBetweenActiveUpdate - 1 ->
  _numCyclesSinceLastActiveUpdate s' = 0 /\
  randomCalls s' = (randomCalls s + length (_trackInfos s))%nat /\
  forall k : nat,
    (k < length (_trackInfos s))%nat ->
    exists o,
      get (_lastObservations s') (Z.of_nat k) = Some o /\
      ACTIVE (attributes o)
      = (if (random (randomCalls s + k) <? 0.05)%float then 1 else 0).
Proof.
  intros H Hcount.
  apply updatePositions_active in H as (Hzero & _ & Hdraw).
  rewrite Hcount in Hzero, Hdraw.
  split; [ exact Hzero | ]. apply Hdraw. reflexivity.
Qed.

(** ** What a tick does to a track record *)

(** The three ways in which a track's update can end: no transition;
    a transition to the next segment of the path; a transition at the end
    of the path. *)
Lemma updateTrack_record polylines index info s info' s' :
  updateTrack (Some polylines) index info s = Return (info', s') ->
  exists feature path v v',
    get (features polylines) (featureIndex info) = Some feature /\
    get (paths (geometry feature)) (pathIndex info) = Some path /\
    get path (vertexIndex info) = Some v /\
    get path (vertexIndex info + 1) = Some v' /\
    featureIndex info' = featureIndex info /\
    let fires :=
      (distanceToNextVertex info
       <=? accumulatedDistance info + speed info + speed info)%float in
    ((fires = false /\
      pathIndex info' = pathIndex info /\
      vertexIndex info' = vertexIndex info /\
      distanceToNextVertex info' = distanceToNextVertex info /\
      accumulatedDistance info'
      = (accumulatedDistance info + speed info)%float) \/
     (fires = true /\
      vertexIndex info + 1 < len path - 1 /\
      pathIndex info' = pathIndex info /\
      vertexIndex info' = vertexIndex info + 1 /\
      accumulatedDistance info' = 0%float /\
      exists a b,
        get path (vertexIndex info + 1) = Some a /\
        get path (vertexIndex info + 1 + 1) = Some b /\
        distanceToNextVertex info' = segmentDist a b) \/
     (fires = true /\
      len path - 1 <= vertexIndex info + 1 /\
      pathIndex info'
      = (if pathIndex info <? len (paths (geometry feature)) - 1
         then pathIndex info + 1 else 0) /\
      vertexIndex info' = 0 /\
      accumulatedDistance info' = 0%float /\
      exists a b,
        get path 0 = Some a /\ get path 1 = Some b /\
        distanceToNextVertex info' = segmentDist a b)).
Proof.
  unfold updateTrack. cbn [deref bind]. intros H.
  repeat bind_step H.
  all: injection H as <- <-.
  all: repeat match goal with
         | E : deref _ = Return _ |- _ => apply deref_Return in E
         end.
  all: do 4 eexists.
  all: do 4 (split; [ eassumption | ]).
  all: split; [ reflexivity | ].
  all: cbn zeta;
    cbn [pathIndex vertexIndex accumulatedDistance distanceToNextVertex].
  - match goal with
    | E : (if ?c <=? ?d then _ else _) = Return _ |- _ =>
        destruct (Z.leb_spec c d) as [Hend | Hmid]
    end.
    + right. right.
      match goal with
      | E : bind (if ?c then _ else _) _ = Return _ |- _ =>
          destruct c; cbn [bind] in E; injection E as <- <- <-
      end.
      all: repeat (split; [ first [ reflexivity | assumption ] | ]).
      all: do 2 eexists; repeat split; eassumption.
    + right. left.
      match goal with
      | E : Return _ = Return _ |- _ => injection E as <- <- <-
      end.
      repeat (split; [ first [ reflexivity | lia ] | ]).
      do 2 eexists; repeat split; eassumption.
  - left. repeat split; reflexivity.
Qed.

Lemma everyPathUsable_path polylines feature path i j :
  everyPathUsable polylines ->
  get (features polylines) i = Some feature ->
  get (paths (geometry feature)) j = Some path ->
  2 <= len path.
Proof.
  unfold everyPathUsable. intros Hall Hf Hp.
  apply get_nth_error, nth_error_In in Hf.
  apply get_nth_error, nth_error_In in Hp.
  rewrite Forall_forall in Hall. specialize (Hall feature Hf).
  rewrite Forall_forall in Hall. exact (Hall path Hp).
Qed.

(** On a geometry whose paths all have two vertices or more, a record
    that points at a segment still does after its update. *)
Lemma updateTrack_onSegment polylines index info s info' s' :
  everyPathUsable polylines ->
  updateTrack (Some polylines) index info s = Return (info', s') ->
  onSegment polylines info'.
Proof.
  intros Hall H.
  apply updateTrack_record in H
    as (feature & path & v & v' & Hf & Hp & Hv & Hv' & Hfi & Hcases).
  cbn zeta in Hcases. unfold onSegment. rewrite Hfi. exists feature.
  split; [ assumption | ]. unfold readable.
  apply get_Some in Hp as Hprange. apply get_Some in Hv as Hvrange.
  apply get_Some in Hv' as Hvrange'.
  destruct Hcases as [(_ & -> & -> & _) | [(_ & Hmid & -> & -> & _) | (_ & Hend & -> & -> & _)]].
  - exists path. repeat split; [ assumption | lia | lia ].
  - exists path. repeat split; [ assumption | lia | lia ].
  - destruct (get_inside (paths (geometry feature))
                (if pathIndex info <? len (paths (geometry feature)) - 1
                 then pathIndex info + 1 else 0)) as [path' Hp'].
    { destruct (Z.ltb_spec (pathIndex info)
                           (len (paths (geometry feature)) - 1)); lia. }
    exists path'. split; [ assumption | ].
    pose proof (everyPathUsable_path _ _ _ _ _ Hall Hf Hp'). lia.
Qed.

(** A track that points at a segment and has an observation is updated
    without a fault. *)
Lemma updateTrack_returns polylines index info s :
  onSegment polylines info ->
  0 <= index < len (_lastObservations s) ->
  exists r, updateTrack (Some polylines) index info s = Return r.
Proof.
  intros (feature & Hf & path & Hp & Hvi & Hnext) Hindex.
  destruct (get_inside path (vertexIndex info)) as [[x0 y0] Hv]; [ lia | ].
  destruct (get_inside path (vertexIndex info + 1)) as [[x1 y1] Hv']; [ lia | ].
  destruct (get_inside _ _ Hindex) as [o Ho].
  unfold updateTrack. cbn [deref bind].
  rewrite Hf. cbn [deref bind]. rewrite Hp. cbn [deref bind].
  rewrite Hv. cbn [deref bind]. rewrite Hv'. cbn [deref bind].
  rewrite Ho. cbn [deref bind].
  unfold _createId.
  destruct (if _ =? NumCyclesBetweenActiveUpdate then _ else _) as [active s1].
  destruct (_ <=? _)%float; [ | eexists; reflexivity ].
  destruct (Z.leb_spec (len path - 1) (vertexIndex info + 1)) as [Hend | Hmid].
  - destruct (get_inside path 0) as [a Ha]; [ lia | ].
    destruct (get_inside path (0 + 1)) as [b Hb]; [ lia | ].
    destruct (pathIndex info <? len (paths (geometry feature)) - 1);
      cbn [bind deref]; rewrite ?Hp; cbn [bind deref];
      rewrite Ha; cbn [bind deref]; rewrite Hb; cbn [bind deref];
      eexists; reflexivity.
  - destruct (get_inside path (vertexIndex info + 1 + 1)) as [b Hb]; [ lia | ].
    cbn [bind deref]. rewrite Hv'. cbn [bind deref]. rewrite Hb.
    cbn [bind deref]. eexists; reflexivity.
Qed.

Lemma updateTrack_onSegment_before polylines index info s r :
  updateTrack (Some polylines) index info s = Return r ->
  onSegment polylines info /\ 0 <= index < len (_lastObservations s).
Proof.
  destruct r as [info' s']. intros H.
  pose proof (updateTrack_observation _ _ _ _ _ _ H) as (old & _ & Hold & _).
  apply updateTrack_record in H
    as (feature & path & v & v' & Hf & Hp & Hv & Hv' & _).
  apply get_Some in Hold. apply get_Some in Hv. apply get_Some in Hv'.
  split; [ | assumption ].
  exists feature. split; [ assumption | ].
  exists path. repeat split; [ assumption | lia | lia ].
Qed.

(** The loop returns exactly when every track points at a segment and has
    an observation. *)
Lemma updateLoop_returns polylines infos :
  forall index s,
    0 <= index ->
    Forall (onSegment polylines) infos ->
    (infos = [] \/ index + len infos <= len (_lastObservations s)) ->
    exists r, updateLoop (Some polylines) infos index s = Return r.
Proof.
  induction infos as [ | info rest IH]; intros index s Hindex Hon Hroom.
  - eexists. reflexivity.
  - inversion Hon as [ | ? ? Hinfo Hrest]; subst.
    destruct Hroom as [ | Hroom]; [ discriminate | ].
    unfold len in Hroom. cbn [length] in Hroom.
    destruct (updateTrack_returns polylines index info s Hinfo)
      as [[info1 s1] H1]; [ unfold len; lia | ].
    pose proof (updateTrack_observation _ _ _ _ _ _ H1)
      as (_ & new & _ & Hobs & _).
    destruct (IH (index + 1) s1) as [[rest1 s2] H2];
      [ lia | assumption | | ].
    { right. rewrite Hobs. unfold len. rewrite replace_length. lia. }
    cbn [updateLoop]. rewrite H1. cbn [bind]. rewrite H2. cbn [bind].
    eexists. reflexivity.
Qed.

Lemma updateLoop_onSegment_before polylines infos :
  forall index s r,
    updateLoop (Some polylines) infos index s = Return r ->
    Forall (onSegment polylines) infos.
Proof.
  induction infos as [ | info rest IH]; intros index s r H;
    [ constructor | ].
  cbn [updateLoop] in H.
  apply bind_Return in H as [[info1 s1] [H1 H]].
  apply bind_Return in H as [[rest1 s2] [H2 _]].
  constructor.
  - apply updateTrack_onSegment_before in H1. apply H1.
  - eapply IH. exact H2.
Qed.

Lemma updateLoop_onSegment polylines infos :
  everyPathUsable polylines ->
  forall index s infos' s',
    updateLoop (Some polylines) infos index s = Return (infos', s') ->
    Forall (onSegment polylines) infos'.
Proof.
  intros Hall.
  induction infos as [ | info rest IH]; intros index s infos' s' H.
  - injection H as <- <-. constructor.
  - cbn [updateLoop] in H.
    apply bind_Return in H as [[info1 s1] [H1 H]].
    apply bind_Return in H as [[rest1 s2] [H2 H]].
    injection H as <- <-. constructor.
    + eapply updateTrack_onSegment; eassumption.
    + eapply IH. exact H2.
Qed.

Lemma updatePositions_trackInfos polylines s s' :
  _updatePositions polylines s = Return s' ->
  exists s1,
    updateLoop polylines (_trackInfos s) 0
               (with_numCycles s (_numCyclesSinceLastActiveUpdate s + 1))
    = Return (_trackInfos s', s1).
Proof.
  unfold _updatePositions. intros H.
  apply bind_Return in H as [[infos s1] [H1 H]].
  cbn [with_numCycles _trackInfos] in H1. exists s1.
  injection H as <-.
  destruct (NumCyclesBetweenActiveUpdate <=? _); exact H1.
Qed.

Lemma updatePositions_lengths polylines s s' :
  _updatePositions polylines s = Return s' ->
  length (_trackInfos s') = length (_trackInfos s) /\
  length (_lastObservations s') = length (_lastObservations s) /\
  (length (_trackInfos s) <= length (_lastObservations s))%nat.
Proof.
  intros H. unfold _updatePositions in H.
  apply bind_Return in H as [[infos s1] [H1 H]].
  apply updateLoop_observations in H1 as (Hlen & Hlen' & Hroom & _); [ | lia ].
  cbn [with_numCycles _trackInfos _lastObservations] in *.
  assert (Hs' : _trackInfos s' = infos /\
                _lastObservations s' = _lastObservations s1).
  { injection H as <-.
    destruct (NumCyclesBetweenActiveUpdate <=? _); split; reflexivity. }
  destruct Hs' as [Hinfos Hobs]. rewrite Hinfos, Hobs.
  repeat split; try assumption.
  destruct Hroom as [-> | Hroom]; [ cbn; lia | unfold len in Hroom; lia ].
Qed.

Lemma updatePositions_returns polylines s :
  Forall (onSegment polylines) (_trackInfos s) ->
  (length (_trackInfos s) <= length (_lastObservations s))%nat ->
  exists s', _updatePositions (Some polylines) s = Return s'.
Proof.
  intros Hon Hroom.
  destruct (updateLoop_returns polylines (_trackInfos s) 0
              (with_numCycles s (_numCyclesSinceLastActiveUpdate s + 1)))
    as [[infos s1] H]; [ lia | assumption | | ].
  { right. cbn [with_numCycles _lastObservations]. unfold len. lia. }
  unfold _updatePositions. cbn [with_numCycles _trackInfos].
  rewrite H. cbn [bind]. eexists. reflexivity.
Qed.

(** X7 (when a tick returns).  On an initialized service a tick returns
    exactly when every track record points at a segment of the geometry
    and has an observation; otherwise it throws. *)
Theorem tick_returns_iff polylines s :
  (exists s', _updatePositions (Some polylines) s = Return s') <->
  Forall (onSegment polylines) (_trackInfos s) /\
  (length (_trackInfos s) <= length (_lastObservations s))%nat.
Proof.
  split.
  - intros [s' H].
    pose proof (updatePositions_lengths _ _ _ H) as (_ & _ & Hroom).
    apply updatePositions_trackInfos in H as [s1 H].
    apply updateLoop_onSegment_before in H. split; assumption.
  - intros [Hon Hroom]. apply updatePositions_returns; assumption.
Qed.

(** X8 (ticks never fault on sound geometry).  When every path of the
    geometry has two vertices or more, and every track record points at a
    segment and has an observation, any number of ticks returns, and the
    same holds of the service afterwards. *)
Theorem ticks_never_fault polylines (n : nat) :
  everyPathUsable polylines ->
  forall s,
    Forall (onSegment polylines) (_trackInfos s) ->
    (length (_trackInfos s) <= length (_lastObservations s))%nat ->
    exists s',
      ticks n (Some polylines) s = Return s' /\
      Forall (onSegment polylines) (_trackInfos s') /\
      (length (_trackInfos s') <= length (_lastObservations s'))%nat.
Proof.
  intros Hall. induction n as [ | n IH]; intros s Hon Hroom.
  - exists s. repeat split; assumption.
  - destruct (updatePositions_returns polylines s Hon Hroom) as [s1 H1].
    pose proof (updatePositions_lengths _ _ _ H1) as (Hlen & Hlen' & _).
    pose proof (updatePositions_trackInfos _ _ _ H1) as [s1' Hloop].
    apply (updateLoop_onSegment _ _ Hall) in Hloop.
    destruct (IH s1) as (s' & H & Hon' & Hroom'); [ assumption | lia | ].
    exists s'. cbn [ticks]. rewrite H1. cbn [bind].
    repeat split; assumption.
Qed.

(** ** What the allocator creates *)

Lemma range_cons (lo : Z) (n : nat) :
  range lo (S n) = lo :: range (lo + 1) n.
Proof.
  unfold range. cbn [seq map]. rewrite Z.add_0_r. f_equal.
  rewrite <- seq_shift, map_map. apply map_ext. intros i. lia.
Qed.

(** Every turn of the placement loop puts a record and an observation at
    the start of a segment that exists; the observations get the track
    indices and the identifiers in order, and a flag that is 0 or 1. *)
Lemma placeTracks_placed n polyline fi between :
  forall cp cv ti s ti' s',
    placeTracks n polyline fi between cp cv ti s = Return (ti', s') ->
    exists infos obs,
      _trackInfos s' = _trackInfos s ++ infos /\
      _lastObservations s' = _lastObservations s ++ obs /\
      Forall2 (fun t o =>
                 featureIndex t = fi /\
                 exists path v v',
                   get (paths polyline) (pathIndex t) = Some path /\
                   get path (vertexIndex t) = Some v /\
                   get path (vertexIndex t + 1) = Some v' /\
                   distanceToNextVertex t = segmentDist v v' /\
                   accumulatedDistance t = 0%float /\
                   point o = v)
              infos obs /\
      map (fun o => TRACKID (attributes o)) obs = range ti (length obs) /\
      ti' = ti + len obs /\
      _numCyclesSinceLastActiveUpdate s' = _numCyclesSinceLastActiveUpdate s /\
      randomCalls s' = (randomCalls s + 2 * length obs)%nat /\
      Forall (fun o => ACTIVE (attributes o) = 0 \/ ACTIVE (attributes o) = 1)
             obs /\
      (0 <= _idCounter s < 4294967294 ->
       _idCounter s' = (_idCounter s + len obs) mod 4294967294 /\
       forall (k : nat) o,
         nth_error obs k = Some o ->
         OBJECTID (attributes o) = (_idCounter s + Z.of_nat k) mod 4294967294).
Proof.
  induction n as [ | n IH]; intros cp cv ti s ti' s' H.
  - injection H as <- <-. exists [], [].
    rewrite !app_nil_r. unfold len. cbn [length].
    repeat split; try constructor; try lia.
    + rewrite Z.add_0_r, Z.mod_small; lia.
    + intros [ | k] o Hk; discriminate.
  - cbn [placeTracks] in H.
    repeat bind_step H; host_calls.
    all: repeat match goal with
           | E : deref _ = Return _ |- _ => apply deref_Return in E
           end.
    + apply IH in H
        as (infos & obs & Hi & Ho & Hall & Htrack & Hti & Hn & Hr & Hact & Hid).
      cbn in Hi, Ho, Hn, Hr, Hid.
      rewrite <- app_assoc in Hi, Ho.
      eexists (_ :: infos), (_ :: obs).
      split; [ exact Hi | ]. split; [ exact Ho | ].
      unfold len in *. cbn [length].
      split; [ constructor; [ | exact Hall ] | ].
      { cbn [featureIndex pathIndex vertexIndex distanceToNextVertex
             accumulatedDistance point].
        split; [ reflexivity | ]. do 3 eexists.
        do 3 (split; [ eassumption | ]). repeat split; reflexivity. }
      split; [ rewrite range_cons; cbn [map]; rewrite Htrack; reflexivity | ].
      split; [ lia | ]. split; [ assumption | ]. split; [ lia | ].
      split.
      { constructor; [ | exact Hact ]. cbn.
        destruct (_ <? _)%float; [ right | left ]; reflexivity. }
      intros Hc. rewrite Z.rem_mod_nonneg in Hid by lia.
      pose proof (Z.mod_pos_bound (_idCounter s + 1) 4294967294).
      destruct Hid as [Hcount Hids]; [ lia | ]. split.
      * rewrite Hcount, Zplus_mod_idemp_l. f_equal. lia.
      * intros [ | k] o Hk; cbn [nth_error] in Hk.
        -- injection Hk as <-. cbn. rewrite Z.add_0_r, Z.mod_small; lia.
        -- rewrite (Hids k o Hk), Zplus_mod_idemp_l. f_equal. lia.
    + injection H as <- <-.
      eexists [_], [_]. cbn. unfold len. cbn [length].
      split; [ reflexivity | ]. split; [ reflexivity | ].
      split; [ constructor; [ | constructor ] | ].
      { cbn [featureIndex pathIndex vertexIndex distanceToNextVertex
             accumulatedDistance point].
        split; [ reflexivity | ]. do 3 eexists.
        do 3 (split; [ eassumption | ]). repeat split; reflexivity. }
      split; [ cbn; f_equal; lia | ]. split; [ lia | ].
      split; [ reflexivity | ]. split; [ lia | ].
      split.
      { constructor; [ | constructor ]. cbn.
        destruct (_ <? _)%float; [ right | left ]; reflexivity. }
      intros Hc. rewrite Z.rem_mod_nonneg by lia. split; [ reflexivity | ].
      intros [ | [ | k]] o Hk; cbn [nth_error] in Hk; try discriminate.
      injection Hk as <-. cbn. rewrite Z.add_0_r, Z.mod_small; lia.
Qed.

Lemma range_app (lo : Z) (n m : nat) :
  range lo (n + m) = range lo n ++ range (lo + Z.of_nat n) m.
Proof.
  revert lo. induction n as [ | n IH]; intros lo.
  - cbn [Nat.add Z.of_nat]. rewrite Z.add_0_r. reflexivity.
  - cbn [Nat.add]. rewrite !range_cons, IH. cbn [app]. do 3 f_equal. lia.
Qed.

Lemma range_length (lo : Z) (n : nat) : length (range lo n) = n.
Proof. unfold range. rewrite length_map, length_seq. reflexivity. Qed.

Lemma get_from_zero {A : Type} (l : list A) (j : nat) :
  get l (0 + Z.of_nat j) = nth_error l j.
Proof.
  unfold get. rewrite Z.add_0_l.
  destruct (Z.ltb_spec (Z.of_nat j) 0); [ lia | ].
  rewrite Nat2Z.id. reflexivity.
Qed.

(** The whole [while] loop, on the features [rest] that sit in the
    geometry from index [fi] on. *)
Lemma initializeLoop_placed polylines vertexSum rest :
  forall fi ti s s' log,
    (forall (j : nat) feature,
        nth_error rest j = Some feature ->
        get (features polylines) (fi + Z.of_nat j) = Some feature) ->
    initializeLoop vertexSum rest fi ti s = Return (s', log) ->
    exists infos obs,
      _trackInfos s' = _trackInfos s ++ infos /\
      _lastObservations s' = _lastObservations s ++ obs /\
      Forall2 (startsAt polylines) infos obs /\
      map (fun o => TRACKID (attributes o)) obs = range ti (length obs) /\
      _numCyclesSinceLastActiveUpdate s' = _numCyclesSinceLastActiveUpdate s /\
      randomCalls s' = (randomCalls s + 2 * length obs)%nat /\
      Forall (fun o => ACTIVE (attributes o) = 0 \/ ACTIVE (attributes o) = 1)
             obs /\
      match log with
      | None => True
      | Some (printedFeature, _) => printedFeature = fi + len rest
      end /\
      (0 <= _idCounter s < 4294967294 ->
       _idCounter s' = (_idCounter s + len obs) mod 4294967294 /\
       forall (k : nat) o,
         nth_error obs k = Some o ->
         OBJECTID (attributes o) = (_idCounter s + Z.of_nat k) mod 4294967294).
Proof.
  induction rest as [ | feature rest IH]; intros fi ti s s' log Hin H;
    cbn [initializeLoop] in H;
    destruct (ti <? trackedAssets (_config s)).
  1, 2, 4: injection H as <- <-; exists [], [];
    rewrite !app_nil_r; unfold len; cbn [length];
    repeat split; try constructor; try lia;
    [ rewrite Z.add_0_r, Z.mod_small; lia
    | intros [ | k] o Hk; discriminate ].
  apply bind_Return in H as [[ti1 s1] [H1 H]].
  unfold placeFeature in H1.
  apply placeTracks_placed in H1
    as (infos & obs & Hi & Ho & Hall & Htrack & Hti & Hn & Hr & Hact & Hid).
  apply IH in H
    as (infos' & obs' & Hi' & Ho' & Hall' & Htrack' & Hn' & Hr' & Hact' & Hlog & Hid').
  2: { intros j f Hj. replace (fi + 1 + Z.of_nat j) with (fi + Z.of_nat (S j)) by lia.
       apply Hin. exact Hj. }
  exists (infos ++ infos'), (obs ++ obs').
  split; [ rewrite Hi', Hi, app_assoc; reflexivity | ].
  split; [ rewrite Ho', Ho, app_assoc; reflexivity | ].
  split.
  { apply Forall2_app; [ | exact Hall' ].
    eapply Forall2_impl; [ | exact Hall ]. cbn beta.
    intros t o (Hfi & path & v & v' & Hp & Hv & Hv' & Hd & Hacc & Hpoint).
    exists feature, path, v, v'. rewrite Hfi.
    split; [ specialize (Hin 0%nat feature eq_refl);
             rewrite Z.add_0_r in Hin; exact Hin | ].
    repeat split; assumption. }
  split.
  { rewrite map_app, length_app, range_app, Htrack, Htrack', Hti.
    unfold len. reflexivity. }
  split; [ congruence | ].
  split; [ rewrite Hr', Hr, length_app; lia | ].
  split; [ apply Forall_app; split; assumption | ].
  split.
  { destruct log as [[printed ?] | ]; [ | exact I ].
    unfold len in *. cbn [length]. lia. }
  intros Hc. destruct (Hid Hc) as [Hcount Hids].
  pose proof (Z.mod_pos_bound (_idCounter s + len obs) 4294967294).
  destruct Hid' as [Hcount' Hids']; [ lia | ].
  split.
  - rewrite Hcount', Hcount, Zplus_mod_idemp_l, len_app. f_equal. lia.
  - intros k o Hk.
    destruct (Nat.lt_ge_cases k (length obs)) as [Hlt | Hge].
    + rewrite nth_error_app1 in Hk by assumption. apply Hids. exact Hk.
    + rewrite nth_error_app2 in Hk by assumption.
      rewrite (Hids' _ _ Hk), Hcount, Zplus_mod_idemp_l.
      f_equal. unfold len. lia.
Qed.

Lemma initialize_placed polylines s s' log :
  initialize polylines s = Return (s', log) ->
  exists infos obs,
    _trackInfos s' = _trackInfos s ++ infos /\
    _lastObservations s' = _lastObservations s ++ obs /\
    Forall2 (startsAt polylines) infos obs /\
    map (fun o => TRACKID (attributes o)) obs = range 0 (length obs) /\
    _numCyclesSinceLastActiveUpdate s' = _numCyclesSinceLastActiveUpdate s /\
    randomCalls s' = (randomCalls s + 2 * length obs)%nat /\
    Forall (fun o => ACTIVE (attributes o) = 0 \/ ACTIVE (attributes o) = 1)
           obs /\
    match log with
    | None => True
    | Some (printedFeature, _) => printedFeature = len (features polylines)
    end /\
    (0 <= _idCounter s < 4294967294 ->
     _idCounter s' = (_idCounter s + len obs) mod 4294967294 /\
     forall (k : nat) o,
       nth_error obs k = Some o ->
       OBJECTID (attributes o) = (_idCounter s + Z.of_nat k) mod 4294967294).
Proof.
  unfold initialize, _initialize. intros H.
  apply (initializeLoop_placed polylines) in H.
  - exact H.
  - intros j feature Hj. rewrite get_from_zero. exact Hj.
Qed.

(** X9 (tracks start on vertices).  After [initialize] on a fresh service
    the track records and the observations pair up one to one, and every
    track sits at the start of a segment that exists in the geometry: the
    record stores the length of that segment and no accumulated distance,
    and the observation is at the segment's first vertex. *)
Theorem tracks_start_on_vertices polylines config s log :
  initialize polylines (new config) = Return (s, log) ->
  Forall2 (startsAt polylines) (_trackInfos s) (_lastObservations s).
Proof.
  intros H.
  apply initialize_placed in H as (infos & obs & Hi & Ho & Hall & _).
  cbn [new _trackInfos _lastObservations app] in Hi, Ho.
  rewrite Hi, Ho. exact Hall.
Qed.

(** X10 (the numbering of a fresh service).  After [initialize] on a fresh
    service the observations carry the [TRACKID]s 0, 1, 2, ... in order
    and the [OBJECTID]s 1, 2, 3, ... (modulo [0xfffffffe]), every [ACTIVE]
    flag is 0 or 1, and two values of [Math.random] were drawn per
    track. *)
Theorem fresh_service_numbering polylines config s log :
  initialize polylines (new config) = Return (s, log) ->
  map (fun o => TRACKID (attributes o)) (_lastObservations s)
  = range 0 (length (_lastObservations s)) /\
  (forall (k : nat) o,
      nth_error (_lastObservations s) k = Some o ->
      OBJECTID (attributes o) = (1 + Z.of_nat k) mod 4294967294) /\
  _idCounter s = (1 + len (_lastObservations s)) mod 4294967294 /\
  Forall (fun o => ACTIVE (attributes o) = 0 \/ ACTIVE (attributes o) = 1)
         (_lastObservations s) /\
  randomCalls s = (2 * length (_lastObservations s))%nat.
Proof.
  intros H.
  apply initialize_placed in H
    as (infos & obs & _ & Ho & _ & Htrack & _ & Hr & Hact & _ & Hid).
  cbn [new _lastObservations _idCounter randomCalls app Nat.add] in Ho, Hr, Hid.
  rewrite Ho. destruct Hid as [Hcount Hids]; [ lia | ].
  repeat split; assumption.
Qed.

(** X11 ([initialize] appends).  [initialize] clears nothing: on a service
    that already has tracks, the old track records and observations stay
    in place and the new ones come after them, numbered from [TRACKID] 0
    again; the page and the tick counter are left as they were. *)
Theorem initialize_appends polylines s s' log :
  initialize polylines s = Return (s', log) ->
  exists infos obs,
    _trackInfos s' = _trackInfos s ++ infos /\
    _lastObservations s' = _lastObservations s ++ obs /\
    length infos = length obs /\
    map (fun o => TRACKID (attributes o)) obs = range 0 (length obs) /\
    _page s' = _page s /\
    _numCyclesSinceLastActiveUpdate s' = _numCyclesSinceLastActiveUpdate s /\
    _polylines s' = Some polylines.
Proof.
  intros H.
  pose proof (initialize_placed _ _ _ _ H)
    as (infos & obs & Hi & Ho & Hall & Htrack & Hn & _).
  unfold initialize, _initialize in H.
  apply initializeLoop_frame in H as (_ & Hp & Hg & _).
  exists infos, obs.
  repeat split; try assumption.
  eapply Forall2_length. exact Hall.
Qed.

(** ** How many tracks the allocator creates *)

Lemma fold_lengths_shift (ps : list Path) :
  forall a,
    fold_left (fun sum path => sum + len path) ps a
    = a + fold_left (fun sum path => sum + len path) ps 0.
Proof.
  induction ps as [ | p ps IH]; intros a; cbn [fold_left]; [ lia | ].
  rewrite IH, (IH (0 + len p)). lia.
Qed.

Lemma sumPolylineVertices_from (fs : list (Feature Polyline)) :
  forall a feature,
    0 <= a ->
    a <= fold_left
           (fun sum f =>
              fold_left (fun sum path => sum + len path)
                        (paths (geometry f)) sum) fs a /\
    (In feature fs ->
     _getNumberOfVertices (geometry feature)
     <= fold_left
          (fun sum f =>
             fold_left (fun sum path => sum + len path)
                       (paths (geometry f)) sum) fs a).
Proof.
  induction fs as [ | f fs IH]; intros a feature Ha; cbn [fold_left].
  - split; [ lia | intros [] ].
  - rewrite fold_lengths_shift.
    pose proof (getNumberOfVertices_nonneg (geometry f)) as Hf.
    unfold _getNumberOfVertices in Hf.
    destruct (IH (a + fold_left (fun sum path => sum + len path)
                                (paths (geometry f)) 0) feature) as [Hge Hin];
      [ lia | ].
    split; [ lia | ].
    intros [-> | Hlater]; [ | apply Hin; assumption ].
    unfold _getNumberOfVertices. lia.
Qed.

(** No feature has more vertices than the geometry. *)
Lemma numberOfVertices_le_sum polylines feature :
  In feature (features polylines) ->
  _getNumberOfVertices (geometry feature) <= _sumPolylineVertices polylines.
Proof.
  intros Hin. unfold _sumPolylineVertices.
  apply (sumPolylineVertices_from (features polylines) 0 feature); [ lia | ].
  assumption.
Qed.

Lemma initializeLoop_bound vertexSum rest :
  Forall (fun feature => _getNumberOfVertices (geometry feature) <= vertexSum)
         rest ->
  forall fi ti s s' log,
    0 <= ti ->
    initializeLoop vertexSum rest fi ti s = Return (s', log) ->
    exists ti',
      len (_trackInfos s') = len (_trackInfos s) + (ti' - ti) /\
      ti' <= Z.max ti (2 * trackedAssets (_config s) - 1).
Proof.
  induction 1 as [ | feature rest Hle _ IH]; intros fi ti s s' log Hti H;
    cbn [initializeLoop] in H;
    destruct (Z.ltb_spec ti (trackedAssets (_config s))) as [Hlt | Hge];
    try (injection H as <- <-; exists ti; split; lia).
  apply bind_Return in H as [[ti1 s1] [H1 H]].
  unfold placeFeature in H1.
  apply placeTracks_spec in H1
    as (infos & _ & Hi & _ & Hli & _ & _ & Hc & _ & _ & Hmost & _).
  assert (Hshare : ti1 - ti <= trackedAssets (_config s)).
  { unfold numOfTracksPerFeature in Hmost.
    destruct (Z.eqb_spec vertexSum 0) as [ | Hsum];
      cbn [loopCount] in Hmost; [ cbn in Hmost; lia | ].
    pose proof (getNumberOfVertices_nonneg (geometry feature)).
    assert (trackedAssets (_config s) * _getNumberOfVertices (geometry feature)
            / vertexSum <= trackedAssets (_config s))
      by (apply Z.div_le_upper_bound; nia).
    lia. }
  pose proof (len_nonneg infos) as Hinfos.
  apply IH in H as (ti' & Hlen & Hbound); [ | lia ].
  exists ti'. rewrite Hc in Hbound. rewrite Hlen, Hi, len_app.
  split; lia.
Qed.

(** X12 (how many tracks).  After [initialize] on a fresh service there are
    as many observations as track records.  There are fewer than twice
    [trackedAssets] of them.  Either there are [trackedAssets] or more and
    nothing is printed, or the features ran out with fewer, and the line
    printed gives the number of features and the number of tracks. *)
Theorem allocation_count polylines config s log :
  initialize polylines (new config) = Return (s, log) ->
  length (_trackInfos s) = length (_lastObservations s) /\
  len (_trackInfos s) <= Z.max 0 (2 * trackedAssets (_config s) - 1) /\
  match log with
  | None => trackedAssets (_config s) <= len (_trackInfos s)
  | Some (printedFeature, printedTracks) =>
    printedFeature = len (features polylines) /\
    printedTracks = len (_trackInfos s) /\
    len (_trackInfos s) < trackedAssets (_config s)
  end.
Proof.
  intros H.
  pose proof (initialize_fresh _ _ _ _ H) as (Hc & _ & _ & Hstep).
  pose proof (initialize_count _ _ _ _ H) as Hcount.
  pose proof (initialize_placed _ _ _ _ H)
    as (infos & obs & _ & _ & _ & _ & _ & _ & _ & Hlog & _).
  unfold initialize, _initialize in H.
  apply initializeLoop_bound in H as (ti' & Hlen & Hbound); [ | | lia ].
  - cbn [with_polylines new _trackInfos _config] in Hlen, Hbound.
    change (len (@nil TrackInfo)) with 0 in Hlen.
    split; [ unfold len in Hstep; lia | ].
    split; [ rewrite Hc; lia | ].
    destruct log as [[printedFeature printedTracks] | ]; [ | assumption ].
    destruct Hcount as [Hprinted Hfew]. repeat split; assumption.
  - apply Forall_forall. intros feature Hin.
    apply numberOfVertices_le_sum. assumption.
Qed.

(** ** A service that never faults *)

Lemma startsAt_onSegment polylines info o :
  startsAt polylines info o -> onSegment polylines info.
Proof.
  intros (feature & path & v & v' & Hf & Hp & Hv & Hv' & _).
  apply get_Some in Hv. apply get_Some in Hv'.
  exists feature. split; [ assumption | ].
  exists path. repeat split; [ assumption | lia | lia ].
Qed.

Lemma startsAt_lengthIsCurrent polylines info o :
  startsAt polylines info o -> lengthIsCurrent polylines info.
Proof.
  intros (feature & path & v & v' & Hf & Hp & Hv & Hv' & Hd & _).
  exists feature, path, v, v'. repeat split; assumption.
Qed.

Lemma Forall2_Forall_left {A B : Type} (R : A -> B -> Prop) (P : A -> Prop)
    (l : list A) (l' : list B) :
  (forall a b, R a b -> P a) -> Forall2 R l l' -> Forall P l.
Proof.
  intros HRP. induction 1; constructor; eauto.
Qed.

Lemma initialize_serving polylines config s log :
  initialize polylines (new config) = Return (s, log) ->
  serving polylines (mergeConfig _defaults config) s.
Proof.
  intros H.
  pose proof (initialize_fresh _ _ _ _ H) as (Hc & Hp & Hg & Hstep).
  apply initialize_placed in H as (infos & obs & Hi & Ho & Hall & _).
  cbn [new _trackInfos _lastObservations app] in Hi, Ho.
  unfold serving. rewrite Hi, Ho, Hp.
  repeat split; try assumption; try lia.
  - eapply Forall2_Forall_left; [ | exact Hall ].
    intros t o. apply startsAt_onSegment.
  - apply Forall2_length in Hall. lia.
Qed.

Lemma next_serving polylines config s :
  everyPathUsable polylines ->
  0 <= trackedAssets config ->
  0 <= pageSize config ->
  Z.min (pageSize config) (trackedAssets config) <= 4294967295 ->
  serving polylines config s ->
  exists out s', next s = Return (out, s') /\ serving polylines config s'.
Proof.
  intros Hall HT Hp Hmin (Hc & Hg & Hon & Hroom & Hpage & Hin).
  unfold next. rewrite nextPage_spec, Hc, Hg.
  cbn [with_page _config].
  set (start := _page s * pageSize config).
  set (end_ := Z.min (start + pageSize config) (trackedAssets config)).
  set (page' := if trackedAssets config <=? (_page s + 1) * pageSize config
                then 0 else _page s + 1).
  assert (Hstart : 0 <= start) by (unfold start; nia).
  assert (Hsize : 0 <= end_ - start <= 4294967295)
    by (unfold end_; fold start in Hin; lia).
  assert (Hpage' : 0 <= page' /\
                   (page' = 0 \/ page' * pageSize config < trackedAssets config)).
  { unfold page'. destruct (Z.leb_spec (trackedAssets config)
                                       ((_page s + 1) * pageSize config)); lia. }
  unfold newArray.
  destruct (Z.ltb_spec (end_ - start) 0) as [ | _]; [ lia | ].
  destruct (Z.ltb_spec 4294967295 (end_ - start)) as [ | _]; [ lia | ].
  cbn [orb bind].
  destruct (start =? 0).
  - destruct (updatePositions_returns polylines (with_page s page'))
      as [s1 H1]; [ assumption | assumption | ].
    rewrite H1. cbn [bind]. do 2 eexists. split; [ reflexivity | ].
    pose proof (updatePositions_frame _ _ _ H1) as (_ & _ & Hc1 & Hp1 & Hg1).
    pose proof (updatePositions_lengths _ _ _ H1) as (Hlen & Hlen' & _).
    pose proof (updatePositions_trackInfos _ _ _ H1) as [s1' Hloop].
    apply (updateLoop_onSegment _ _ Hall) in Hloop.
    cbn [with_page _config _page _polylines _trackInfos _lastObservations]
      in Hc1, Hp1, Hg1, Hlen, Hlen'.
    unfold serving. rewrite Hc1, Hp1, Hg1.
    repeat split; try assumption; try lia; apply Hpage'.
  - cbn [bind]. do 2 eexists. split; [ reflexivity | ].
    unfold serving. cbn [with_page _config _page _polylines _trackInfos
                         _lastObservations].
    repeat split; try assumption; apply Hpage'.
Qed.

(** X13 (the service never faults).  A fresh service is initialized on a
    geometry whose paths all have two vertices or more; [trackedAssets]
    and [pageSize] are not negative, and the smaller of the two is a valid
    array length.  Then every call of [next] returns, however many are
    made. *)
Theorem service_never_faults polylines config s log (n : nat) :
  initialize polylines (new config) = Return (s, log) ->
  everyPathUsable polylines ->
  0 <= trackedAssets (_config s) ->
  0 <= pageSize (_config s) ->
  Z.min (pageSize (_config s)) (trackedAssets (_config s)) <= 4294967295 ->
  exists outs s', nextN n s = Return (outs, s') /\ length outs = n.
Proof.
  intros H Hall HT Hp Hmin.
  apply initialize_serving in H.
  assert (Hc : _config s = mergeConfig _defaults config) by apply H.
  rewrite Hc in HT, Hp, Hmin. clear Hc.
  revert s H. induction n as [ | n IH]; intros s Hs.
  - exists [], s. split; reflexivity.
  - destruct (next_serving _ _ _ Hall HT Hp Hmin Hs) as (out & s1 & H1 & Hs1).
    destruct (IH s1 Hs1) as (outs & s' & Hrest & Hlen).
    exists (out :: outs), s'. cbn [nextN]. rewrite H1. cbn [bind].
    rewrite Hrest. cbn [bind length]. split; congruence.
Qed.

(** ** Features of a single path *)

Lemma singlePaths_feature polylines feature i :
  singlePaths polylines ->
  get (features polylines) i = Some feature ->
  len (paths (geometry feature)) = 1.
Proof.
  unfold singlePaths. intros Hall Hf.
  apply get_nth_error, nth_error_In in Hf.
  rewrite Forall_forall in Hall. exact (Hall feature Hf).
Qed.

(** On features of one path the length a record stores stays the length
    of the segment it points at. *)
Lemma updateTrack_lengthIsCurrent polylines index info s info' s' :
  singlePaths polylines ->
  lengthIsCurrent polylines info ->
  updateTrack (Some polylines) index info s = Return (info', s') ->
  lengthIsCurrent polylines info'.
Proof.
  intros Hone (feature0 & path0 & v0 & v0' & Hf0 & Hp0 & Hv0 & Hv0' & Hd) H.
  apply updateTrack_record in H
    as (feature & path & v & v' & Hf & Hp & Hv & Hv' & Hfi & Hcases).
  cbn zeta in Hcases.
  rewrite Hf in Hf0. injection Hf0 as <-.
  rewrite Hp in Hp0. injection Hp0 as <-.
  rewrite Hv in Hv0. injection Hv0 as <-.
  rewrite Hv' in Hv0'. injection Hv0' as <-.
  unfold lengthIsCurrent. rewrite Hfi.
  destruct Hcases
    as [(_ & Hpi & Hvi & Hlen & _)
       | [(_ & _ & Hpi & Hvi & _ & a & b & Ha & Hb & Hlen)
         | (_ & _ & Hpi & Hvi & _ & a & b & Ha & Hb & Hlen)]].
  - exists feature, path, v, v'. rewrite Hpi, Hvi, Hlen.
    repeat split; assumption.
  - exists feature, path, a, b. rewrite Hpi, Hvi.
    repeat split; assumption.
  - pose proof (singlePaths_feature _ _ _ Hone Hf) as Hsingle.
    apply get_Some in Hp as Hrange.
    assert (Hzero : pathIndex info = 0) by lia.
    rewrite Hsingle, Hzero in Hpi. cbn in Hpi.
    rewrite Hzero in Hp.
    exists feature, path, a, b. rewrite Hpi, Hvi.
    repeat split; assumption.
Qed.

Lemma updateLoop_lengthIsCurrent polylines infos :
  singlePaths polylines ->
  Forall (lengthIsCurrent polylines) infos ->
  forall index s infos' s',
    updateLoop (Some polylines) infos index s = Return (infos', s') ->
    Forall (lengthIsCurrent polylines) infos'.
Proof.
  intros Hone. induction 1 as [ | info rest Hinfo _ IH];
    intros index s infos' s' H.
  - injection H as <- <-. constructor.
  - cbn [updateLoop] in H.
    apply bind_Return in H as [[info1 s1] [H1 H]].
    apply bind_Return in H as [[rest1 s2] [H2 H]].
    injection H as <- <-. constructor.
    + eapply updateTrack_lengthIsCurrent; eassumption.
    + eapply IH. exact H2.
Qed.

(** X14 (features of a single path).  When every feature of the geometry
    has exactly one path, the segment length in a track record is, after
    [initialize] and after any number of ticks, the length of the segment
    the record points at. *)
Theorem stored_length_stays_current polylines config s log (n : nat) s' :
  singlePaths polylines ->
  initialize polylines (new config) = Return (s, log) ->
  ticks n (Some polylines) s = Return s' ->
  Forall (lengthIsCurrent polylines) (_trackInfos s').
Proof.
  intros Hone H Hticks.
  assert (Hstart : Forall (lengthIsCurrent polylines) (_trackInfos s)).
  { apply initialize_placed in H as (infos & obs & Hi & _ & Hall & _).
    cbn [new _trackInfos app] in Hi. rewrite Hi.
    eapply Forall2_Forall_left; [ | exact Hall ].
    intros t o. apply startsAt_lengthIsCurrent. }
  clear H. revert s Hstart Hticks.
  induction n as [ | n IH]; intros s Hstart Hticks.
  - injection Hticks as <-. exact Hstart.
  - cbn [ticks] in Hticks. apply bind_Return in Hticks as [s1 [H1 Hticks]].
    apply (IH s1); [ | exact Hticks ].
    apply updatePositions_trackInfos in H1 as [s1' Hloop].
    eapply updateLoop_lengthIsCurrent; eassumption.
Qed.

(** ** Where a tick puts a track *)

Lemma updateTrack_position polylines index info s info' s' :
  updateTrack (Some polylines) index info s = Return (info', s') ->
  exists feature path v v' o,
    get (features polylines) (featureIndex info) = Some feature /\
    get (paths (geometry feature)) (pathIndex info) = Some path /\
    get path (vertexIndex info) = Some v /\
    get path (vertexIndex info + 1) = Some v' /\
    get (_lastObservations s') index = Some o /\
    point o
    = pointBetween v v' ((accumulatedDistance info + speed info)
                         / distanceToNextVertex info)%float /\
    HEADING (attributes o)
    = getAzimuth (fst v' - fst v)%float (snd v' - snd v)%float.
Proof.
  intros H.
  pose proof (updateTrack_observation _ _ _ _ _ _ H)
    as (old & new & Hold & Hobs & _).
  apply get_Some in Hold as Hrange.
  unfold updateTrack in H. cbn [deref bind] in H.
  repeat bind_step H.
  all: injection H as <- <-.
  all: repeat match goal with
         | E : deref _ = Return _ |- _ => apply deref_Return in E
         end.
  all: host_calls.
  all: match goal with
       | Hact : (if ?c then _ else _) = (_, _) |- _ =>
           destruct c;
           [ unfold getIsActive, MathRandom in Hact; injection Hact as <- <-
           | injection Hact as <- <- ]
       end.
  all: do 5 eexists.
  all: do 4 (split; [ eassumption | ]).
  all: cbn [with_lastObservations with_idCounter with_randomCalls
            _lastObservations].
  all: split; [ apply get_replace_same; assumption | ].
  all: split; reflexivity.
Qed.

(** The [k]-th turn of the loop is the update of the [k]-th track, and
    what it writes to the track's observation is what the loop leaves
    there. *)
Lemma updateLoop_nth polylines infos :
  forall index s infos' s' (k : nat) info,
    0 <= index ->
    updateLoop polylines infos index s = Return (infos', s') ->
    nth_error infos k = Some info ->
    exists info' before after,
      nth_error infos' k = Some info' /\
      updateTrack polylines (index + Z.of_nat k) info before
      = Return (info', after) /\
      get (_lastObservations s') (index + Z.of_nat k)
      = get (_lastObservations after) (index + Z.of_nat k).
Proof.
  induction infos as [ | first rest IH];
    intros index s infos' s' k info Hindex H Hk.
  - destruct k; discriminate.
  - cbn [updateLoop] in H.
    apply bind_Return in H as [[first1 s1] [H1 H]].
    apply bind_Return in H as [[rest1 s2] [H2 H]].
    injection H as <- <-.
    destruct k as [ | k]; cbn [nth_error] in Hk.
    + injection Hk as <-. exists first1, s, s1.
      cbn [nth_error Z.of_nat]. rewrite Z.add_0_r.
      split; [ reflexivity | ]. split; [ assumption | ].
      apply updateLoop_observations in H2 as (_ & _ & _ & _ & _ & Hbelow);
        [ | lia ].
      apply Hbelow. lia.
    + destruct (IH (index + 1) s1 rest1 s2 k info) as
        (info' & before & after & Hnth & Hupd & Hget); try assumption; [ lia | ].
      exists info', before, after. cbn [nth_error].
      replace (index + Z.of_nat (S k)) with (index + 1 + Z.of_nat k) by lia.
      repeat split; assumption.
Qed.

Lemma updatePositions_nth polylines s s' (k : nat) info :
  _updatePositions polylines s = Return s' ->
  nth_error (_trackInfos s) k = Some info ->
  exists info' before after,
    nth_error (_trackInfos s') k = Some info' /\
    updateTrack polylines (Z.of_nat k) info before = Return (info', after) /\
    nth_error (_lastObservations s') k
    = nth_error (_lastObservations after) k.
Proof.
  intros H Hk. unfold _updatePositions in H.
  apply bind_Return in H as [[infos s1] [H1 H]].
  cbn [with_numCycles _trackInfos] in H1.
  destruct (updateLoop_nth _ _ _ _ _ _ k info (Z.le_refl 0) H1 Hk)
    as (info' & before & after & Hnth & Hupd & Hget).
  rewrite !get_from_zero in Hget. rewrite Z.add_0_l in Hupd.
  exists info', before, after.
  assert (Hs' : _trackInfos s' = infos /\
                _lastObservations s' = _lastObservations s1).
  { injection H as <-.
    destruct (NumCyclesBetweenActiveUpdate <=? _); split; reflexivity. }
  destruct Hs' as [Hi Ho]. rewrite Hi, Ho. repeat split; assumption.
Qed.

(** X15 (a tick interpolates).  A tick puts the observation of every track
    on the segment its record pointed at before the tick, at the fraction
    [(accumulatedDistance + speed) / distanceToNextVertex] of the way from
    the first vertex to the second, and sets [HEADING] from the direction
    of that segment. *)
Theorem tick_interpolates polylines s s' (k : nat) info :
  _updatePositions (Some polylines) s = Return s' ->
  nth_error (_trackInfos s) k = Some info ->
  exists feature path v v' o,
    get (features polylines) (featureIndex info) = Some feature /\
    get (paths (geometry feature)) (pathIndex info) = Some path /\
    get path (vertexIndex info) = Some v /\
    get path (vertexIndex info + 1) = Some v' /\
    nth_error (_lastObservations s') k = Some o /\
    point o
    = pointBetween v v' ((accumulatedDistance info + speed info)
                         / distanceToNextVertex info)%float /\
    HEADING (attributes o)
    = getAzimuth (fst v' - fst v)%float (snd v' - snd v)%float.
Proof.
  intros H Hk.
  destruct (updatePositions_nth _ _ _ _ _ H Hk)
    as (info' & before & after & _ & Hupd & Hget).
  apply updateTrack_position in Hupd
    as (feature & path & v & v' & o & Hf & Hp & Hv & Hv' & Ho & Hpoint & Hhead).
  exists feature, path, v, v', o.
  rewrite Hget. apply get_nth_error in Ho. rewrite Nat2Z.id in Ho.
  repeat split; assumption.
Qed.

(** X16 (a tick moves a track one step at most).  A tick leaves a track on
    its feature.  When the transition test does not fire, the record
    keeps its segment and adds the speed to the accumulated distance.
    When it fires, the accumulated distance is set to 0 and the record
    goes to the next vertex of its path, or, when that vertex is the last
    of the path, to vertex 0 of the next path of the feature, of path 0
    after the last path. *)
Theorem tick_moves_one_step polylines s s' (k : nat) info :
  _updatePositions (Some polylines) s = Return s' ->
  nth_error (_trackInfos s) k = Some info ->
  exists info' feature path,
    nth_error (_trackInfos s') k = Some info' /\
    get (features polylines) (featureIndex info) = Some feature /\
    get (paths (geometry feature)) (pathIndex info) = Some path /\
    featureIndex info' = featureIndex info /\
    if (distanceToNextVertex info
        <=? accumulatedDistance info + speed info + speed info)%float
    then
      accumulatedDistance info' = 0%float /\
      if len path - 1 <=? vertexIndex info + 1
      then
        vertexIndex info' = 0 /\
        pathIndex info'
        = (if pathIndex info <? len (paths (geometry feature)) - 1
           then pathIndex info + 1 else 0)
      else
        vertexIndex info' = vertexIndex info + 1 /\
        pathIndex info' = pathIndex info
    else
      pathIndex info' = pathIndex info /\
      vertexIndex info' = vertexIndex info /\
      distanceToNextVertex info' = distanceToNextVertex info /\
      accumulatedDistance info'
      = (accumulatedDistance info + speed info)%float.
Proof.
  intros H Hk.
  destruct (updatePositions_nth _ _ _ _ _ H Hk)
    as (info' & before & after & Hnth & Hupd & _).
  apply updateTrack_record in Hupd
    as (feature & path & v & v' & Hf & Hp & _ & _ & Hfi & Hcases).
  cbn zeta in Hcases.
  exists info', feature, path.
  do 4 (split; [ assumption | ]).
  destruct Hcases
    as [(-> & Hpi & Hvi & Hlen & Hacc)
       | [(-> & Hmid & Hpi & Hvi & Hacc & _)
         | (-> & Hend & Hpi & Hvi & Hacc & _)]].
  - repeat split; assumption.
  - split; [ assumption | ].
    destruct (Z.leb_spec (len path - 1) (vertexIndex info + 1)); [ lia | ].
    split; assumption.
  - split; [ assumption | ].
    destruct (Z.leb_spec (len path - 1) (vertexIndex info + 1)); [ | lia ].
    split; assumption.
Qed.

(** ** What a page holds *)

Lemma replace_middle {A : Type} (pre : list A) (x v : A) (post : list A) :
  replace (pre ++ x :: post) (length pre) v = pre ++ v :: post.
Proof.
  induction pre as [ | a pre IH]; cbn [replace app length].
  - reflexivity.
  - rewrite IH. reflexivity.
Qed.

(** From [2^32 - 1] on the copy loop writes properties, not elements. *)
Lemma copyPage_named (lastObservations : list PointFeature) (n : nat) :
  forall (i : Z) (outFeatures : list (option PointFeature)),
    4294967295 <= i ->
    copyPage n i lastObservations outFeatures = outFeatures.
Proof.
  induction n as [ | n IH]; intros i outFeatures Hi; cbn [copyPage];
    [ reflexivity | ].
  unfold arraySet.
  destruct (Z.ltb_spec i 0) as [ | _]; [ lia | ].
  destruct (Z.ltb_spec 4294967294 i) as [_ | ]; [ | lia ].
  apply IH. lia.
Qed.

(** The first [n] turns of the copy loop, and then the others. *)
Lemma copyPage_split (lastObservations : list PointFeature) (n m : nat) :
  forall (i : Z) (outFeatures : list (option PointFeature)),
    copyPage (n + m) i lastObservations outFeatures
    = copyPage m (i + Z.of_nat n) lastObservations
               (copyPage n i lastObservations outFeatures).
Proof.
  induction n as [ | n IH]; intros i outFeatures; cbn [Nat.add copyPage].
  - rewrite Z.add_0_r. reflexivity.
  - rewrite IH. f_equal. lia.
Qed.

(** The copy loop on an array whose slots from [i] on are empty: it fills
    the slots it has, and goes on past the end of the array. *)
Lemma copyPage_from (lastObservations : list PointFeature) (n : nat) :
  forall (i : Z) (pre : list (option PointFeature)) (k : nat),
    len pre = i ->
    i + Z.of_nat n <= 4294967295 ->
    copyPage n i lastObservations (pre ++ repeat None k)
    = pre ++ map (get lastObservations) (range i n) ++ repeat None (k - n).
Proof.
  induction n as [ | n IH]; intros i pre k Hpre Hmax.
  - cbn [copyPage range seq map app]. rewrite Nat.sub_0_r. reflexivity.
  - cbn [copyPage]. rewrite range_cons. cbn [map app].
    pose proof (len_nonneg pre) as Hnonneg.
    assert (Hwrite : arraySet (pre ++ repeat None k) i (get lastObservations i)
                     = (pre ++ [get lastObservations i]) ++ repeat None (k - 1)).
    { unfold arraySet.
      destruct (Z.ltb_spec i 0) as [ | _]; [ lia | ].
      destruct (Z.ltb_spec 4294967294 i) as [ | _]; [ lia | ].
      destruct k as [ | k]; cbn [repeat Nat.sub].
      - rewrite !app_nil_r.
        destruct (Z.ltb_spec i (len pre)) as [ | _]; [ lia | ].
        replace (i - len pre) with 0 by lia. reflexivity.
      - rewrite len_app.
        match goal with
        | |- context [i <? ?bound] =>
            destruct (Z.ltb_spec i bound) as [_ | Hout];
            [ | unfold len in *; cbn [length] in Hout; lia ]
        end.
        replace (Z.to_nat i) with (length pre) by (unfold len in Hpre; lia).
        rewrite replace_middle, <- app_assoc.
        cbn [app]. rewrite Nat.sub_0_r. reflexivity. }
    rewrite Hwrite, IH.
    + rewrite <- app_assoc. cbn [app].
      replace (k - 1 - n)%nat with (k - S n)%nat by lia. reflexivity.
    + rewrite len_app. unfold len at 2. cbn [length]. lia.
    + lia.
Qed.

(** The copy loop that starts past the end of the array. *)
Lemma copyPage_past (lastObservations : list PointFeature) (n : nat)
    (i : Z) (outFeatures : list (option PointFeature)) :
  len outFeatures <= i ->
  i + Z.of_nat (S n) <= 4294967295 ->
  copyPage (S n) i lastObservations outFeatures
  = outFeatures ++ repeat None (Z.to_nat (i - len outFeatures))
    ++ map (get lastObservations) (range i (S n)).
Proof.
  intros Hpast Hmax. pose proof (len_nonneg outFeatures) as Hnonneg.
  cbn [copyPage]. rewrite range_cons. cbn [map].
  assert (Hwrite : arraySet outFeatures i (get lastObservations i)
                   = (outFeatures
                      ++ repeat None (Z.to_nat (i - len outFeatures))
                      ++ [get lastObservations i]) ++ repeat None 0).
  { unfold arraySet.
    destruct (Z.ltb_spec i 0) as [ | _]; [ lia | ].
    destruct (Z.ltb_spec 4294967294 i) as [ | _]; [ lia | ].
    destruct (Z.ltb_spec i (len outFeatures)) as [ | _]; [ lia | ].
    cbn [repeat]. rewrite app_nil_r. reflexivity. }
  rewrite Hwrite, copyPage_from.
  - cbn [Nat.sub repeat]. rewrite app_nil_r, <- !app_assoc. reflexivity.
  - rewrite !len_app. unfold len in *. rewrite repeat_length.
    cbn [length]. lia.
  - lia.
Qed.

(** One turn or more of the copy loop over array indices, on an array of
    empty slots that ends no later than the loop does. *)
Lemma copyPage_layout (lastObservations : list PointFeature)
    (n count : nat) (start : Z) :
  0 <= start ->
  start + Z.of_nat (S n) <= 4294967295 ->
  Z.of_nat count <= start + Z.of_nat (S n) ->
  copyPage (S n) start lastObservations (repeat None count)
  = repeat None (Z.to_nat start)
    ++ map (get lastObservations) (range start (S n)).
Proof.
  intros Hstart Hmax Hcount.
  destruct (Z.le_gt_cases (Z.of_nat count) start) as [Hpast | Hin].
  - rewrite copyPage_past
      by (try (unfold len; rewrite repeat_length); lia).
    unfold len. rewrite repeat_length, app_assoc, <- repeat_app.
    replace (count + Z.to_nat (start - Z.of_nat count))%nat
      with (Z.to_nat start) by lia.
    reflexivity.
  - replace (repeat (@None PointFeature) count)
      with (repeat (@None PointFeature) (Z.to_nat start)
            ++ repeat None (count - Z.to_nat start))
      by (rewrite <- repeat_app; f_equal; lia).
    rewrite copyPage_from
      by (try (unfold len; rewrite repeat_length); lia).
    replace (count - Z.to_nat start - S n)%nat with 0%nat by lia.
    cbn [repeat]. rewrite app_nil_r. reflexivity.
Qed.

(** X17 (what a page holds).  A request that returns answers with the
    observations as they are after the request, at their own indices.
    Of the indices [start] to [end - 1], with
    [start = page * pageSize], those below [2^32 - 1] are array
    indices.  When there is one, the array starts with [start] empty
    slots and then holds the observations from [start] to the last such
    index, an index past the last observation giving an empty slot; the
    first page of a cycle, with [start = 0], is the observations 0 to
    [end - 1].  When there is none, because the range is empty or [start]
    is [2^32 - 1] or more, the array is the [end - start] empty slots it
    was created with. *)
Theorem page_layout (s s' : MockService) (out : list (option PointFeature)) :
  0 <= _page s ->
  next s = Return (out, s') ->
  let start := _page s * pageSize (_config s) in
  let end_ := Z.min (start + pageSize (_config s)) (trackedAssets (_config s)) in
  let written := Z.min end_ 4294967295 - start in
  out = if written <=? 0
        then repeat None (Z.to_nat (end_ - start))
        else repeat None (Z.to_nat start)
             ++ map (get (_lastObservations s'))
                    (range start (Z.to_nat written)).
Proof.
  intros Hpage H start end_ written.
  unfold next in H. rewrite nextPage_spec in H.
  cbn [with_page _config _polylines] in H. fold start end_ in H.
  apply bind_Return in H as [array [Harray H]].
  apply bind_Return in H as [s1 [Htick H]].
  injection H as <- <-.
  unfold newArray in Harray.
  destruct (Z.ltb_spec (end_ - start) 0) as [ | Hcount];
    [ discriminate Harray | ].
  destruct (Z.ltb_spec 4294967295 (end_ - start)) as [ | Hsmall];
    [ discriminate Harray | ].
  injection Harray as <-.
  assert (Hstart : 0 <= start) by (unfold start, end_ in *; nia).
  destruct (Z.leb_spec written 0) as [Hnone | Hsome].
  - destruct (Z.eq_dec (end_ - start) 0) as [Hempty | Hmore].
    + rewrite Hempty. reflexivity.
    + apply copyPage_named. unfold written in Hnone. lia.
  - replace (Z.to_nat (end_ - start))
      with (Z.to_nat written + Z.to_nat (end_ - start - written))%nat
      at 1 by (unfold written in *; lia).
    rewrite copyPage_split.
    assert (Hinner :
              copyPage (Z.to_nat written) start (_lastObservations s1)
                       (repeat None (Z.to_nat (end_ - start)))
              = repeat None (Z.to_nat start)
                ++ map (get (_lastObservations s1))
                       (range start (Z.to_nat written))).
    { destruct (Z.to_nat written) as [ | n] eqn:Hn; [ lia | ].
      apply copyPage_layout; unfold written in *; lia. }
    rewrite Hinner.
    destruct (Z.eq_dec (end_ - start - written) 0) as [Hall | Hrest].
    + rewrite Hall. reflexivity.
    + apply copyPage_named. unfold written in *. lia.
Qed.

(** ** How a request fails *)

Lemma updateTrack_throws polylines index info s e :
  updateTrack polylines index info s = Throw e -> e = TypeError.
Proof.
  unfold updateTrack, deref. intros H.
  repeat match type of H with
         | context [match ?o with Some _ => _ | None => _ end] =>
             destruct o; cbn [bind] in H
         | context [let '(_, _) := ?p in _] => destruct p
         | context [if ?c then _ else _] => destruct c; cbn [bind] in H
         end.
  all: first [ discriminate H | injection H as <-; reflexivity ].
Qed.

Lemma updateLoop_throws polylines infos :
  forall index s e,
    updateLoop polylines infos index s = Throw e -> e = TypeError.
Proof.
  induction infos as [ | info rest IH]; intros index s e H;
    cbn [updateLoop] in H; [ discriminate H | ].
  destruct (updateTrack polylines index info s) as [[info1 s1] | e1] eqn:H1;
    cbn [bind] in H.
  - destruct (updateLoop polylines rest (index + 1) s1) as [[rest1 s2] | e2]
      eqn:H2; cbn [bind] in H; [ discriminate H | ].
    injection H as <-. exact (IH _ _ _ H2).
  - injection H as <-. exact (updateTrack_throws _ _ _ _ _ H1).
Qed.

Lemma updatePositions_throws polylines s e :
  _updatePositions polylines s = Throw e -> e = TypeError.
Proof.
  unfold _updatePositions. intros H.
  match type of H with
  | bind ?r _ = _ => destruct r as [[infos s1] | e1] eqn:H1; cbn [bind] in H
  end.
  - discriminate H.
  - injection H as <-. exact (updateLoop_throws _ _ _ _ _ H1).
Qed.

(** X18 (when a request throws RangeError).  A request throws
    [RangeError] exactly when the length [end - start] handed to
    [new Array] is negative or above [2^32 - 1].  The length is negative
    exactly when [pageSize] is negative or [trackedAssets] is below
    [start]: every request of a service with a negative [pageSize] throws,
    and so does the request for page 0 of a service with a negative
    [trackedAssets]. *)
Theorem next_RangeError_iff (s : MockService) :
  let start := _page s * pageSize (_config s) in
  let end_ := Z.min (start + pageSize (_config s)) (trackedAssets (_config s)) in
  (next s = Throw RangeError
   <-> end_ - start < 0 \/ 4294967295 < end_ - start) /\
  (end_ - start < 0
   <-> pageSize (_config s) < 0 \/ trackedAssets (_config s) < start).
Proof.
  intros start end_. split; [ | unfold end_; lia ].
  unfold next. rewrite nextPage_spec.
  cbn [with_page _config _polylines]. fold start end_.
  unfold newArray.
  destruct (Z.ltb_spec (end_ - start) 0) as [Hneg | Hnonneg]; cbn [orb bind].
  - split; [ intros _; left; exact Hneg | reflexivity ].
  - destruct (Z.ltb_spec 4294967295 (end_ - start)) as [Hbig | Hsmall];
      cbn [bind].
    + split; [ intros _; right; exact Hbig | reflexivity ].
    + split; [ | lia ].
      intros H.
      match type of H with
      | bind ?r _ = _ => destruct r as [s1 | e1] eqn:H1; cbn [bind] in H
      end; [ discriminate H | ].
      injection H as ->.
      destruct (start =? 0); [ | discriminate H1 ].
      apply updatePositions_throws in H1. discriminate H1.
Qed.

(** ** The page counter and the simulator *)

Lemma with_page_twice (s : MockService) (v w : Z) :
  with_page (with_page s v) w = with_page s w.
Proof. reflexivity. Qed.

Lemma updateTrack_page polylines index info s v :
  updateTrack polylines index info (with_page s v)
  = ('(info', s') <- updateTrack polylines index info s ;;
     Return (info', with_page s' v)).
Proof.
  unfold updateTrack, deref, _createId, getIsActive, MathRandom.
  cbn [with_page with_idCounter with_randomCalls with_lastObservations
       _idCounter _page _config _lastObservations _trackInfos _polylines
       _numCyclesSinceLastActiveUpdate randomCalls bind].
  repeat match goal with
         | |- context [match ?o with Some _ => _ | None => _ end] =>
             destruct o; cbn [bind]
         | |- context [if ?c then _ else _] => destruct c; cbn [bind]
         | |- context [let '(_, _) := ?p in _] => destruct p; cbn [bind]
         end.
  all: cbn [bind]; reflexivity.
Qed.

Lemma updateLoop_page polylines infos :
  forall index s v,
    updateLoop polylines infos index (with_page s v)
    = ('(infos', s') <- updateLoop polylines infos index s ;;
       Return (infos', with_page s' v)).
Proof.
  induction infos as [ | info rest IH]; intros index s v; cbn [updateLoop].
  - reflexivity.
  - rewrite updateTrack_page.
    destruct (updateTrack polylines index info s) as [[info1 s1] | e1];
      cbn [bind]; [ | reflexivity ].
    rewrite IH.
    destruct (updateLoop polylines rest (index + 1) s1) as [[rest1 s2] | e2];
      reflexivity.
Qed.

Lemma updatePositions_page polylines s v :
  _updatePositions polylines (with_page s v)
  = (s' <- _updatePositions polylines s ;; Return (with_page s' v)).
Proof.
  unfold _updatePositions.
  cbn [with_page _numCyclesSinceLastActiveUpdate].
  change (with_numCycles (with_page s v) ?n)
    with (with_page (with_numCycles s n) v).
  change (_trackInfos (with_page ?t v)) with (_trackInfos t).
  rewrite updateLoop_page.
  destruct (updateLoop _ _ _ _) as [[infos s1] | e1];
    cbn [bind]; [ | reflexivity ].
  cbn [with_page with_trackInfos _numCyclesSinceLastActiveUpdate].
  destruct (NumCyclesBetweenActiveUpdate <=? _); reflexivity.
Qed.

Lemma ticks_page polylines (n : nat) :
  forall s v,
    ticks n polylines (with_page s v)
    = (s' <- ticks n polylines s ;; Return (with_page s' v)).
Proof.
  induction n as [ | n IH]; intros s v; cbn [ticks].
  - reflexivity.
  - rewrite updatePositions_page.
    destruct (_updatePositions polylines s) as [s1 | e1]; cbn [bind];
      [ | reflexivity ].
    apply IH.
Qed.

(** X19 (a page size of 0).  With [pageSize = 0] and [trackedAssets]
    positive, [start] is 0 on every request: every request runs the
    simulator and answers with an empty array, and the page counter goes
    up by one each time and never returns to 0.  [n] requests leave the
    service as [n] ticks do, but for the page counter. *)
Theorem zero_page_size (n : nat) :
  forall s outs s',
    pageSize (_config s) = 0 ->
    0 < trackedAssets (_config s) ->
    nextN n s = Return (outs, s') ->
    outs = repeat [] n /\
    exists t,
      ticks n (_polylines s) s = Return t /\
      s' = with_page t (_page s + Z.of_nat n).
Proof.
  induction n as [ | n IH]; intros s outs s' Hsize HT H; cbn [nextN] in H.
  - injection H as <- <-. split; [ reflexivity | ].
    exists s. split; [ reflexivity | ].
    rewrite Z.add_0_r, with_page_same. reflexivity.
  - apply bind_Return in H as [[out s1] [Hnext H]].
    apply bind_Return in H as [[outs1 s2] [Hrest H]].
    injection H as <- <-.
    unfold next in Hnext. rewrite nextPage_spec, Hsize in Hnext.
    cbn [with_page _config _polylines] in Hnext.
    rewrite !Z.mul_0_r, Z.add_0_l, Z.sub_0_r in Hnext.
    destruct (Z.leb_spec (trackedAssets (_config s)) 0) as [ | _]; [ lia | ].
    rewrite Z.min_l in Hnext by lia.
    cbn [newArray Z.ltb Z.compare orb bind Z.eqb Z.to_nat repeat copyPage]
      in Hnext.
    rewrite updatePositions_page in Hnext.
    destruct (_updatePositions (_polylines s) s) as [t1 | e1] eqn:Htick;
      cbn [bind] in Hnext; [ | discriminate Hnext ].
    injection Hnext as <- <-.
    apply updatePositions_frame in Htick as Hframe.
    destruct Hframe as (_ & _ & Hconfig & Hpage & Hpoly).
    apply IH in Hrest as (Houts & t & Hticks & Hs');
      cbn [with_page _config]; rewrite ?Hconfig; try assumption.
    cbn [with_page _polylines _page] in Hticks, Hs'.
    rewrite Hpoly, ticks_page in Hticks.
    destruct (ticks n (_polylines s) t1) as [t2 | e2] eqn:Hticks2;
      cbn [bind] in Hticks; [ | discriminate Hticks ].
    injection Hticks as <-.
    split; [ cbn [repeat]; rewrite Houts; reflexivity | ].
    exists t2. cbn [ticks]. rewrite Htick. cbn [bind]. rewrite Hticks2.
    split; [ reflexivity | ].
    rewrite Hs', with_page_twice. f_equal. lia.
Qed.

(** ** A geometry without vertices *)

Lemma initializeLoop_no_vertices (rest : list (Feature Polyline)) :
  forall fi s,
    0 < trackedAssets (_config s) ->
    initializeLoop 0 rest fi 0 s = Return (s, Some (fi + len rest, 0)).
Proof.
  induction rest as [ | feature rest IH]; intros fi s HT;
    cbn [initializeLoop];
    (destruct (Z.ltb_spec 0 (trackedAssets (_config s))) as [_ | ]; [ | lia ]).
  - unfold len. cbn [length Z.of_nat]. rewrite Z.add_0_r. reflexivity.
  - unfold placeFeature, numOfTracksPerFeature.
    cbn [Z.eqb loopCount placeTracks bind].
    rewrite IH by assumption.
    unfold len. cbn [length].
    replace (fi + 1 + Z.of_nat (length rest))
      with (fi + Z.of_nat (S (length rest))) by lia.
    reflexivity.
Qed.

(** X20 (a geometry without vertices).  When the geometry has no vertex at
    all (no feature, or only features whose paths are all empty) and
    [trackedAssets] is positive, every feature's share is [NaN], no
    placement loop runs and nothing is read: [initialize] returns,
    leaves the service as it was but for the polylines, and logs the
    number of features and 0 tracks. *)
Theorem geometry_without_vertices polylines (s : MockService) :
  _sumPolylineVertices polylines = 0 ->
  0 < trackedAssets (_config s) ->
  initialize polylines s
  = Return (with_polylines s (Some polylines),
            Some (len (features polylines), 0)).
Proof.
  intros Hsum HT. unfold initialize, _initialize. rewrite Hsum.
  rewrite initializeLoop_no_vertices by exact HT.
  rewrite Z.add_0_l. reflexivity.
Qed.

(** ** The length a record keeps at the end of a path *)

(** X21 (past the end of a path).  A tick that takes a track past the last
    segment of [path] sends its record to vertex 0 of the next path of the
    feature, or of path 0 after the last path, and stores as the length of
    the segment the length of the first segment of [path], the path the
    track has left. *)
Theorem path_end_keeps_the_old_length polylines s s' (k : nat) info
    feature path :
  _updatePositions (Some polylines) s = Return s' ->
  nth_error (_trackInfos s) k = Some info ->
  get (features polylines) (featureIndex info) = Some feature ->
  get (paths (geometry feature)) (pathIndex info) = Some path ->
  (distanceToNextVertex info
   <=? accumulatedDistance info + speed info + speed info)%float = true ->
  len path - 1 <= vertexIndex info + 1 ->
  exists info' a b,
    nth_error (_trackInfos s') k = Some info' /\
    pathIndex info'
    = (if pathIndex info <? len (paths (geometry feature)) - 1
       then pathIndex info + 1 else 0) /\
    vertexIndex info' = 0 /\
    get path 0 = Some a /\
    get path 1 = Some b /\
    distanceToNextVertex info' = segmentDist a b.
Proof.
  intros H Hk Hf Hp Hfires Hend.
  destruct (updatePositions_nth _ _ _ _ _ H Hk)
    as (info' & before & after & Hnth & Hupd & _).
  destruct (updateTrack_at_path_end _ _ _ _ _ _ _ _ Hupd Hf Hp Hfires Hend)
    as (Hpi & Hvi & _ & a & b & Ha & Hb & Hdist).
  exists info', a, b. repeat split; assumption.
Qed.

(** ** The share of a feature *)

(** X22 (no share above [trackedAssets]).  [_sumPolylineVertices] counts
    the vertices that [_getNumberOfVertices] counts feature by feature,
    so a feature of the geometry has between 0 and [vertexSum] vertices,
    and the number of tracks asked of its placement loop is 1 at least and
    [trackedAssets] at most (1 when [trackedAssets] is below 1); the
    spacing of its tracks is not negative and below its vertex count,
    unless that is 0. *)
Theorem share_of_a_feature polylines feature (T k : Z) :
  In feature (features polylines) ->
  numOfTracksPerFeature T (_getNumberOfVertices (geometry feature))
                        (_sumPolylineVertices polylines) = Some k ->
  0 <= _getNumberOfVertices (geometry feature)
    <= _sumPolylineVertices polylines /\
  1 <= k <= Z.max T 1 /\
  0 <= vertexNumBetweenTracks (_getNumberOfVertices (geometry feature)) k
    <= _getNumberOfVertices (geometry feature) /\
  (0 < _getNumberOfVertices (geometry feature) ->
   vertexNumBetweenTracks (_getNumberOfVertices (geometry feature)) k
   < _getNumberOfVertices (geometry feature)).
Proof.
  intros Hin Hk.
  pose proof (getNumberOfVertices_nonneg (geometry feature)) as Hn.
  pose proof (numberOfVertices_le_sum _ _ Hin) as Hle.
  set (n := _getNumberOfVertices (geometry feature)) in *.
  set (sum := _sumPolylineVertices polylines) in *.
  unfold numOfTracksPerFeature in Hk.
  destruct (Z.eqb_spec sum 0) as [ | Hsum]; [ discriminate Hk | ].
  injection Hk as <-.
  assert (Hshare : T * n / sum <= Z.max T 0).
  { apply Z.div_le_upper_bound; nia. }
  split; [ lia | ]. split; [ lia | ].
  unfold vertexNumBetweenTracks.
  set (k := Z.max (T * n / sum) 1).
  assert (Hk : 1 <= k) by (unfold k; lia).
  split.
  - split; [ apply Z.div_pos; lia | ].
    apply Z.div_le_upper_bound; nia.
  - intros Hpos. apply Z.div_lt_upper_bound; nia.
Qed.

End Service.

(** * The examples on a concrete host *)

(** X23 at work: one track on the path (0,0), (1,0), (1,3), which three
    ticks take to the second segment and back to the first. *)
Lemma speed_is_fixed_witness :
  exists s0 s1,
    initialize atan2_zero round_same random_half unevenLine
               (new (configOf 1 10000 0.5)) = Return (s0, None) /\
    ticks atan2_zero random_half 3 (Some unevenLine) s0 = Return s1 /\
    Forall (fun t => speed t
                     = (distanceToNextVertex t * distStep (_config s0))%float)
           (_trackInfos s0) /\
    map speed (_trackInfos s1) = map speed (_trackInfos s0).
Proof.
  destruct (speed_is_fixed_at_allocation atan2_zero round_same random_half)
    as [Hplace Htick].
  do 2 eexists.
  split; [ vm_compute; reflexivity | ].
  split; [ vm_compute; reflexivity | ].
  split.
  - apply (Hplace unevenLine (configOf 1 10000 0.5) _ None).
    vm_compute. reflexivity.
  - apply (Htick (Some unevenLine) 3%nat). vm_compute. reflexivity.
Defined.

(** C6 at work: twenty-five tracks in pages of ten, three pages to the
    cycle. *)
Lemma one_tick_per_cycle_witness :
  exists s out s1,
    service (initialize atan2_zero round_same random_half oneSegment
                        (new (configOf 25 10 0.5))) = Some s /\
    next atan2_zero random_half s = Return (out, s1) /\
    pagesPerCycle (_config s) = 3 /\
    _updatePositions atan2_zero random_half (_polylines s)
                     (with_page s (1 mod pagesPerCycle (_config s)))
    = Return s1 /\
    forall j : nat,
      Z.of_nat j < pagesPerCycle (_config s) ->
      exists outs,
        nextN atan2_zero random_half j s1
        = Return (outs,
                  with_page s1 ((1 + Z.of_nat j) mod pagesPerCycle (_config s))).
Proof.
  do 3 eexists.
  split; [ vm_compute; reflexivity | ].
  split; [ vm_compute; reflexivity | ].
  split; [ reflexivity | ].
  eapply (one_tick_per_cycle atan2_zero random_half).
  - reflexivity.
  - reflexivity.
  - reflexivity.
  - vm_compute. reflexivity.
Defined.

(** C9, an input on which the claim fails: a service for twenty-five
    tracks in pages of ten that was never initialized answers the first
    request with ten empty slots, and the second with twenty. *)
Lemma next_before_initialize_is_answered :
  exists outs s,
    nextN atan2_zero random_half 2 (new (configOf 25 10 0.5))
    = Return (outs, s) /\
    outs = [repeat None 10; repeat None 20] /\
    _trackInfos s = [] /\
    _lastObservations s = [] /\
    _polylines s = None.
Proof.
  do 2 eexists. split; [ vm_compute; reflexivity | ].
  repeat split.
Qed.

(** C9, the amended statement at work on the default configuration. *)
Lemma next_before_initialize_witness :
  exists outs s,
    nextN atan2_zero random_half 3 (new defaultConfig) = Return (outs, s) /\
    length outs = 3%nat /\
    Forall (Forall (eq None)) outs.
Proof.
  apply (next_before_initialize_returns atan2_zero random_half defaultConfig 3).
  - vm_compute. discriminate.
  - vm_compute. discriminate.
  - vm_compute. discriminate.
Defined.

(** C10 at work: a feature whose only path is a single vertex makes
    [initialize] fault, and a feature with one segment does not. *)
Lemma first_path_is_not_checked_witness :
  initialize atan2_zero round_same random_half loneVertex
             (new (configOf 1 10000 0.5)) = Throw TypeError /\
  exists r,
    initialize atan2_zero round_same random_half oneSegment
               (new (configOf 1 10000 0.5)) = Return r.
Proof.
  destruct (first_path_is_not_checked atan2_zero round_same random_half)
    as (_ & _ & Hfault & _ & Hfine & _ & _).
  split.
  - eapply Hfault.
    + reflexivity.
    + reflexivity.
    + vm_compute. discriminate.
    + reflexivity.
  - apply Hfine. repeat constructor.
Defined.

(** C7, an input on which the claim fails.  Ten tracks are asked for on a
    feature of five paths of three vertices and five features of one
    segment.  The share of the first feature is [floor(10 * 15 / 25) = 6]
    with a track every two vertices, so every path takes one track and the
    feature gets five.  The five short features get one track each: ten
    tracks in all, the count asked for. *)
Lemma feature_short_of_its_share :
  exists s feature,
    initialize atan2_zero round_same random_half fivePathsThenFive
               (new (configOf 10 10000 0.5)) = Return (s, None) /\
    get (features fivePathsThenFive) 0 = Some feature /\
    len (_trackInfos s) = trackedAssets (_config s) /\
    tracksOn 0 s = 5 /\
    Z.max 1 (trackedAssets (_config s)
             * _getNumberOfVertices (geometry feature)
             / _sumPolylineVertices fivePathsThenFive) = 6.
Proof.
  do 2 eexists. split; [ vm_compute; reflexivity | ].
  repeat split.
Qed.

(** C7, the amended statement at work on the same input. *)
Lemma tracks_per_feature_witness :
  exists s feature,
    initialize atan2_zero round_same random_half fivePathsThenFive
               (new (configOf 10 10000 0.5)) = Return (s, None) /\
    get (features fivePathsThenFive) 0 = Some feature /\
    Z.max (trackedAssets (_config s) * _getNumberOfVertices (geometry feature)
           / _sumPolylineVertices fivePathsThenFive) 1 = 6 /\
    (trackedAssets (_config s) <= tracksBefore 0 s -> tracksOn 0 s = 0) /\
    (tracksBefore 0 s < trackedAssets (_config s) ->
     1 <= tracksOn 0 s
       <= Z.max (trackedAssets (_config s)
                 * _getNumberOfVertices (geometry feature)
                 / _sumPolylineVertices fivePathsThenFive) 1 /\
     (tracksOn 0 s
      < Z.max (trackedAssets (_config s)
               * _getNumberOfVertices (geometry feature)
               / _sumPolylineVertices fivePathsThenFive) 1 ->
      exists front t,
        filter (fun t => featureIndex t =? 0) (_trackInfos s) = front ++ [t] /\
        _getNextTrackStart
          (geometry feature)
          (vertexNumBetweenTracks
             (_getNumberOfVertices (geometry feature))
             (Z.max (trackedAssets (_config s)
                     * _getNumberOfVertices (geometry feature)
                     / _sumPolylineVertices fivePathsThenFive) 1))
          (pathIndex t) (vertexIndex t)
        = Return None)).
Proof.
  do 2 eexists.
  split; [ vm_compute; reflexivity | ].
  split; [ reflexivity | ].
  split; [ reflexivity | ].
  eapply (tracks_per_feature atan2_zero round_same random_half
                             fivePathsThenFive (configOf 10 10000 0.5) _ None 0).
  - vm_compute. reflexivity.
  - reflexivity.
  - vm_compute. discriminate.
Defined.

(** C8, where the claim fails.  On the path (0,0), (1,0), (1,1) with one
    track and [distStep = 0.5], the transition to the segment from (1,0)
    to (1,1) has been made when the first tick returns, and the second
    tick leaves the track at (1, 0.5), not at (1, 0). *)
Lemma corner_is_passed_on_the_first_tick :
  let config := {| trackedAssets' := Some 1;
                   pageSize' := None;
                   distStep' := Some 0.5%float |} in
  exists s1 s2,
    simulate atan2_zero round_same random_half 1 cornerLine config = Return s1 /\
    simulate atan2_zero round_same random_half 2 cornerLine config = Return s2 /\
    positions s1 = [(0.5, 0)%float] /\
    map vertexIndex (_trackInfos s1) = [1] /\
    map accumulatedDistance (_trackInfos s1) = [0%float] /\
    positions s2 = [(1, 0.5)%float] /\
    positions s2 <> [(1, 0)%float].
Proof.
  do 2 eexists.
  split; [ vm_compute; reflexivity | ].
  split; [ vm_compute; reflexivity | ].
  repeat split.
  intros H.
  apply (f_equal (fun l => match l with
                           | (_, y) :: _ => PrimFloat.eqb y 0.5
                           | [] => false
                           end)) in H.
  vm_compute in H. discriminate H.
Qed.

(** * The further properties at work *)

Lemma createId_distinct_witness :
  fst (_createId (createIds 7 (new defaultConfig)))
  <> fst (_createId (createIds 4294967300 (new defaultConfig))).
Proof.
  apply (createId_distinct_within_period 7 4294967300 defaultConfig);
    reflexivity.
Defined.

(** A service with two tracks on one segment, as [initialize] leaves it. *)
Lemma tick_keeps_the_tracks_witness :
  exists s s',
    initialize atan2_zero round_same random_half oneSegment
               (new (configOf 2 10000 0.25)) = Return (s, None) /\
    _updatePositions atan2_zero random_half (Some oneSegment) s = Return s' /\
    length (_trackInfos s') = length (_trackInfos s) /\
    length (_lastObservations s') = length (_lastObservations s) /\
    (length (_trackInfos s) <= length (_lastObservations s))%nat /\
    map featureIndex (_trackInfos s') = map featureIndex (_trackInfos s) /\
    map (fun o => TRACKID (attributes o)) (_lastObservations s')
    = map (fun o => TRACKID (attributes o)) (_lastObservations s) /\
    map (fun o => TYPE (attributes o)) (_lastObservations s')
    = map (fun o => TYPE (attributes o)) (_lastObservations s).
Proof.
  do 2 eexists.
  split; [ vm_compute; reflexivity | ].
  split; [ vm_compute; reflexivity | ].
  apply (tick_keeps_the_tracks atan2_zero random_half (Some oneSegment)).
  vm_compute. reflexivity.
Defined.

Lemma tick_renews_the_identifiers_witness :
  exists s s',
    initialize atan2_zero round_same random_half oneSegment
               (new (configOf 2 10000 0.25)) = Return (s, None) /\
    _updatePositions atan2_zero random_half (Some oneSegment) s = Return s' /\
    _idCounter s = 3 /\
    _idCounter s' = (_idCounter s + len (_trackInfos s)) mod 4294967294 /\
    forall k,
      0 <= k < len (_trackInfos s) ->
      exists o,
        get (_lastObservations s') k = Some o /\
        OBJECTID (attributes o) = (_idCounter s + k) mod 4294967294.
Proof.
  do 2 eexists.
  split; [ vm_compute; reflexivity | ].
  split; [ vm_compute; reflexivity | ].
  split; [ reflexivity | ].
  apply (tick_renews_the_identifiers atan2_zero random_half (Some oneSegment)).
  - vm_compute. reflexivity.
  - split; [ vm_compute; discriminate | vm_compute; reflexivity ].
Defined.

Lemma active_flags_rest_witness :
  exists s s',
    initialize atan2_zero round_same random_half oneSegment
               (new (configOf 2 10000 0.25)) = Return (s, None) /\
    ticks atan2_zero random_half 3 (Some oneSegment) s = Return s' /\
    _numCyclesSinceLastActiveUpdate s'
    = _numCyclesSinceLastActiveUpdate s + Z.of_nat 3 /\
    randomCalls s' = randomCalls s /\
    map (fun o => ACTIVE (attributes o)) (_lastObservations s')
    = map (fun o => ACTIVE (attributes o)) (_lastObservations s).
Proof.
  do 2 eexists.
  split; [ vm_compute; reflexivity | ].
  split; [ vm_compute; reflexivity | ].
  apply (active_flags_rest_between_redraws atan2_zero random_half 3
                                           (Some oneSegment)).
  - vm_compute. reflexivity.
  - vm_compute. discriminate.
  - vm_compute. reflexivity.
Defined.

Lemma four_hundredth_tick_witness :
  exists s0 s s',
    initialize atan2_zero round_same random_half oneSegment
               (new (configOf 2 10000 0.25)) = Return (s0, None) /\
    s = with_numCycles s0 399 /\
    _updatePositions atan2_zero random_half (Some oneSegment) s = Return s' /\
    _numCyclesSinceLastActiveUpdate s' = 0 /\
    randomCalls s' = (randomCalls s + length (_trackInfos s))%nat /\
    forall k : nat,
      (k < length (_trackInfos s))%nat ->
      exists o,
        get (_lastObservations s') (Z.of_nat k) = Some o /\
        ACTIVE (attributes o)
        = (if (random_half (randomCalls s + k) <? 0.05)%float then 1 else 0).
Proof.
  do 3 eexists.
  split; [ vm_compute; reflexivity | ].
  split; [ reflexivity | ].
  split; [ vm_compute; reflexivity | ].
  apply (four_hundredth_tick_redraws atan2_zero random_half (Some oneSegment)).
  - vm_compute. reflexivity.
  - reflexivity.
Defined.

(** The only track reaches the end of the first of two paths on its first
    tick. *)
Lemma path_end_keeps_the_old_length_witness :
  exists s s' info,
    initialize atan2_zero round_same random_half twoPaths
               (new (configOf 1 10000 0.5)) = Return (s, None) /\
    _updatePositions atan2_zero random_half (Some twoPaths) s = Return s' /\
    _trackInfos s = [info] /\
    exists info' a b,
      nth_error (_trackInfos s') 0 = Some info' /\
      pathIndex info'
      = (if pathIndex info
            <? len (paths (geometry
                             (featureOf [[(0, 0); (1, 0)]%float;
                                         [(0, 0); (0, 3)]%float]))) - 1
         then pathIndex info + 1 else 0) /\
      vertexIndex info' = 0 /\
      get [(0, 0); (1, 0)]%float 0 = Some a /\
      get [(0, 0); (1, 0)]%float 1 = Some b /\
      distanceToNextVertex info' = segmentDist a b.
Proof.
  do 3 eexists.
  split; [ vm_compute; reflexivity | ].
  match goal with
  | |- _updatePositions _ _ _ ?s = _ /\ _ =>
      split; [ vm_compute; reflexivity | ];
      split; [ reflexivity | ];
      eapply (path_end_keeps_the_old_length atan2_zero random_half twoPaths
                                            s _ 0)
  end.
  - vm_compute. reflexivity.
  - reflexivity.
  - reflexivity.
  - reflexivity.
  - vm_compute. reflexivity.
  - vm_compute. discriminate.
Defined.

Lemma everyPathUsable_oneSegment : everyPathUsable oneSegment.
Proof. repeat constructor. vm_compute. discriminate. Defined.

Lemma ticks_never_fault_witness :
  exists s,
    initialize atan2_zero round_same random_half oneSegment
               (new (configOf 2 10000 0.25)) = Return (s, None) /\
    exists s',
      ticks atan2_zero random_half 5 (Some oneSegment) s = Return s' /\
      Forall (onSegment oneSegment) (_trackInfos s') /\
      (length (_trackInfos s') <= length (_lastObservations s'))%nat.
Proof.
  eexists.
  split; [ vm_compute; reflexivity | ].
  apply (ticks_never_fault atan2_zero random_half oneSegment 5
                           everyPathUsable_oneSegment).
  - repeat constructor;
      (exists (featureOf [path2]); split; [ reflexivity | ];
       exists path2; repeat split; vm_compute; congruence).
  - vm_compute. apply le_n.
Defined.

Lemma tracks_start_on_vertices_witness :
  exists s,
    initialize atan2_zero round_same random_half fivePathsThenFive
               (new (configOf 10 10000 0.5)) = Return (s, None) /\
    Forall2 (startsAt fivePathsThenFive) (_trackInfos s) (_lastObservations s).
Proof.
  eexists.
  split; [ vm_compute; reflexivity | ].
  apply (tracks_start_on_vertices atan2_zero round_same random_half
           fivePathsThenFive (configOf 10 10000 0.5) _ None).
  vm_compute. reflexivity.
Defined.

Lemma fresh_service_numbering_witness :
  exists s,
    initialize atan2_zero round_same random_half shortShortLong
               (new (configOf 3 10000 0.5)) = Return (s, None) /\
    map (fun o => TRACKID (attributes o)) (_lastObservations s)
    = range 0 (length (_lastObservations s)) /\
    (forall (k : nat) o,
        nth_error (_lastObservations s) k = Some o ->
        OBJECTID (attributes o) = (1 + Z.of_nat k) mod 4294967294) /\
    _idCounter s = (1 + len (_lastObservations s)) mod 4294967294 /\
    Forall (fun o => ACTIVE (attributes o) = 0 \/ ACTIVE (attributes o) = 1)
           (_lastObservations s) /\
    randomCalls s = (2 * length (_lastObservations s))%nat.
Proof.
  eexists.
  split; [ vm_compute; reflexivity | ].
  apply (fresh_service_numbering atan2_zero round_same random_half
           shortShortLong (configOf 3 10000 0.5) _ None).
  vm_compute. reflexivity.
Defined.

(** A service that is initialized a second time. *)
Lemma initialize_appends_witness :
  exists s s',
    initialize atan2_zero round_same random_half oneSegment
               (new (configOf 2 10000 0.25)) = Return (s, None) /\
    initialize atan2_zero round_same random_half twoPaths s
    = Return (s', None) /\
    exists infos obs,
      _trackInfos s' = _trackInfos s ++ infos /\
      _lastObservations s' = _lastObservations s ++ obs /\
      length infos = length obs /\
      map (fun o => TRACKID (attributes o)) obs = range 0 (length obs) /\
      _page s' = _page s /\
      _numCyclesSinceLastActiveUpdate s' = _numCyclesSinceLastActiveUpdate s /\
      _polylines s' = Some twoPaths.
Proof.
  do 2 eexists.
  split; [ vm_compute; reflexivity | ].
  split; [ vm_compute; reflexivity | ].
  apply (initialize_appends atan2_zero round_same random_half twoPaths _ _ None).
  vm_compute. reflexivity.
Defined.

(** Two features of one segment and five tracks to place: two tracks a
    feature, and the features run out. *)
Lemma allocation_count_witness :
  exists s,
    initialize atan2_zero round_same random_half
               (featureSetOf [[path2]; [path2]])
               (new (configOf 5 10000 0.5)) = Return (s, Some (2, 4)) /\
    length (_trackInfos s) = length (_lastObservations s) /\
    len (_trackInfos s) <= Z.max 0 (2 * trackedAssets (_config s) - 1) /\
    2 = len (features (featureSetOf [[path2]; [path2]])) /\
    4 = len (_trackInfos s) /\
    len (_trackInfos s) < trackedAssets (_config s).
Proof.
  eexists.
  split; [ vm_compute; reflexivity | ].
  apply (allocation_count atan2_zero round_same random_half
           (featureSetOf [[path2]; [path2]]) (configOf 5 10000 0.5)
           _ (Some (2, 4))).
  vm_compute. reflexivity.
Defined.

Lemma service_never_faults_witness :
  exists s,
    initialize atan2_zero round_same random_half oneSegment
               (new (configOf 3 2 0.25)) = Return (s, None) /\
    exists outs s',
      nextN atan2_zero random_half 5 s = Return (outs, s') /\
      length outs = 5%nat.
Proof.
  eexists.
  split; [ vm_compute; reflexivity | ].
  apply (service_never_faults atan2_zero round_same random_half oneSegment
           (configOf 3 2 0.25) _ None 5).
  - vm_compute. reflexivity.
  - exact everyPathUsable_oneSegment.
  - vm_compute. discriminate.
  - vm_compute. discriminate.
  - vm_compute. discriminate.
Defined.

Lemma stored_length_stays_current_witness :
  exists s s',
    initialize atan2_zero round_same random_half unevenLine
               (new (configOf 1 10000 0.5)) = Return (s, None) /\
    ticks atan2_zero random_half 3 (Some unevenLine) s = Return s' /\
    Forall (lengthIsCurrent unevenLine) (_trackInfos s').
Proof.
  do 2 eexists.
  split; [ vm_compute; reflexivity | ].
  match goal with
  | |- ticks _ _ _ _ ?s = _ /\ _ =>
      split;
      [ vm_compute; reflexivity
      | apply (stored_length_stays_current atan2_zero round_same random_half
                 unevenLine (configOf 1 10000 0.5) s None 3) ]
  end.
  - repeat constructor.
  - vm_compute. reflexivity.
  - vm_compute. reflexivity.
Defined.

Lemma tick_interpolates_witness :
  exists s s' info,
    initialize atan2_zero round_same random_half unevenLine
               (new (configOf 1 10000 0.25)) = Return (s, None) /\
    _updatePositions atan2_zero random_half (Some unevenLine) s = Return s' /\
    nth_error (_trackInfos s) 0 = Some info /\
    exists feature path v v' o,
      get (features unevenLine) (featureIndex info) = Some feature /\
      get (paths (geometry feature)) (pathIndex info) = Some path /\
      get path (vertexIndex info) = Some v /\
      get path (vertexIndex info + 1) = Some v' /\
      nth_error (_lastObservations s') 0 = Some o /\
      point o
      = pointBetween v v' ((accumulatedDistance info + speed info)
                           / distanceToNextVertex info)%float /\
      HEADING (attributes o)
      = getAzimuth atan2_zero (fst v' - fst v)%float (snd v' - snd v)%float.
Proof.
  do 3 eexists.
  split; [ vm_compute; reflexivity | ].
  match goal with
  | |- _updatePositions _ _ _ ?s = _ /\ _ =>
      split; [ vm_compute; reflexivity | ];
      split; [ reflexivity | ];
      eapply (tick_interpolates atan2_zero random_half unevenLine s _ 0)
  end.
  - vm_compute. reflexivity.
  - reflexivity.
Defined.

Lemma tick_moves_one_step_witness :
  exists s s' info,
    initialize atan2_zero round_same random_half unevenLine
               (new (configOf 1 10000 0.5)) = Return (s, None) /\
    _updatePositions atan2_zero random_half (Some unevenLine) s = Return s' /\
    nth_error (_trackInfos s) 0 = Some info /\
    exists info' feature path,
      nth_error (_trackInfos s') 0 = Some info' /\
      get (features unevenLine) (featureIndex info) = Some feature /\
      get (paths (geometry feature)) (pathIndex info) = Some path /\
      featureIndex info' = featureIndex info /\
      if (distanceToNextVertex info
          <=? accumulatedDistance info + speed info + speed info)%float
      then
        accumulatedDistance info' = 0%float /\
        if len path - 1 <=? vertexIndex info + 1
        then
          vertexIndex info' = 0 /\
          pathIndex info'
          = (if pathIndex info <? len (paths (geometry feature)) - 1
             then pathIndex info + 1 else 0)
        else
          vertexIndex info' = vertexIndex info + 1 /\
          pathIndex info' = pathIndex info
      else
        pathIndex info' = pathIndex info /\
        vertexIndex info' = vertexIndex info /\
        distanceToNextVertex info' = distanceToNextVertex info /\
        accumulatedDistance info'
        = (accumulatedDistance info + speed info)%float.
Proof.
  do 3 eexists.
  split; [ vm_compute; reflexivity | ].
  match goal with
  | |- _updatePositions _ _ _ ?s = _ /\ _ =>
      split; [ vm_compute; reflexivity | ];
      split; [ reflexivity | ];
      eapply (tick_moves_one_step atan2_zero random_half unevenLine s _ 0)
  end.
  - vm_compute. reflexivity.
  - reflexivity.
Defined.

(** The second page of a service with three tracks and pages of two. *)
Lemma page_layout_witness :
  exists s0 out0 s out s',
    initialize atan2_zero round_same random_half oneSegment
               (new (configOf 3 2 0.25)) = Return (s0, None) /\
    next atan2_zero random_half s0 = Return (out0, s) /\
    next atan2_zero random_half s = Return (out, s') /\
    _page s = 1 /\
    let start := _page s * pageSize (_config s) in
    let end_ :=
      Z.min (start + pageSize (_config s)) (trackedAssets (_config s)) in
    let written := Z.min end_ 4294967295 - start in
    out = if written <=? 0
          then repeat None (Z.to_nat (end_ - start))
          else repeat None (Z.to_nat start)
               ++ map (get (_lastObservations s'))
                      (range start (Z.to_nat written)).
Proof.
  do 5 eexists.
  split; [ vm_compute; reflexivity | ].
  split; [ vm_compute; reflexivity | ].
  split; [ vm_compute; reflexivity | ].
  split; [ reflexivity | ].
  apply (page_layout atan2_zero random_half).
  - vm_compute. discriminate.
  - vm_compute. reflexivity.
Defined.

Lemma zero_page_size_witness :
  exists s outs s',
    initialize atan2_zero round_same random_half oneSegment
               (new (configOf 1 0 0.25)) = Return (s, None) /\
    nextN atan2_zero random_half 2 s = Return (outs, s') /\
    outs = repeat [] 2 /\
    exists t,
      ticks atan2_zero random_half 2 (_polylines s) s = Return t /\
      s' = with_page t (_page s + Z.of_nat 2).
Proof.
  do 3 eexists.
  split; [ vm_compute; reflexivity | ].
  split; [ vm_compute; reflexivity | ].
  apply (zero_page_size atan2_zero random_half 2).
  - reflexivity.
  - reflexivity.
  - vm_compute. reflexivity.
Defined.

(** A feature without paths and a feature whose only path is empty. *)
Lemma geometry_without_vertices_witness :
  initialize atan2_zero round_same random_half (featureSetOf [[]; [[]]])
             (new (configOf 3 10 0.5))
  = Return (with_polylines (new (configOf 3 10 0.5))
                           (Some (featureSetOf [[]; [[]]])),
            Some (len (features (featureSetOf [[]; [[]]])), 0)).
Proof.
  apply (geometry_without_vertices atan2_zero round_same random_half
           (featureSetOf [[]; [[]]]) (new (configOf 3 10 0.5)));
    reflexivity.
Defined.

Lemma share_of_a_feature_witness :
  0 <= _getNumberOfVertices (geometry (featureOf [path8]))
    <= _sumPolylineVertices shortShortLong /\
  1 <= 2 <= Z.max 3 1 /\
  0 <= vertexNumBetweenTracks
         (_getNumberOfVertices (geometry (featureOf [path8]))) 2
    <= _getNumberOfVertices (geometry (featureOf [path8])) /\
  (0 < _getNumberOfVertices (geometry (featureOf [path8])) ->
   vertexNumBetweenTracks
     (_getNumberOfVertices (geometry (featureOf [path8]))) 2
   < _getNumberOfVertices (geometry (featureOf [path8]))).
Proof.
  apply (share_of_a_feature shortShortLong (featureOf [path8]) 3 2).
  - right. right. left. reflexivity.
  - reflexivity.
Defined.
